(** * Telemetry marker scripts: [util/classes.py]

    A shallow embedding of the [Device] class of [util/classes.py] and of
    the library calls its methods depend on ([str.replace], [str.split],
    the [in] test on strings, [json.loads], [numpy.setdiff1d], attribute
    lookup on instances), followed by the properties of the marker-diff
    pipeline.

    A Python [str] is modelled by the [string] of its UTF-8 bytes.  All
    the patterns the code searches for are ASCII, and an ASCII byte
    occurs in UTF-8 only as the character it stands for, so [replace],
    [split] and [in] act on the bytes as they do on the characters.

    The first part holds the definitions, the second the lemmas and the
    theorems. *)

From Stdlib Require Import Ascii ZArith Lia Permutation Sorted.
From stdpp Require Import base option list strings gmap.

Set Warnings "-register-all,-clear-no-such-hyp".
Local Open Scope nat_scope.

(* ===================================================================== *)
(** * Exceptions *)
(* ===================================================================== *)

(** The exceptions the modelled code can raise.  A method that can raise
    returns a [result]; Python's [None] is [Return None] on an option. *)
Inductive exn : Type :=
  | IndexError
  | KeyError (key : string)
  | AttributeError (name : string)
  | ValueError.

Inductive result (A : Type) : Type :=
  | Return (a : A)
  | Raise (e : exn).
Arguments Return {A} a.
Arguments Raise {A} e.

(** Sequencing: an exception raised by the first statement skips the
    rest.  Written [x ← r; k] below. *)
#[global] Instance result_bind : MBind result := fun A B k r =>
  match r with
  | Return a => k a
  | Raise e => Raise e
  end.
#[global] Instance result_ret : MRet result := fun A a => Return a.

(* ===================================================================== *)
(** * Python string methods *)
(* ===================================================================== *)

Module PyStr.

(** The double quote and the backslash. *)
Definition dquote : ascii := "034"%char.
Definition backslash : ascii := "092"%char.
Definition Q : string := String dquote EmptyString.

(** [strip_prefix p s] is [Some r] when [s = p + r] (that is, when
    [s.startswith(p)]), and [None] otherwise. *)
Fixpoint strip_prefix (p s : string) : option string :=
  match p with
  | EmptyString => Some s
  | String a p' =>
      match s with
      | EmptyString => None
      | String c s' => if Ascii.eqb a c then strip_prefix p' s' else None
      end
  end.

(** [sub in s]. *)
Fixpoint contains (sub s : string) : bool :=
  match strip_prefix sub s with
  | Some _ => true
  | None =>
      match s with
      | EmptyString => false
      | String _ s' => contains sub s'
      end
  end.

(** [s.replace(old, new)] for a non-empty [old]: scan from the left,
    and at each occurrence of [old] emit [new] and resume after it.
    Every step consumes a character, so [length s] steps are enough. *)
Fixpoint replace_from (fuel : nat) (old new s : string) : string :=
  match fuel with
  | 0 => s
  | S fuel' =>
      match strip_prefix old s with
      | Some rest => new +:+ replace_from fuel' old new rest
      | None =>
          match s with
          | EmptyString => EmptyString
          | String c s' => String c (replace_from fuel' old new s')
          end
      end
  end.

(** With an empty [old], [new] is inserted before every character and
    at the end. *)
Fixpoint interleave (new s : string) : string :=
  match s with
  | EmptyString => new
  | String c s' => new +:+ String c (interleave new s')
  end.

Definition replace (s old new : string) : string :=
  match old with
  | EmptyString => interleave new s
  | String _ _ => replace_from (S (String.length s)) old new s
  end.

(** [s.split(sep)] for a non-empty [sep]: the pieces between the
    occurrences of [sep], found from the left.  The list is never
    empty. *)
Fixpoint split_from (fuel : nat) (sep s : string) : list string :=
  match fuel with
  | 0 => [s]
  | S fuel' =>
      match strip_prefix sep s with
      | Some rest => EmptyString :: split_from fuel' sep rest
      | None =>
          match s with
          | EmptyString => [EmptyString]
          | String c s' =>
              match split_from fuel' sep s' with
              | piece :: pieces => String c piece :: pieces
              | [] => [String c EmptyString]
              end
          end
      end
  end.

(** [s.split(sep)]; an empty separator is a [ValueError]. *)
Definition split (s sep : string) : result (list string) :=
  match sep with
  | EmptyString => Raise ValueError
  | String _ _ => Return (split_from (S (String.length s)) sep s)
  end.

(** [l[i]] on a list. *)
Definition index {A} (l : list A) (i : nat) : result A :=
  match l !! i with
  | Some x => Return x
  | None => Raise IndexError
  end.

End PyStr.

(* ===================================================================== *)
(** * The text normalizer: [__remove_double_quotes] *)
(* ===================================================================== *)

Module Normalizer.
Import PyStr.

(** The five punctuation sequences of the payload, with [Q] for the
    double quote: brace-quote, quote-comma-quote, quote-space-colon-
    space-quote, quote-colon-quote and quote-brace. *)
Definition open_obj  : string := "{" +:+ Q.
Definition item_sep  : string := Q +:+ "," +:+ Q.
Definition kv_spaced : string := Q +:+ " : " +:+ Q.
Definition kv_sep    : string := Q +:+ ":" +:+ Q.
Definition close_obj : string := Q +:+ "}".
(** What [arun] is replaced by: the separator with two spaces on each
    side of the colon. *)
Definition kv_wide   : string := Q +:+ "  :  " +:+ Q.

(** [__remove_double_quotes(data)], one [replace] per call of the
    source, in the source's order. *)
Definition remove_double_quotes (data : string) : string :=
  let str_data := replace (replace data open_obj "vikr") item_sep "sandep" in
  let str_data :=
    replace (replace (replace str_data kv_spaced "arun") kv_sep "bindhu")
            close_obj "gauth" in
  let str_data := replace str_data Q EmptyString in
  replace
    (replace
       (replace
          (replace
             (replace (replace str_data "vikr" open_obj) "sandep" item_sep)
             "arun" kv_wide)
          "bindhu" kv_sep)
       "gauth" close_obj)
    (String backslash EmptyString) "#".

End Normalizer.

(* ===================================================================== *)
(** * [json.loads] *)
(* ===================================================================== *)

(** The decoder of the standard [json] module with its default options
    (strict strings, [NaN] and the infinities accepted), on the UTF-8
    bytes of the text.  Integers are exact; a number with a fraction or
    an exponent keeps its lexeme, since its value is a float.  The
    decoder's recursion limit is not modelled. *)
Module Json.
Import PyStr.

Inductive value : Type :=
  | JNull
  | JBool (b : bool)
  | JInt (z : Z)
  | JFloat (lexeme : string)
  | JStr (s : string)
  | JArr (items : list value)
  | JObj (pairs : list (string * value)).

(** [dict(pairs)]: a key seen again keeps its place and takes the new
    value. *)
Fixpoint dict_set (k : string) (v : value) (d : list (string * value))
  : list (string * value) :=
  match d with
  | [] => [(k, v)]
  | (k', v') :: d' =>
      if String.eqb k k' then (k', v) :: d' else (k', v') :: dict_set k v d'
  end.

Definition dict (pairs : list (string * value)) : list (string * value) :=
  fold_left (fun d kv => dict_set (fst kv) (snd kv) d) pairs [].

(** Space, tab, line feed and carriage return. *)
Definition is_ws (c : ascii) : bool :=
  Ascii.eqb c " " || Ascii.eqb c "009" || Ascii.eqb c "010"
  || Ascii.eqb c "013".

Fixpoint skip_ws (s : string) : string :=
  match s with
  | EmptyString => EmptyString
  | String c s' => if is_ws c then skip_ws s' else s
  end.

Definition is_digit (c : ascii) : bool :=
  (48 <=? nat_of_ascii c) && (nat_of_ascii c <=? 57).

Definition hex_digit (c : ascii) : option N :=
  let n := nat_of_ascii c in
  if (48 <=? n) && (n <=? 57) then Some (N.of_nat (n - 48))
  else if (97 <=? n) && (n <=? 102) then Some (N.of_nat (n - 87))
  else if (65 <=? n) && (n <=? 70) then Some (N.of_nat (n - 55))
  else None.

(** [chr(u)] as UTF-8 bytes (a lone surrogate takes the three-byte
    form). *)
Definition utf8 (u : N) : string :=
  let byte (n : N) := ascii_of_N n in
  if (u <? 128)%N then String (byte u) EmptyString
  else if (u <? 2048)%N then
    String (byte (192 + u / 64)%N)
      (String (byte (128 + u mod 64)%N) EmptyString)
  else if (u <? 65536)%N then
    String (byte (224 + u / 4096)%N)
      (String (byte (128 + (u / 64) mod 64)%N)
         (String (byte (128 + u mod 64)%N) EmptyString))
  else
    String (byte (240 + u / 262144)%N)
      (String (byte (128 + (u / 4096) mod 64)%N)
         (String (byte (128 + (u / 64) mod 64)%N)
            (String (byte (128 + u mod 64)%N) EmptyString))).

Definition is_high (u : N) : bool := (55296 <=? u)%N && (u <=? 56319)%N.
Definition is_low (u : N) : bool := (56320 <=? u)%N && (u <=? 57343)%N.
Definition join_surrogates (hi lo : N) : N :=
  (65536 + ((hi - 55296) * 1024 + (lo - 56320)))%N.

(** Where the string scanner is: in plain content, just after a
    backslash, or inside a [\u] escape with [todo] hex digits to go. *)
Inductive sstate : Type :=
  | SPlain
  | SEsc
  | SHex (todo : nat) (acc : N).

Definition emit (bytes : string) (r : option (string * string))
  : option (string * string) :=
  match r with
  | Some (str, rest) => Some (bytes +:+ str, rest)
  | None => None
  end.

Definition flush (pend : option N) : string :=
  match pend with
  | Some hi => utf8 hi
  | None => EmptyString
  end.

(** The one-character escapes. *)
Definition simple_escape (e : ascii) : option ascii :=
  if Ascii.eqb e dquote then Some dquote
  else if Ascii.eqb e backslash then Some backslash
  else if Ascii.eqb e "/" then Some "/"%char
  else if Ascii.eqb e "b" then Some "008"%char
  else if Ascii.eqb e "f" then Some "012"%char
  else if Ascii.eqb e "n" then Some "010"%char
  else if Ascii.eqb e "r" then Some "013"%char
  else if Ascii.eqb e "t" then Some "009"%char
  else None.

(** [scanstring]: the content of a string literal whose opening quote
    has been read, and the text after its closing quote.  [pend] is a
    high surrogate from a [\u] escape that waits for a low one. *)
Fixpoint scanstring_in (st : sstate) (pend : option N) (s : string)
  : option (string * string) :=
  match s with
  | EmptyString => None
  | String c s' =>
      match st with
      | SPlain =>
          if Ascii.eqb c backslash then scanstring_in SEsc pend s'
          else if Ascii.eqb c dquote then Some (flush pend, s')
          else if nat_of_ascii c <? 32 then None
          else emit (flush pend +:+ String c EmptyString)
                    (scanstring_in SPlain None s')
      | SEsc =>
          if Ascii.eqb c "u" then scanstring_in (SHex 4 0%N) pend s'
          else
            match simple_escape c with
            | Some x => emit (flush pend +:+ String x EmptyString)
                             (scanstring_in SPlain None s')
            | None => None
            end
      | SHex todo acc =>
          match hex_digit c with
          | None => None
          | Some d =>
              let u := (acc * 16 + d)%N in
              match todo with
              | S (S k) => scanstring_in (SHex (S k) u) pend s'
              | _ =>
                  match pend with
                  | Some hi =>
                      if is_low u then
                        emit (utf8 (join_surrogates hi u))
                             (scanstring_in SPlain None s')
                      else if is_high u then
                        emit (utf8 hi) (scanstring_in SPlain (Some u) s')
                      else
                        emit (utf8 hi +:+ utf8 u) (scanstring_in SPlain None s')
                  | None =>
                      if is_high u then scanstring_in SPlain (Some u) s'
                      else emit (utf8 u) (scanstring_in SPlain None s')
                  end
              end
          end
      end
  end.

Definition scanstring (s : string) : option (string * string) :=
  scanstring_in SPlain None s.

(** Numbers: an optional minus sign, then zero or a digit sequence
    without leading zero; an optional fraction; an optional exponent. *)
Fixpoint take_digits (s : string) : string * string :=
  match s with
  | EmptyString => (EmptyString, EmptyString)
  | String c s' =>
      if is_digit c then
        let '(d, r) := take_digits s' in (String c d, r)
      else (EmptyString, s)
  end.

Definition match_digits1 (s : string) : option (string * string) :=
  match take_digits s with
  | (String d ds, r) => Some (String d ds, r)
  | (EmptyString, _) => None
  end.

Definition match_unsigned (s : string) : option (string * string) :=
  match s with
  | EmptyString => None
  | String c r =>
      if Ascii.eqb c "0" then Some ("0", r)
      else if is_digit c then
        let '(d, r') := take_digits r in Some (String c d, r')
      else None
  end.

Definition match_integer (s : string) : option (string * string) :=
  match s with
  | EmptyString => None
  | String c r =>
      if Ascii.eqb c "-" then
        match match_unsigned r with
        | Some (d, r') => Some (String c d, r')
        | None => None
        end
      else match_unsigned s
  end.

Definition match_frac (s : string) : string * string :=
  match s with
  | EmptyString => (EmptyString, s)
  | String c r =>
      if Ascii.eqb c "." then
        match match_digits1 r with
        | Some (d, r') => (String c d, r')
        | None => (EmptyString, s)
        end
      else (EmptyString, s)
  end.

Definition match_exp (s : string) : string * string :=
  match s with
  | EmptyString => (EmptyString, s)
  | String e r =>
      if Ascii.eqb e "e" || Ascii.eqb e "E" then
        let '(sign, r1) :=
          match r with
          | String c r1 =>
              if Ascii.eqb c "-" || Ascii.eqb c "+"
              then (String c EmptyString, r1) else (EmptyString, r)
          | EmptyString => (EmptyString, r)
          end in
        match match_digits1 r1 with
        | Some (d, r') => (String e (sign +:+ d), r')
        | None => (EmptyString, s)
        end
      else (EmptyString, s)
  end.

Fixpoint digits_value (acc : Z) (s : string) : Z :=
  match s with
  | EmptyString => acc
  | String c s' => digits_value (acc * 10 + Z.of_nat (nat_of_ascii c - 48))%Z s'
  end.

(** [int(lexeme)] on a lexeme of [match_integer]. *)
Definition int_of (lexeme : string) : Z :=
  match lexeme with
  | String c r =>
      if Ascii.eqb c "-" then (- digits_value 0 r)%Z else digits_value 0 lexeme
  | EmptyString => 0%Z
  end.

Definition match_number (s : string) : option (value * string) :=
  match match_integer s with
  | None => None
  | Some (i, r) =>
      let '(f, r1) := match_frac r in
      let '(e, r2) := match_exp r1 in
      match f, e with
      | EmptyString, EmptyString => Some (JInt (int_of i), r2)
      | _, _ => Some (JFloat (i +:+ f +:+ e), r2)
      end
  end.

Definition keyword (kw : string) (v : value) (s : string)
  : option (value * string) :=
  match strip_prefix kw s with
  | Some r => Some (v, r)
  | None => None
  end.

(** A value that is neither a string, an object nor an array, tried in
    the scanner's order. *)
Definition scan_atom (s : string) : option (value * string) :=
  match keyword "null" JNull s with Some x => Some x | None =>
  match keyword "true" (JBool true) s with Some x => Some x | None =>
  match keyword "false" (JBool false) s with Some x => Some x | None =>
  match match_number s with Some x => Some x | None =>
  match keyword "NaN" (JFloat "NaN") s with Some x => Some x | None =>
  match keyword "Infinity" (JFloat "Infinity") s with Some x => Some x | None =>
  keyword "-Infinity" (JFloat "-Infinity") s
  end end end end end end.

(** The outcome of a scan: a value and the rest of the text, a decoding
    error, or not enough fuel. *)
Inductive outcome (A : Type) : Type :=
  | Ok (a : A)
  | Fail
  | OutOfFuel.
Arguments Ok {A} a.
Arguments Fail {A}.
Arguments OutOfFuel {A}.

(** [scan_once] reads one value; [members] reads the pairs of an object
    from the character after the opening quote of a key; [items] reads
    the elements of an array from the first character of an element.
    Both take the pairs or elements read so far, last first. *)
Fixpoint scan_once (fuel : nat) (s : string) : outcome (value * string) :=
  match fuel with
  | 0 => OutOfFuel
  | S fuel' =>
      match s with
      | EmptyString => Fail
      | String c r =>
          if Ascii.eqb c dquote then
            match scanstring r with
            | Some (str, r') => Ok (JStr str, r')
            | None => Fail
            end
          else if Ascii.eqb c "{" then
            match skip_ws r with
            | String c1 r1 =>
                if Ascii.eqb c1 "}" then Ok (JObj [], r1)
                else if Ascii.eqb c1 dquote then members fuel' [] r1
                else Fail
            | EmptyString => Fail
            end
          else if Ascii.eqb c "[" then
            match skip_ws r with
            | String c1 r1 =>
                if Ascii.eqb c1 "]" then Ok (JArr [], r1)
                else items fuel' [] (String c1 r1)
            | EmptyString => Fail
            end
          else
            match scan_atom s with
            | Some x => Ok x
            | None => Fail
            end
      end
  end
with members (fuel : nat) (acc : list (string * value)) (s : string)
  : outcome (value * string) :=
  match fuel with
  | 0 => OutOfFuel
  | S fuel' =>
      match scanstring s with
      | None => Fail
      | Some (key, r1) =>
          match skip_ws r1 with
          | String c2 r2 =>
              if Ascii.eqb c2 ":" then
                match scan_once fuel' (skip_ws r2) with
                | Ok (v, r3) =>
                    match skip_ws r3 with
                    | String c4 r4 =>
                        if Ascii.eqb c4 "}" then
                          Ok (JObj (dict (rev ((key, v) :: acc))), r4)
                        else if Ascii.eqb c4 "," then
                          match skip_ws r4 with
                          | String c5 r5 =>
                              if Ascii.eqb c5 dquote
                              then members fuel' ((key, v) :: acc) r5
                              else Fail
                          | EmptyString => Fail
                          end
                        else Fail
                    | EmptyString => Fail
                    end
                | Fail => Fail
                | OutOfFuel => OutOfFuel
                end
              else Fail
          | EmptyString => Fail
          end
      end
  end
with items (fuel : nat) (acc : list value) (s : string)
  : outcome (value * string) :=
  match fuel with
  | 0 => OutOfFuel
  | S fuel' =>
      match scan_once fuel' s with
      | Ok (v, r1) =>
          match skip_ws r1 with
          | String c2 r2 =>
              if Ascii.eqb c2 "]" then Ok (JArr (rev (v :: acc)), r2)
              else if Ascii.eqb c2 "," then items fuel' (v :: acc) (skip_ws r2)
              else Fail
          | EmptyString => Fail
          end
      | Fail => Fail
      | OutOfFuel => OutOfFuel
      end
  end.

(** [decode]: one value, with white space allowed around it and
    nothing else after it. *)
Definition decode (fuel : nat) (s : string) : outcome value :=
  match scan_once fuel (skip_ws s) with
  | Ok (v, r) =>
      match skip_ws r with
      | EmptyString => Ok v
      | String _ _ => Fail
      end
  | Fail => Fail
  | OutOfFuel => OutOfFuel
  end.

(** [json.loads(s)]: [None] stands for the exception the decoder
    raises ([loads_fuel] below: the fuel never runs out). *)
Definition loads (s : string) : option value :=
  match decode (2 * String.length s + 1) s with
  | Ok v => Some v
  | Fail | OutOfFuel => None
  end.

End Json.

(* ===================================================================== *)
(** * [numpy.setdiff1d] *)
(* ===================================================================== *)

Module Numpy.

Definition in_list (x : string) (l : list string) : bool :=
  existsb (String.eqb x) l.

(** An element of an array of strings is stored in a field of fixed
    width, padded with NUL characters, and read without the NUL
    characters at its end: a string that ends with NUL characters is read
    back without them. *)
Fixpoint rstrip_nul (s : string) : string :=
  match s with
  | EmptyString => EmptyString
  | String c s' =>
      match rstrip_nul s' with
      | EmptyString =>
          if Ascii.eqb c "000" then EmptyString else String c EmptyString
      | String d r => String c (String d r)
      end
  end.

(** [numpy.asarray] on a list of strings, as the list of the elements
    read from the array. *)
Definition asarray (l : list string) : list string := map rstrip_nul l.

(** [numpy.unique]: the sorted values, each once. *)
Fixpoint insert_unique (x : string) (l : list string) : list string :=
  match l with
  | [] => [x]
  | y :: l' =>
      match String.compare x y with
      | Lt => x :: l
      | Eq => l
      | Gt => y :: insert_unique x l'
      end
  end.

Definition unique (ar : list string) : list string :=
  foldr insert_unique [] ar.

(** [setdiff1d(ar1, ar2)] on two lists of strings: both are made
    arrays; the result holds the unique values of the first that are not
    in the second. *)
Definition setdiff1d (ar1 ar2 : list string) : list string :=
  let ar1 := unique (asarray ar1) in
  let ar2 := unique (asarray ar2) in
  filter (fun x => negb (in_list x ar2) = true) ar1.

End Numpy.

(* ===================================================================== *)
(** * The classes [Product] and [Device] *)
(* ===================================================================== *)

Module Classes.
Import PyStr Normalizer Numpy.

(** ** The tables of [static.static]

    [device_types] maps a device type to its product type;
    [device_dict] maps a product type to its entry, whose [devices]
    table holds four strings for each device type. *)
Record device_conf : Type := {
  splunk_query_macs : string;
  splunk_query_daily_percentages : string;
  logpath : string;
  command : string
}.

Record product_conf : Type := {
  devices : gmap string device_conf
}.

Record static : Type := {
  device_types : gmap string string;
  device_dict : gmap string product_conf
}.

(** [d[k]] on a dict. *)
Definition subscript {V} (d : gmap string V) (k : string) : result V :=
  match d !! k with
  | Some v => Return v
  | None => Raise (KeyError k)
  end.

(** ** Instances and attribute lookup *)

Inductive pyval : Type :=
  | VStr (s : string)
  | VProduct (p : product_conf)
  | VMethod (cls name : string).

(** An instance is its attribute dictionary. *)
Definition instance : Type := gmap string pyval.

(** Inside class [cls], the name [__x] stands for [_cls__x]. *)
Definition mangle (cls name : string) : string := "_" +:+ cls +:+ name.

(** The names bound in the two class bodies. *)
Definition Product_names : list string :=
  ["__init__"; "get_product_type"; "get_email_sender"; "get_email_subject";
   "get_recipient_list"].

Definition Device_names : list string :=
  ["_Device__local_macs_path"; "__init__"; "get_device_type";
   "get_splunk_macs_query"; "get_splunk_daily_percents_query"; "get_logpath";
   "get_command"; "find_online_device"; "get_conf_error_df";
   "get_configs_difference"; "write_macs_to_local_file"; "get_macs";
   "get_daily_errors"].

(** What [self.name] finds: a value of the instance, or a member of
    [Device] or of its base class [Product]. *)
Inductive attr : Type :=
  | Field (v : pyval)
  | Member (cls name : string).

Definition getattr (self : instance) (name : string) : result attr :=
  match self !! name with
  | Some v => Return (Field v)
  | None =>
      if in_list name Device_names then Return (Member "Device" name)
      else if in_list name Product_names then Return (Member "Product" name)
      else Raise (AttributeError name)
  end.

(** [return self.name] in a getter whose attribute is a string (every
    attribute these getters read is one). *)
Definition get_str (self : instance) (name : string) : result string :=
  a ← getattr self name;
  match a with
  | Field (VStr s) => Return s
  | _ => Raise ValueError
  end.

(** ** [Product] *)

Definition Product_init (tables : static) (self : instance)
    (product_type : string) : result instance :=
  let self := <[mangle "Product" "__product_type" := VStr product_type]> self in
  let self := <[mangle "Product" "__email_sender" :=
                  VStr "MarkerAlert@comcast.com"]> self in
  let self := <[mangle "Product" "__email_subject" :=
                  VStr ("Missing Mandatory Markers on " +:+ product_type)]> self in
  recipients ← subscript (device_dict tables) product_type;
  Return (<[mangle "Product" "__recipient_list" := VProduct recipients]> self).

Definition get_product_type (self : instance) : result string :=
  get_str self (mangle "Product" "__product_type").

(** ** [Device] *)

(** [device_dict[self.get_product_type()]["devices"][device_type]]. *)
Definition device_entry (tables : static) (self : instance)
    (device_type : string) : result device_conf :=
  product_type ← get_product_type self;
  product ← subscript (device_dict tables) product_type;
  subscript (devices product) device_type.

Definition Device_init (tables : static) (device_type : string)
  : result instance :=
  let self : instance := <[mangle "Device" "__device_type" := VStr device_type]> ∅ in
  product_type ← subscript (device_types tables) device_type;
  self ← Product_init tables self product_type;
  e ← device_entry tables self device_type;
  let self := <[mangle "Device" "__splunk_query_macs" :=
                  VStr (splunk_query_macs e)]> self in
  e ← device_entry tables self device_type;
  let self := <[mangle "Device" "__splunk_query_daily_percents" :=
                  VStr (splunk_query_daily_percentages e)]> self in
  e ← device_entry tables self device_type;
  let self := <[mangle "Device" "__logpath" := VStr (logpath e)]> self in
  e ← device_entry tables self device_type;
  Return (<[mangle "Device" "__command" := VStr (command e)]> self).

Definition get_device_type (self : instance) : result string :=
  get_str self (mangle "Device" "__device_type").

Definition get_splunk_macs_query (self : instance) : result string :=
  get_str self (mangle "Device" "__splunk_query_macs").

Definition get_splunk_daily_percents_query (self : instance) : result string :=
  get_str self (mangle "Device" "__splunk_query_daily_percent").

Definition get_logpath (self : instance) : result string :=
  get_str self (mangle "Device" "__logpath").

Definition get_command (self : instance) : result string :=
  get_str self (mangle "Device" "__command").

(** The attributes of an instance that [Device.__init__] built
    ([Device_init_Return] below). *)
Definition device_attrs (device_type product_type : string)
    (p : product_conf) (e : device_conf) : instance :=
  <[mangle "Device" "__command" := VStr (command e)]>
  (<[mangle "Device" "__logpath" := VStr (logpath e)]>
  (<[mangle "Device" "__splunk_query_daily_percents" :=
       VStr (splunk_query_daily_percentages e)]>
  (<[mangle "Device" "__splunk_query_macs" := VStr (splunk_query_macs e)]>
  (<[mangle "Product" "__recipient_list" := VProduct p]>
  (<[mangle "Product" "__email_subject" :=
       VStr ("Missing Mandatory Markers on " +:+ product_type)]>
  (<[mangle "Product" "__email_sender" := VStr "MarkerAlert@comcast.com"]>
  (<[mangle "Product" "__product_type" := VStr product_type]>
  (<[mangle "Device" "__device_type" := VStr device_type]> ∅)))))))).

(** ** [find_online_device] *)

(** [macs.pop()]: the last element and the list without it. *)
Definition pop {A} (l : list A) : result (A * list A) :=
  match reverse l with
  | [] => Raise IndexError
  | x :: r => Return (x, reverse r)
  end.

Section FindOnline.
(** The two calls to the device directory. *)
Variable router_is_online : string -> bool.
Variable ip_from_mac : string -> string -> string.

(** The [while] loop, for a device of type [device_type]; [None] when
    the fuel runs out.  The loop ends when [found_one] is true, also
    when no branch returned. *)
Fixpoint find_loop (fuel : nat) (device_type : string) (macs : list string)
  : option (result (option string)) :=
  match fuel with
  | 0 => None
  | S fuel' =>
      match pop macs with
      | Raise e => Some (Raise e)
      | Return (mac, macs) =>
          let found_one := router_is_online mac in
          if found_one then
            if String.eqb device_type "XI5" then Some (Return (Some mac))
            else if in_list device_type ["XB3"; "XB6"; "XF3"; "XG"] then
              let ip := ip_from_mac mac device_type in
              Some (Return (Some ip))
            else Some (Return None)
          else find_loop fuel' device_type macs
      end
  end.

(** [find_online_device], given the lines of the file of addresses
    in the order [random.shuffle] left them. *)
Definition find_online_device (self : instance) (shuffled : list string)
  : option (result (option string)) :=
  match get_device_type self with
  | Raise e => Some (Raise e)
  | Return device_type => find_loop (S (length shuffled)) device_type shuffled
  end.
End FindOnline.

(** ** [get_configs_difference] *)

Definition sentinel : string := "urn:settings:TelemetryProfile".
Definition key_marker : string := "telemetryProfile" +:+ Q +:+ ":".
Definition trailing_marker : string :=
  "," +:+ Q +:+ "schedule" +:+ Q +:+ ":" +:+ Q.
Definition cid_quoted : string :=
  Q +:+ "cid" +:+ Q +:+ ":" +:+ Q +:+ "0" +:+ Q.

(** The two [split]s of a line that holds the sentinel; the result is
    [data_string[0]]. *)
Definition payload_of (line : string) : result string :=
  data_string ← split line key_marker;
  piece ← index data_string 1;
  data_string ← split piece trailing_marker;
  index data_string 0.

(** [parse_data], by device type. *)
Definition parse_data_of (device_type payload : string) : string :=
  if in_list device_type ["XB3"; "XB6"; "XF3"] then
    replace payload cid_quoted "cid:0"
  else if String.eqb device_type "XG" || String.eqb device_type "XI5" then
    remove_double_quotes payload
  else EmptyString.

(** [logging.info(e)] in [parse_configs]: the text whose decoding
    raised [e]. *)
Inductive event : Type :=
  | LoggedException (parse_data : string).

(** [parse_configs], on the lines [content] of the file: the log and
    what is returned or raised. *)
Fixpoint parse_configs (device_type : string) (content : list string)
  : list event * result (option Json.value) :=
  match content with
  | [] => ([], Return None)
  | line :: content' =>
      if contains sentinel line then
        match payload_of line with
        | Raise e => ([], Raise e)
        | Return payload =>
            let parse_data := parse_data_of device_type payload in
            match Json.loads parse_data with
            | Some jsn_data => ([], Return (Some jsn_data))
            | None =>
                let '(log, r) := parse_configs device_type content' in
                (LoggedException parse_data :: log, r)
            end
        end
      else parse_configs device_type content'
  end.

(** A line that does not hold the sentinel. *)
Abbreviation no_sentinel := (fun line => contains sentinel line = false).

(** The log of a run in which no payload decodes: one entry for each
    line that holds the sentinel. *)
Definition logged_failures (device_type : string) (content : list string)
  : list event :=
  flat_map
    (fun line =>
       if contains sentinel line then
         match payload_of line with
         | Return payload => [LoggedException (parse_data_of device_type payload)]
         | Raise _ => []
         end
       else [])
    content.

Section Difference.
(** [list(pd.DataFrame(data)[column])] for a decoded [data]. *)
Variable frame_column : Json.value -> string -> result (list string).
(** Calling what [self.get_static_error_df] found and reading the
    [Marker] column of the result. *)
Variable call_markers : attr -> result (list string).

(** [list(pd.DataFrame(data)["header"])]; the frame built from
    [None] has no column. *)
Definition header_column (data : option Json.value) : result (list string) :=
  match data with
  | None => Raise (KeyError "header")
  | Some data => frame_column data "header"
  end.

Definition get_configs_difference (self : instance) (content : list string)
  : list event * result (list string) :=
  match get_device_type self with
  | Raise e => ([], Raise e)
  | Return device_type =>
      match get_logpath self with
      | Raise e => ([], Raise e)
      | Return _ =>
          let '(log, data) := parse_configs device_type content in
          (log,
           data ← data;
           errors_configs ← header_column data;
           get_static_error_df ← getattr self "get_static_error_df";
           errors_conf ← call_markers get_static_error_df;
           Return (setdiff1d errors_conf errors_configs))
      end
  end.
End Difference.

(** ** [get_daily_errors] *)

Section DailyErrors.
(** [service.jobs.oneshot(query, count=10000)] read as a list of
    records. *)
Variable oneshot : string -> list (gmap string string).

(** [df[column].to_list()] on the frame of a non-empty list of
    records: a record without the column gives [None] (NaN), and a
    column that no record has is a [KeyError]. *)
Definition records_column (events : list (gmap string string))
    (column : string) : result (list (option string)) :=
  if existsb (fun ev => bool_decide (is_Some (ev !! column))) events
  then Return (map (fun ev => ev !! column) events)
  else Raise (KeyError column).

Definition get_daily_errors (self : instance)
  : result (list (option string)) :=
  query ← get_splunk_daily_percents_query self;
  let splunk_events := oneshot query in
  if 0 <? length splunk_events then records_column splunk_events "marker"
  else Return [].
End DailyErrors.

End Classes.

(* ===================================================================== *)
(** * The normalizer as the specification describes it *)
(* ===================================================================== *)

(** The four steps of the specification's algorithm, written from its
    words, to be compared with [Normalizer.remove_double_quotes]. *)
Module NormalizerSpec.
Import PyStr Normalizer.

(** Step 1: the five sequences and their placeholder tokens, in
    order. *)
Definition placeholders : list (string * string) :=
  [(open_obj, "vikr"); (item_sep, "sandep"); (kv_spaced, "arun");
   (kv_sep, "bindhu"); (close_obj, "gauth")].

(** Step 3: the tokens and what they are replaced back to. *)
Definition restorations : list (string * string) :=
  [("vikr", open_obj); ("sandep", item_sep); ("arun", kv_wide);
   ("bindhu", kv_sep); ("gauth", close_obj)].

Definition replace_each (table : list (string * string)) (s : string)
  : string :=
  fold_left (fun acc p => replace acc (fst p) (snd p)) table s.

(** Step 2: drop every occurrence of a character. *)
Fixpoint strip_char (c : ascii) (s : string) : string :=
  match s with
  | EmptyString => EmptyString
  | String x s' =>
      if Ascii.eqb c x then strip_char c s' else String x (strip_char c s')
  end.

(** Step 4: put one character in the place of another. *)
Fixpoint subst_char (c d : ascii) (s : string) : string :=
  match s with
  | EmptyString => EmptyString
  | String x s' => String (if Ascii.eqb c x then d else x) (subst_char c d s')
  end.

Definition normalize (raw : string) : string :=
  let protected := replace_each placeholders raw in
  let stripped := strip_char dquote protected in
  let restored := replace_each restorations stripped in
  subst_char backslash "#" restored.

End NormalizerSpec.


(* ===================================================================== *)
(** * Payloads made of plain characters and the five sequences *)
(* ===================================================================== *)

(** The texts on which the normalizer is studied: a list of items, each
    a plain character or one of the five punctuation sequences.  [render]
    writes the list with a chosen text for each sequence. *)
Module Payload.
Import PyStr Normalizer.

Inductive punct : Type := POpen | PItem | PSpaced | PKv | PClose.

Inductive item : Type :=
  | Lit (c : ascii)
  | Punct (k : punct).

Definition all_puncts : list punct := [POpen; PItem; PSpaced; PKv; PClose].

Definition punct_eqb (j k : punct) : bool :=
  match j, k with
  | POpen, POpen | PItem, PItem | PSpaced, PSpaced | PKv, PKv
  | PClose, PClose => true
  | _, _ => false
  end.

(** The sequence as the payload has it, its placeholder token, and what
    the token is replaced back to. *)
Definition source_text (k : punct) : string :=
  match k with
  | POpen => open_obj
  | PItem => item_sep
  | PSpaced => kv_spaced
  | PKv => kv_sep
  | PClose => close_obj
  end.

Definition token (k : punct) : string :=
  match k with
  | POpen => "vikr"
  | PItem => "sandep"
  | PSpaced => "arun"
  | PKv => "bindhu"
  | PClose => "gauth"
  end.

Definition restored_text (k : punct) : string :=
  match k with
  | PSpaced => kv_wide
  | _ => source_text k
  end.

Fixpoint render (img : punct -> string) (items : list item) : string :=
  match items with
  | [] => EmptyString
  | Lit c :: rest => String c (render img rest)
  | Punct k :: rest => img k +:+ render img rest
  end.

(** The plain characters at the head of a list. *)
Fixpoint lit_run (items : list item) : string :=
  match items with
  | Lit c :: rest => String c (lit_run rest)
  | _ => EmptyString
  end.

Definition is_prefix (p s : string) : bool :=
  match strip_prefix p s with
  | Some _ => true
  | None => false
  end.

(** A plain character is not a double quote, a backslash, a brace or a
    colon. *)
Definition plain_char (c : ascii) : bool :=
  negb (Ascii.eqb c dquote || Ascii.eqb c backslash || Ascii.eqb c "{"
        || Ascii.eqb c "}" || Ascii.eqb c ":").

(** A plain comma stands only before an opening brace-quote, and no
    placeholder token is spelled by plain characters. *)
Definition item_ok (it : item) (rest : list item) : bool :=
  match it with
  | Punct _ => true
  | Lit c =>
      plain_char c
      && (if Ascii.eqb c "," then
            match rest with
            | Punct POpen :: _ => true
            | _ => false
            end
          else true)
      && forallb (fun k => negb (is_prefix (token k) (lit_run (it :: rest))))
                 all_puncts
  end.

Fixpoint well_formed (items : list item) : bool :=
  match items with
  | [] => true
  | it :: rest => item_ok it rest && well_formed rest
  end.

(** [compat a b]: no character of [a] differs from the character of [b]
    at the same place. *)
Fixpoint compat (a b : string) : bool :=
  match a, b with
  | String x a', String y b' => Ascii.eqb x y && compat a' b'
  | _, _ => true
  end.

(** The non-empty suffixes of a text. *)
Fixpoint suffixes (u : string) : list string :=
  match u with
  | EmptyString => []
  | String _ u' => u :: suffixes u'
  end.

(** [img] with the text of [k] changed to [new]. *)
Definition upd (img : punct -> string) (k : punct) (new : string)
  : punct -> string :=
  fun j => if punct_eqb j k then new else img j.

(** The condition under which replacing a placeholder token in a
    rendering with [img] acts on the items of kind [k] only. *)
Definition decode_ready (img : punct -> string) (k : punct) : bool :=
  String.eqb (img k) (token k)
  && match token k with
     | String _ t =>
         forallb (fun u => forallb (fun j => negb (compat u (img j))) all_puncts)
                 (suffixes t)
     | EmptyString => false
     end
  && forallb (fun j => punct_eqb j k
                       || forallb (fun u => negb (compat (img k) u))
                                  (suffixes (img j)))
             all_puncts.

(** The texts of the sequences after each of the five replacements by
    tokens, and after each of the five replacements back. *)
Definition enc1 := upd source_text POpen "vikr".
Definition enc2 := upd enc1 PItem "sandep".
Definition enc3 := upd enc2 PSpaced "arun".
Definition enc4 := upd enc3 PKv "bindhu".
Definition enc5 := upd enc4 PClose "gauth".
Definition dec1 := upd enc5 POpen open_obj.
Definition dec2 := upd dec1 PItem item_sep.
Definition dec3 := upd dec2 PSpaced kv_wide.
Definition dec4 := upd dec3 PKv kv_sep.
Definition dec5 := upd dec4 PClose close_obj.

Fixpoint has_char (c : ascii) (s : string) : bool :=
  match s with
  | EmptyString => false
  | String x s' => Ascii.eqb c x || has_char c s'
  end.

(** ** Lists of items on which the ten replacements act as meant

    A character of the text that is not part of a sequence is neither a
    double quote nor a backslash, and the characters between two
    sequences spell no placeholder token. *)
Definition lit_ok (c : ascii) : bool :=
  negb (Ascii.eqb c dquote || Ascii.eqb c backslash).

Definition spells_none (items : list item) : bool :=
  forallb (fun k => negb (is_prefix (token k) (lit_run items))) all_puncts.

(** An opening brace right before a sequence that starts with a double
    quote would be taken, with that quote, for the sequence
    brace-quote. *)
Definition brace_ok (items : list item) : bool :=
  match items with
  | Lit c :: Punct j :: _ => negb (Ascii.eqb c "{") || punct_eqb j POpen
  | _ => true
  end.

(** A lone comma between a key/value separator and a sequence that
    starts with a double quote would be taken, with the two quotes around
    it, for the sequence quote-comma-quote, which is replaced before the
    separators. *)
Definition comma_ok (items : list item) : bool :=
  match items with
  | Punct k :: Lit c :: Punct j :: _ =>
      negb ((punct_eqb k PSpaced || punct_eqb k PKv) && Ascii.eqb c ",")
      || punct_eqb j POpen
  | _ => true
  end.

(** Space, colon, space between the separator quote-colon-quote and a
    sequence that still starts with a double quote would be taken for the
    spaced separator, which is replaced before the other one. *)
Definition colon_ok (items : list item) : bool :=
  match items with
  | Punct k :: Lit a :: Lit b :: Lit c :: Punct j :: _ =>
      negb (punct_eqb k PKv && Ascii.eqb a " " && Ascii.eqb b ":"
            && Ascii.eqb c " ")
      || punct_eqb j POpen || punct_eqb j PItem
  | _ => true
  end.

Fixpoint ready (items : list item) : bool :=
  match items with
  | [] => true
  | it :: rest =>
      match it with
      | Lit c => lit_ok c && spells_none items
      | Punct _ => true
      end
      && brace_ok items && comma_ok items && colon_ok items && ready rest
  end.

(** [safe img k items]: in the rendering of [items] with [img], the text
    of [k] starts at the items of kind [k] and nowhere else. *)
Fixpoint safe (img : punct -> string) (k : punct) (items : list item) : Prop :=
  match items with
  | [] => True
  | Lit c :: rest =>
      strip_prefix (img k) (String c (render img rest)) = None
      /\ safe img k rest
  | Punct j :: rest =>
      (j = k \/
       Forall (fun u => strip_prefix (img k) (u +:+ render img rest) = None)
              (suffixes (img j)))
      /\ safe img k rest
  end.

End Payload.


(* ===================================================================== *)
(** * Documents: arrays of flat objects *)
(* ===================================================================== *)

Module Document.
Import PyStr Normalizer Payload.

(** A document is a list of objects, an object a non-empty list of
    entries, an entry a key and a value that are strings, with the
    separator written between them (spaced or not). *)
Record entry : Type := {
  key : string;
  spaced : bool;
  val : string
}.

Definition lits (s : string) : list item :=
  map Lit (String.list_ascii_of_string s).

Definition separator (e : entry) : item :=
  Punct (if spaced e then PSpaced else PKv).

Definition entry_items (e : entry) : list item :=
  lits (key e) ++ separator e :: lits (val e).

Fixpoint entries_items (es : list entry) : list item :=
  match es with
  | [] => []
  | e :: es' =>
      entry_items e
      ++ match es' with
         | [] => []
         | _ :: _ => Punct PItem :: entries_items es'
         end
  end.

Definition object_items (es : list entry) : list item :=
  Punct POpen :: entries_items es ++ [Punct PClose].

Fixpoint objects_items (os : list (list entry)) : list item :=
  match os with
  | [] => []
  | o :: os' =>
      object_items o
      ++ match os' with
         | [] => []
         | _ :: _ => Lit "," :: objects_items os'
         end
  end.

Definition document_items (os : list (list entry)) : list item :=
  Lit "[" :: objects_items os ++ [Lit "]"].

(** The text of a document, and the text with the spaced separators
    widened. *)
Definition print (os : list (list entry)) : string :=
  render source_text (document_items os).

Definition print_wide (os : list (list entry)) : string :=
  render restored_text (document_items os).

(** A character that a JSON string can hold as it is: no double quote,
    no backslash, no control character. *)
Definition text_char (c : ascii) : bool := lit_ok c && (32 <=? nat_of_ascii c).

Definition text_ok (w : string) : bool :=
  forallb text_char (String.list_ascii_of_string w).

Definition entry_text (e : entry) : bool := text_ok (key e) && text_ok (val e).

(** Keys and values: plain characters other than the comma and the
    control characters, spelling no placeholder token. *)
Definition word_char (c : ascii) : bool :=
  plain_char c && negb (Ascii.eqb c ",") && (32 <=? nat_of_ascii c).

Definition word_ok (w : string) : bool :=
  forallb word_char (String.list_ascii_of_string w)
  && forallb (fun k => negb (contains (token k) w)) all_puncts.

Definition entry_ok (e : entry) : bool := word_ok (key e) && word_ok (val e).

Definition object_ok (es : list entry) : bool :=
  match es with
  | [] => false
  | _ :: _ => forallb entry_ok es
  end.

Definition document_ok (os : list (list entry)) : bool := forallb object_ok os.

(** The value a document denotes. *)
Definition object_value (es : list entry) : Json.value :=
  Json.JObj (Json.dict (map (fun e => (key e, Json.JStr (val e))) es)).

Definition document_value (os : list (list entry)) : Json.value :=
  Json.JArr (map object_value os).

(** The pair that an entry adds to the object. *)
Definition pair_of (e : entry) : string * Json.value := (key e, Json.JStr (val e)).

(** The texts a sequence can have when the document is printed. *)
Definition json_img (img : punct -> string) : Prop :=
  img POpen = open_obj /\ img PItem = item_sep /\ img PKv = kv_sep
  /\ img PClose = close_obj
  /\ (img PSpaced = kv_spaced \/ img PSpaced = kv_wide).

Definition starts_punct (items : list item) : Prop :=
  exists j rest, items = Punct j :: rest.

End Document.

(* ===================================================================== *)
(** * JSON texts whose strings stand in flat objects *)
(* ===================================================================== *)

(** The JSON texts on which the normalizer is shown to keep the content:
    a value is a number or a literal name, an empty object, an empty
    array, an array of values, or an object whose keys and values are
    strings and which is written with the five sequences: brace-quote,
    the entries (key, separator, value) joined by quote-comma-quote, and
    quote-brace.  White space can stand around the elements of an array,
    between the braces or brackets of an empty object or array, and
    around the whole text. *)
Module Tree.
Import PyStr Json Normalizer Payload Document.

Inductive tree : Type :=
  | Atom (lexeme : string)
  | Object (es : list entry)
  | EmptyObject (pad : string)
  | EmptyArray (pad : string)
  | Array (elems : forest)
with forest : Type :=
  | One (pre : string) (t : tree) (post : string)
  | More (pre : string) (t : tree) (post : string) (rest : forest).

Fixpoint tree_items (t : tree) : list item :=
  match t with
  | Atom a => lits a
  | Object es => object_items es
  | EmptyObject pad => Lit "{" :: lits pad ++ [Lit "}"]
  | EmptyArray pad => Lit "[" :: lits pad ++ [Lit "]"]
  | Array elems => Lit "[" :: forest_items elems ++ [Lit "]"]
  end
with forest_items (f : forest) : list item :=
  match f with
  | One pre t post => lits pre ++ tree_items t ++ lits post
  | More pre t post rest =>
      lits pre ++ tree_items t ++ lits post ++ Lit "," :: forest_items rest
  end.

(** The text, as it is and with the spaced separators widened. *)
Definition text (pre : string) (t : tree) (post : string) : string :=
  pre +:+ render source_text (tree_items t) +:+ post.

Definition text_wide (pre : string) (t : tree) (post : string) : string :=
  pre +:+ render restored_text (tree_items t) +:+ post.

(** A number or a literal name: a text that the decoder reads, whole,
    as a value that is neither a string, an object nor an array. *)
Definition atom_value (a : string) : option value :=
  match scan_atom a with
  | Some (v, EmptyString) => Some v
  | _ => None
  end.

Definition atom_ok (a : string) : bool :=
  match atom_value a with
  | Some _ => true
  | None => false
  end.

(** The value a text denotes. *)
Fixpoint tree_value (t : tree) : value :=
  match t with
  | Atom a => default JNull (atom_value a)
  | Object es => object_value es
  | EmptyObject _ => JObj []
  | EmptyArray _ => JArr []
  | Array elems => JArr (forest_values elems)
  end
with forest_values (f : forest) : list value :=
  match f with
  | One _ t _ => [tree_value t]
  | More _ t _ rest => tree_value t :: forest_values rest
  end.

(** White space. *)
Definition pad_ok (p : string) : bool :=
  forallb is_ws (String.list_ascii_of_string p).

Definition spells_token (w : string) : bool :=
  existsb (fun k => contains (token k) w) all_puncts.

Fixpoint ends_with (c : ascii) (w : string) : bool :=
  match w with
  | EmptyString => false
  | String x EmptyString => Ascii.eqb x c
  | String _ w' => ends_with c w'
  end.

(** Keys and values hold characters that a JSON string can hold as they
    are and spell no placeholder token.  A key does not end with an
    opening brace; neither does a value that another entry follows.  No
    value is a lone comma, and the last value of an object is not
    space-colon-space after the separator quote-colon-quote. *)
Definition string_ok (w : string) : bool :=
  text_ok w && negb (spells_token w).

Definition key_ok (w : string) : bool :=
  string_ok w && negb (ends_with "{" w).

Definition value_ok (e : entry) (is_last : bool) : bool :=
  string_ok (val e) && (is_last || negb (ends_with "{" (val e)))
  && negb (String.eqb (val e) ",")
  && negb (is_last && negb (spaced e) && String.eqb (val e) " : ").

Fixpoint entries_ok (es : list entry) : bool :=
  match es with
  | [] => false
  | [e] => key_ok (key e) && value_ok e true
  | e :: es' => key_ok (key e) && value_ok e false && entries_ok es'
  end.

Fixpoint tree_ok (t : tree) : bool :=
  match t with
  | Atom a => atom_ok a
  | Object es => entries_ok es
  | EmptyObject pad => pad_ok pad
  | EmptyArray pad => pad_ok pad
  | Array elems => forest_ok elems
  end
with forest_ok (f : forest) : bool :=
  match f with
  | One pre t post => pad_ok pre && tree_ok t && pad_ok post
  | More pre t post rest =>
      pad_ok pre && tree_ok t && pad_ok post && forest_ok rest
  end.

Definition written_ok (pre : string) (t : tree) (post : string) : bool :=
  pad_ok pre && tree_ok t && pad_ok post.

(** ** The sequences as the normalizer finds them

    [before_brace v] is the text before the opening brace that [v] ends
    with. *)
Fixpoint before_brace (v : string) : option string :=
  match v with
  | EmptyString => None
  | String c EmptyString => if Ascii.eqb c "{" then Some EmptyString else None
  | String c v' =>
      match before_brace v' with
      | Some w => Some (String c w)
      | None => None
      end
  end.

(** The last value of an object with the sequence that closes the
    object.  When the value ends with an opening brace, this brace and
    the double quote after it are the sequence brace-quote, which the
    normalizer replaces first, and the closing brace is left alone. *)
Definition close_value (v : string) : list item :=
  match before_brace v with
  | Some w => lits w ++ [Punct POpen; Lit "}"]
  | None => lits v ++ [Punct PClose]
  end.

Fixpoint entries_settled (es : list entry) : list item :=
  match es with
  | [] => [Punct PClose]
  | [e] => lits (key e) ++ separator e :: close_value (val e)
  | e :: es' => entry_items e ++ Punct PItem :: entries_settled es'
  end.

Fixpoint tree_settled (t : tree) : list item :=
  match t with
  | Atom a => lits a
  | Object es => Punct POpen :: entries_settled es
  | EmptyObject pad => Lit "{" :: lits pad ++ [Lit "}"]
  | EmptyArray pad => Lit "[" :: lits pad ++ [Lit "]"]
  | Array elems => Lit "[" :: forest_settled elems ++ [Lit "]"]
  end
with forest_settled (f : forest) : list item :=
  match f with
  | One pre t post => lits pre ++ tree_settled t ++ lits post
  | More pre t post rest =>
      lits pre ++ tree_settled t ++ lits post ++ Lit "," :: forest_settled rest
  end.

(** ** Characters

    What can follow a value in an array or at the end of a text. *)
Definition delimited (s : string) : bool :=
  match s with
  | EmptyString => true
  | String c _ => is_ws c || Ascii.eqb c "," || Ascii.eqb c "]"
  end.

Definition is_letter (c : ascii) : bool :=
  let n := nat_of_ascii c in
  ((65 <=? n) && (n <=? 90)) || ((97 <=? n) && (n <=? 122)).

(** The characters of the literal names and of the numbers. *)
Definition atom_char (c : ascii) : bool :=
  is_letter c || is_digit c || Ascii.eqb c "-" || Ascii.eqb c "+"
  || Ascii.eqb c ".".

Definition num_char (c : ascii) : bool :=
  is_digit c || Ascii.eqb c "-" || Ascii.eqb c "+" || Ascii.eqb c "."
  || Ascii.eqb c "e" || Ascii.eqb c "E".

Definition all_chars (P : ascii -> bool) (s : string) : bool :=
  forallb P (String.list_ascii_of_string s).

(** The first letters of the placeholder tokens. *)
Definition tok_head (c : ascii) : bool :=
  existsb (fun k => match token k with
                    | String h _ => Ascii.eqb h c
                    | EmptyString => false
                    end) all_puncts.

(** The outcome of a scan of [a] when [rest] is written after [a]. *)
Definition extend (rest : string) (x : option (string * string))
  : option (string * string) :=
  match x with
  | Some (d, r) => Some (d, r +:+ rest)
  | None => None
  end.

Definition extend_value (rest : string) (x : option (value * string))
  : option (value * string) :=
  match x with
  | Some (v, r) => Some (v, r +:+ rest)
  | None => None
  end.

End Tree.


(* ===================================================================== *)
(** * Sample data *)
(* ===================================================================== *)

(** Tables of the shape [static.static] has, a device of each kind, and
    a few files, used to run the methods above. *)
Module Sample.
Import PyStr Classes.

Definition conf (device_type : string) : device_conf :=
  {| splunk_query_macs := "search index=rdk-json " +:+ device_type +:+ " | head 35";
     splunk_query_daily_percentages :=
       "search index=rdk-json " +:+ device_type +:+ " | stats count by marker";
     logpath := "dcmscript.log";
     command := "Device.DeviceInfo.X_COMCAST-COM_WAN_IPv6" |}.

Definition rdk_b : product_conf :=
  {| devices := list_to_map
       [("XB3", conf "XB3"); ("XB6", conf "XB6"); ("XF3", conf "XF3")] |}.

Definition rdk_v : product_conf :=
  {| devices := list_to_map [("XI5", conf "XI5"); ("XG", conf "XG")] |}.

Definition tables : static :=
  {| device_types := list_to_map
       [("XB3", "RDK-B"); ("XB6", "RDK-B"); ("XF3", "RDK-B");
        ("XI5", "RDK-V"); ("XG", "RDK-V")];
     device_dict := list_to_map [("RDK-B", rdk_b); ("RDK-V", rdk_v)] |}.

Definition xb3 : instance := device_attrs "XB3" "RDK-B" rdk_b (conf "XB3").
Definition xi5 : instance := device_attrs "XI5" "RDK-V" rdk_v (conf "XI5").

(** A directory in which only [macB] answers. *)
Definition only_macB (mac : string) : bool := String.eqb mac "macB".
Definition ip_of (mac device_type : string) : string :=
  "2001:db8::" +:+ mac.

(** A backend with no record for any query. *)
Definition no_records (query : string) : list (gmap string string) := [].

(** A frame reader and a marker reader that return no row; the runs
    below never reach them. *)
Definition no_rows (data : Json.value) (column : string)
  : result (list string) := Return [].
Definition no_markers (a : attr) : result (list string) := Return [].

Definition quoted (s : string) : string := Q +:+ s +:+ Q.
Definition newline : string := String "010" EmptyString.

(** A line of the file that assigns the profile [payload], followed by
    the schedule field. *)
Definition profile_line (payload : string) : string :=
  "{" +:+ quoted "urn:settings:TelemetryProfile" +:+ ":{" +:+ Q
  +:+ key_marker +:+ payload +:+ trailing_marker +:+ "daily" +:+ Q +:+ "}}"
  +:+ newline.

(** A line that names the profile without assigning it. *)
Definition bare_line : string :=
  "# urn:settings:TelemetryProfile" +:+ newline.

(** The fragment of the specification's example, before and after the
    substitution for [XB3]. *)
Definition header_fragment : string :=
  "{" +:+ quoted "header" +:+ ":" +:+ quoted "X1_SYSTEM_ERROR" +:+ ","
  +:+ quoted "cid" +:+ ":" +:+ quoted "0" +:+ "}".
Definition header_fragment_cid : string :=
  "{" +:+ quoted "header" +:+ ":" +:+ quoted "X1_SYSTEM_ERROR" +:+ ",cid:0}".

(** An object with a number for value: valid JSON without backslash or
    placeholder token. *)
Definition number_object : string := "{" +:+ quoted "a" +:+ ":1}".

(** A document with two markers; the first object uses the spaced
    separator. *)
Definition two_markers : list (list Document.entry) :=
  [[{| Document.key := "header"; Document.spaced := true;
       Document.val := "X1_SYSTEM_ERROR" |};
    {| Document.key := "type"; Document.spaced := false;
       Document.val := "<message_bus>" |}];
   [{| Document.key := "header"; Document.spaced := false;
       Document.val := "SYS_ERROR_KernelPanic_reboot" |}]].

(** A profile with one marker. *)
Definition one_marker : string :=
  "[{" +:+ quoted "header" +:+ ":" +:+ quoted "SYS_ERROR_KernelPanic_reboot"
  +:+ "}]".



(** A frame reader for arrays of flat objects: the column of the rows,
    when there is a row and every row holds a string under the column. *)
Fixpoint cell (column : string) (pairs : list (string * Json.value))
  : option string :=
  match pairs with
  | [] => None
  | (k, v) :: pairs' =>
      if String.eqb k column then
        match v with
        | Json.JStr s => Some s
        | _ => None
        end
      else cell column pairs'
  end.


(** A text with white space, a value that holds punctuation, a last
    value that ends with an opening brace, a number, and an empty object
    in an array. *)
Definition profile_tree : Tree.tree :=
  Tree.Array
    (Tree.More " "
       (Tree.Object
          [{| Document.key := "header"; Document.spaced := true;
              Document.val := "X1_SYSTEM_ERROR, v:2 {x}" |};
           {| Document.key := "cid"; Document.spaced := false;
              Document.val := "0{" |}])
       EmptyString
       (Tree.More " " (Tree.Atom "-12.5e3") " "
          (Tree.One EmptyString
             (Tree.Array (Tree.One EmptyString (Tree.EmptyObject " ")
                            EmptyString))
             EmptyString))).

(** The fragment of the specification's example as such a text, and an
    array whose object holds a value with a comma, a colon, a space and
    braces. *)
Definition fragment_tree : Tree.tree :=
  Tree.Object
    [{| Document.key := "header"; Document.spaced := false;
        Document.val := "X1_SYSTEM_ERROR" |};
     {| Document.key := "cid"; Document.spaced := false;
        Document.val := "0" |}].

Definition punctuation_tree : Tree.tree :=
  Tree.Array
    (Tree.One EmptyString
       (Tree.Object
          [{| Document.key := "a"; Document.spaced := false;
              Document.val := "x,y:z {w}" |}])
       EmptyString).


End Sample.


(* ===================================================================== *)
(** * Text files *)
(* ===================================================================== *)

(** [str.join], [str.splitlines] and the reading of a file opened in
    text mode, on a POSIX system with UTF-8 as the encoding. *)
Module TextIO.
Import PyStr.

(** [sep.join(l)] on a list of strings. *)
Fixpoint join (sep : string) (l : list string) : string :=
  match l with
  | [] => EmptyString
  | [x] => x
  | x :: l' => x +:+ sep +:+ join sep l'
  end.

Definition LF : ascii := "010"%char.
Definition CR : ascii := "013"%char.

(** The line boundaries of [splitlines]: line feed, carriage return
    (with the line feed that follows it), vertical tab, form feed, the
    file, group and record separators, and NEL, LINE SEPARATOR and
    PARAGRAPH SEPARATOR in their UTF-8 form.  [line_break s] is the text
    after the boundary that [s] starts with. *)
Definition line_break (s : string) : option string :=
  match s with
  | EmptyString => None
  | String c r =>
      if Ascii.eqb c CR then
        match r with
        | String d r' => if Ascii.eqb d LF then Some r' else Some r
        | EmptyString => Some r
        end
      else if Ascii.eqb c LF || Ascii.eqb c "011" || Ascii.eqb c "012"
              || Ascii.eqb c "028" || Ascii.eqb c "029" || Ascii.eqb c "030"
      then Some r
      else if Ascii.eqb c "194" then
        match r with
        | String d r' => if Ascii.eqb d "133" then Some r' else None
        | EmptyString => None
        end
      else if Ascii.eqb c "226" then
        match r with
        | String d (String e r') =>
            if Ascii.eqb d "128" && (Ascii.eqb e "168" || Ascii.eqb e "169")
            then Some r' else None
        | _ => None
        end
      else None
  end.

(** [s.splitlines()]: the lines without their boundaries; a boundary at
    the very end opens no further line. *)
Fixpoint splitlines_from (fuel : nat) (s : string) : list string :=
  match fuel with
  | 0 => []
  | S fuel' =>
      match line_break s with
      | Some rest => EmptyString :: splitlines_from fuel' rest
      | None =>
          match s with
          | EmptyString => []
          | String c s' =>
              match splitlines_from fuel' s' with
              | line :: lines => String c line :: lines
              | [] => [String c EmptyString]
              end
          end
      end
  end.

Definition splitlines (s : string) : list string :=
  splitlines_from (S (String.length s)) s.

(** What [read()] gives on a file opened with [open(path, "r")]: a
    carriage return, with the line feed that follows it if there is one,
    is read as a line feed. *)
Fixpoint universal_newlines (s : string) : string :=
  match s with
  | EmptyString => EmptyString
  | String c s' =>
      if Ascii.eqb c CR then
        String LF
          match s' with
          | String d s'' =>
              if Ascii.eqb d LF then universal_newlines s''
              else universal_newlines s'
          | EmptyString => universal_newlines s'
          end
      else String c (universal_newlines s')
  end.

(** A text that holds no line boundary: none starts at any of its
    characters. *)
Fixpoint unbroken (w : string) : bool :=
  match line_break w with
  | Some _ => false
  | None =>
      match w with
      | EmptyString => true
      | String _ w' => unbroken w'
      end
  end.

(** What [splitlines] gives on lines joined by line feeds: an empty
    last line is lost. *)
Definition lines_kept (lines : list string) : list string :=
  match last lines with
  | Some EmptyString => removelast lines
  | _ => lines
  end.

End TextIO.

(* ===================================================================== *)
(** * The other methods of [Product] and [Device] *)
(* ===================================================================== *)

Module Fleet.
Import PyStr Numpy Classes TextIO.

(** The getters of [Product] that return an attribute as it is. *)
Definition get_email_sender (self : instance) : result attr :=
  getattr self (mangle "Product" "__email_sender").

Definition get_email_subject (self : instance) : result attr :=
  getattr self (mangle "Product" "__email_subject").

Definition get_recipient_list (self : instance) : result attr :=
  getattr self (mangle "Product" "__recipient_list").

(** The exceptions of the methods below: those of [exn], the
    [TypeError] of [join] on a list that holds [False], and the
    [FileNotFoundError] of [open]. *)
Inductive io_exn : Type :=
  | Exn (e : exn)
  | TypeError
  | FileNotFoundError (path : string).

Inductive io (A : Type) : Type :=
  | Done (a : A)
  | Failed (e : io_exn).
Arguments Done {A} a.
Arguments Failed {A} e.

Definition lift {A} (r : result A) : io A :=
  match r with
  | Return a => Done a
  | Raise e => Failed (Exn e)
  end.

#[global] Instance io_bind : MBind io := fun A B k r =>
  match r with
  | Done a => k a
  | Failed e => Failed e
  end.

(** The files, by path. *)
Abbreviation files := (gmap string string).

(** [self.__local_macs_path.format(self.get_device_type())]: the class
    attribute with the device type in the place of its braces. *)
Definition local_macs_path (self : instance) : result string :=
  _ ← getattr self (mangle "Device" "__local_macs_path");
  device_type ← get_device_type self;
  Return ("/home/mhealy066/scripts/TelemetryProject/static/device_addresses/"
          +:+ device_type +:+ ".txt").

(** The first two statements of [find_online_device]: the lines of the
    file of addresses. *)
Definition read_macs (fs : files) (self : instance) : io (list string) :=
  path ← lift (local_macs_path self);
  match fs !! path with
  | None => Failed (FileNotFoundError path)
  | Some content => Done (splitlines (universal_newlines content))
  end.

(** The value [find_online_device] returns for a candidate that is
    online, by device type ([None] when no branch returns). *)
Definition found_value (ip_from_mac : string -> string -> string)
    (device_type mac : string) : option string :=
  if String.eqb device_type "XI5" then Some mac
  else if in_list device_type ["XB3"; "XB6"; "XF3"; "XG"]
  then Some (ip_from_mac mac device_type)
  else None.

(** A line of the file that [parse_configs] leaves behind without a
    result: it lacks the sentinel, or its payload does not decode. *)
Abbreviation skipped device_type :=
  (fun line =>
     contains sentinel line = false \/
     exists payload, payload_of line = Return payload /\
       Json.loads (parse_data_of device_type payload) = None).

Section Macs.
(** [service.jobs.oneshot(query, count=10000)] read as a list of
    records. *)
Variable oneshot : string -> list (gmap string string).
(** [web_pa.ecm_to_estb] on a cell of the [mac] column ([None] for a
    missing cell); it returns a string, or [False], here [None]. *)
Variable ecm_to_estb : option string -> option string.

(** [get_macs]: the [mac] column of the frame of the records.  The frame
    of an empty list has no column. *)
Definition get_macs (self : instance) : result (list (option string)) :=
  query ← get_splunk_macs_query self;
  let splunk_events := oneshot query in
  records_column splunk_events "mac".

(** [sep.join(l)] on a list that can hold [False]. *)
Definition join_checked (sep : string) (l : list (option string))
  : io string :=
  match mapM id l with
  | Some strs => Done (join sep strs)
  | None => Failed TypeError
  end.

(** [write_macs_to_local_file]: the files after the call. *)
Definition write_macs_to_local_file (fs : files) (self : instance)
  : io files :=
  macs ← lift (get_macs self);
  let macs := map ecm_to_estb macs in
  macs_string ← join_checked (String LF EmptyString) macs;
  path ← lift (local_macs_path self);
  Done (<[path := macs_string]> fs).
End Macs.

End Fleet.

(* ===================================================================== *)
(** * [scripts/kernal_panic_pre.py] *)
(* ===================================================================== *)

Module KernelPanic.
Import PyStr Classes TextIO.

(** The order of [sorted]: the first string is not after the second. *)
Definition str_le (x y : string) : Prop := String.compare x y <> Gt.

(** [sorted] on a list of strings. *)
Fixpoint insert_sorted (x : string) (l : list string) : list string :=
  match l with
  | [] => [x]
  | y :: l' =>
      match String.compare x y with
      | Gt => y :: insert_sorted x l'
      | _ => x :: l
      end
  end.

Definition sorted (l : list string) : list string := foldr insert_sorted [] l.

(** [[elem['mac'] for elem in dict_list]]. *)
Fixpoint mac_fields (dict_list : list (gmap string string))
  : result (list string) :=
  match dict_list with
  | [] => Return []
  | elem :: rest =>
      mac ← subscript elem "mac";
      macs ← mac_fields rest;
      Return (mac :: macs)
  end.

Section Script.
(** [web_pa.ecm_to_estb]: a string, or [False], here [None]. *)
Variable ecm_to_estb : string -> option string.

(** The list that [write_to_file] joins: the conversions that are not
    [False], sorted. *)
Definition estb_lines (macs : list string) : list string :=
  let estb_macs := map ecm_to_estb macs in
  sorted (omap id estb_macs).

(** [write_to_file]: the text written to [estb_macs.txt]. *)
Definition write_to_file (dict_list : list (gmap string string))
  : result string :=
  macs ← mac_fields dict_list;
  Return (join (String LF EmptyString) (estb_lines macs)).
End Script.

End KernelPanic.

(* ===================================================================== *)
(** * More sample data *)
(* ===================================================================== *)

Module Sample2.
Import PyStr Classes.

(** A backend with two records for every query. *)
Definition record (mac : string) : gmap string string :=
  {[ "mac" := mac; "count" := "3" ]}.

Definition two_records (query : string) : list (gmap string string) :=
  [record "14:CF:E2:00:00:0A"; record "14:CF:E2:00:00:1B"].

(** A backend whose second record has no [mac] field. *)
Definition one_incomplete (query : string) : list (gmap string string) :=
  [record "14:CF:E2:00:00:0A"; {[ "count" := "1" ]}].

(** A conversion that changes the last digit, and fails on a missing
    cell. *)
Definition to_estb (cell : option string) : option string :=
  match cell with
  | Some mac => Some (String.substring 0 16 mac +:+ "C")
  | None => None
  end.

(** A conversion that fails on every address ending in [B]. *)
Definition to_estb_str (mac : string) : option string :=
  if String.eqb (String.substring 16 1 mac) "B" then None
  else Some (String.substring 0 16 mac +:+ "C").

(** Tables with a device type outside the five. *)
Definition tables_xb7 : static :=
  {| device_types := {[ "XB7" := "RDK-B" ]};
     device_dict :=
       {[ "RDK-B" := {| devices := {[ "XB7" := Sample.conf "XB7" ]} |} ]} |}.

Definition xb7 : instance :=
  device_attrs "XB7" "RDK-B"
    {| devices := {[ "XB7" := Sample.conf "XB7" ]} |} (Sample.conf "XB7").

(** A document written without the spaced separator. *)
Definition compact_markers : list (list Document.entry) :=
  [[{| Document.key := "header"; Document.spaced := false;
       Document.val := "X1_SYSTEM_ERROR" |};
    {| Document.key := "type"; Document.spaced := false;
       Document.val := "<message_bus>" |}]].

End Sample2.

(* ===================================================================== *)
(** * Properties of the string methods *)
(* ===================================================================== *)

Section PyStrFacts.
Import PyStr.

Lemma append_nil_l (s : string) : EmptyString +:+ s = s.
Proof. reflexivity. Qed.

Lemma append_cons (c : ascii) (s t : string) :
  String c s +:+ t = String c (s +:+ t).
Proof. reflexivity. Qed.

Lemma append_nil_r (s : string) : s +:+ EmptyString = s.
Proof. induction s as [|c s IH]; [reflexivity|]. rewrite append_cons, IH. reflexivity. Qed.

Lemma append_assoc (s t u : string) : (s +:+ t) +:+ u = s +:+ (t +:+ u).
Proof.
  induction s as [|c s IH]; [reflexivity|].
  rewrite !append_cons, IH. reflexivity.
Qed.

Lemma append_length (s t : string) :
  String.length (s +:+ t) = String.length s + String.length t.
Proof.
  induction s as [|c s IH]; [reflexivity|].
  rewrite append_cons. simpl. rewrite IH. reflexivity.
Qed.

Lemma strip_prefix_Some p s r :
  strip_prefix p s = Some r -> s = p +:+ r.
Proof.
  revert s; induction p as [|a p IH]; intros s H; simpl in H.
  - rewrite append_nil_l. congruence.
  - destruct s as [|c s]; [discriminate|].
    destruct (Ascii.eqb_spec a c) as [->|]; [|discriminate].
    rewrite append_cons. f_equal; auto.
Qed.

Lemma strip_prefix_app p r : strip_prefix p (p +:+ r) = Some r.
Proof.
  induction p as [|a p IH]; [reflexivity|].
  rewrite append_cons. simpl. rewrite Ascii.eqb_refl. exact IH.
Qed.

Lemma strip_prefix_length p s r :
  strip_prefix p s = Some r -> String.length s = String.length p + String.length r.
Proof.
  intros H. apply strip_prefix_Some in H. subst s. apply append_length.
Qed.

(** More fuel than characters changes nothing. *)
Lemma replace_from_fuel a old new f1 f2 s :
  String.length s < f1 -> String.length s < f2 ->
  replace_from f1 (String a old) new s = replace_from f2 (String a old) new s.
Proof.
  revert f2 s; induction f1 as [|f1 IH]; intros f2 s H1 H2; [lia|].
  destruct f2 as [|f2]; [lia|].
  cbn [replace_from].
  destruct (strip_prefix (String a old) s) as [rest|] eqn:E.
  - apply strip_prefix_length in E. simpl in E.
    f_equal. apply IH; lia.
  - destruct s as [|c s]; [reflexivity|]. simpl in H1, H2.
    f_equal. apply IH; lia.
Qed.

(** The equation of [replace] for a non-empty pattern. *)
Lemma replace_eq s a old new :
  replace s (String a old) new =
  match strip_prefix (String a old) s with
  | Some rest => new +:+ replace rest (String a old) new
  | None =>
      match s with
      | EmptyString => EmptyString
      | String c s' => String c (replace s' (String a old) new)
      end
  end.
Proof.
  unfold replace.
  change (replace_from (S (String.length s)) (String a old) new s)
    with (match strip_prefix (String a old) s with
          | Some rest =>
              new +:+ replace_from (String.length s) (String a old) new rest
          | None =>
              match s with
              | EmptyString => EmptyString
              | String c s' =>
                  String c (replace_from (String.length s) (String a old) new s')
              end
          end).
  destruct (strip_prefix (String a old) s) as [rest|] eqn:E.
  - apply strip_prefix_length in E. simpl in E.
    f_equal. apply replace_from_fuel; lia.
  - destruct s as [|c s]; reflexivity.
Qed.

Lemma split_from_fuel a sep f1 f2 s :
  String.length s < f1 -> String.length s < f2 ->
  split_from f1 (String a sep) s = split_from f2 (String a sep) s.
Proof.
  revert f2 s; induction f1 as [|f1 IH]; intros f2 s H1 H2; [lia|].
  destruct f2 as [|f2]; [lia|].
  cbn [split_from].
  destruct (strip_prefix (String a sep) s) as [rest|] eqn:E.
  - apply strip_prefix_length in E. simpl in E.
    f_equal. apply IH; lia.
  - destruct s as [|c s]; [reflexivity|]. simpl in H1, H2.
    rewrite (IH f2 s) by lia. reflexivity.
Qed.

Lemma contains_false_cons sub c s :
  contains sub (String c s) = false -> contains sub s = false.
Proof.
  simpl. destruct (strip_prefix sub (String c s)); [discriminate|auto].
Qed.

End PyStrFacts.

(* ===================================================================== *)
(** * The decoder terminates *)
(* ===================================================================== *)

Section JsonFacts.
Import PyStr Json.
Local Abbreviation len := String.length.

Lemma skip_ws_length s : len (skip_ws s) <= len s.
Proof.
  induction s as [|c s IH]; simpl; [lia|].
  destruct (is_ws c); simpl; lia.
Qed.

Lemma skip_ws_String s c r : skip_ws s = String c r -> len r < len s.
Proof.
  intros H. pose proof (skip_ws_length s) as L. rewrite H in L.
  simpl in L. lia.
Qed.

Lemma emit_Some bytes x k r :
  emit bytes x = Some (k, r) -> exists k', x = Some (k', r).
Proof.
  destruct x as [[k' r']|]; simpl; [|done]. intros [= _ <-]. by exists k'.
Qed.

Lemma scanstring_in_length st pend s k r :
  scanstring_in st pend s = Some (k, r) -> len r < len s.
Proof.
  revert st pend k; induction s as [|c s IH]; intros st pend k H; [done|].
  simpl in H. simpl.
  assert (forall st' pend' k',
             scanstring_in st' pend' s = Some (k', r) -> len r < S (len s))
    as IH' by (intros ??? E; apply IH in E; lia).
  repeat case_match; simplify_eq; try done; try lia;
    try (apply emit_Some in H as [? H]); eauto.
Qed.

Lemma scanstring_length s k r : scanstring s = Some (k, r) -> len r < len s.
Proof. apply scanstring_in_length. Qed.

Lemma take_digits_length s d r : take_digits s = (d, r) -> len r <= len s.
Proof.
  revert d r; induction s as [|c s IH]; intros d r H; simpl in H.
  - simplify_eq. done.
  - destruct (is_digit c); [|simplify_eq; done].
    destruct (take_digits s) as [d' r'] eqn:E. simplify_eq.
    specialize (IH _ _ eq_refl). simpl. lia.
Qed.

Lemma match_digits1_length s d r : match_digits1 s = Some (d, r) -> len r <= len s.
Proof.
  unfold match_digits1. destruct (take_digits s) as [d' r'] eqn:E.
  apply take_digits_length in E. destruct d'; intros; simplify_eq. done.
Qed.

Lemma match_unsigned_length s d r :
  match_unsigned s = Some (d, r) -> len r < len s.
Proof.
  unfold match_unsigned. destruct s as [|c s]; [done|].
  destruct (Ascii.eqb c "0"); [intros; simplify_eq; simpl; lia|].
  destruct (is_digit c); [|done].
  destruct (take_digits s) as [d' r'] eqn:E. apply take_digits_length in E.
  intros; simplify_eq. simpl. lia.
Qed.

Lemma match_integer_length s d r :
  match_integer s = Some (d, r) -> len r < len s.
Proof.
  unfold match_integer. destruct s as [|c s]; [done|].
  destruct (Ascii.eqb c "-").
  - destruct (match_unsigned s) as [[d' r']|] eqn:E; [|done].
    apply match_unsigned_length in E. intros; simplify_eq. simpl. lia.
  - apply match_unsigned_length.
Qed.

Lemma match_frac_length s f r : match_frac s = (f, r) -> len r <= len s.
Proof.
  unfold match_frac. destruct s as [|c s]; [intros; simplify_eq; done|].
  destruct (Ascii.eqb c "."); [|intros; simplify_eq; done].
  destruct (match_digits1 s) as [[d r']|] eqn:E; [|intros; simplify_eq; done].
  apply match_digits1_length in E. intros; simplify_eq. simpl. lia.
Qed.

Lemma match_exp_length s e r : match_exp s = (e, r) -> len r <= len s.
Proof.
  unfold match_exp. destruct s as [|c s]; [intros; simplify_eq; done|].
  destruct (Ascii.eqb c "e" || Ascii.eqb c "E"); [|intros; simplify_eq; done].
  destruct s as [|c1 s1].
  - simpl. intros; simplify_eq. done.
  - destruct (Ascii.eqb c1 "-" || Ascii.eqb c1 "+").
    + destruct (match_digits1 s1) as [[d r']|] eqn:E;
        [|intros; simplify_eq; done].
      apply match_digits1_length in E. intros; simplify_eq. simpl. lia.
    + destruct (match_digits1 (String c1 s1)) as [[d r']|] eqn:E;
        [|intros; simplify_eq; done].
      apply match_digits1_length in E. intros; simplify_eq. simpl in *. lia.
Qed.

Lemma match_number_length s v r :
  match_number s = Some (v, r) -> len r < len s.
Proof.
  unfold match_number.
  destruct (match_integer s) as [[i r0]|] eqn:Ei; [|done].
  destruct (match_frac r0) as [f r1] eqn:Ef.
  destruct (match_exp r1) as [e r2] eqn:Ee.
  apply match_integer_length in Ei. apply match_frac_length in Ef.
  apply match_exp_length in Ee.
  destruct f, e; intros; simplify_eq; lia.
Qed.

Lemma keyword_length kw v s x r :
  kw <> EmptyString -> keyword kw v s = Some (x, r) -> len r < len s.
Proof.
  intros Hkw. unfold keyword.
  destruct (strip_prefix kw s) as [r'|] eqn:E; [|done].
  apply strip_prefix_length in E. intros; simplify_eq.
  destruct kw; [done|]. simpl in E. lia.
Qed.

Lemma scan_atom_length s v r : scan_atom s = Some (v, r) -> len r < len s.
Proof.
  unfold scan_atom. intros H.
  repeat case_match; simplify_eq;
    solve [ eapply keyword_length; [|eassumption]; done
          | eapply match_number_length; eassumption ].
Qed.

Ltac length_facts IHs IHm IHi :=
  repeat match goal with
    | H : scanstring _ = Some _ |- _ => apply scanstring_length in H
    | H : skip_ws _ = String _ _ |- _ => apply skip_ws_String in H
    | H : scan_atom _ = Some _ |- _ => apply scan_atom_length in H
    | H : scan_once _ _ = Ok _ |- _ => apply IHs in H
    | H : members _ _ _ = Ok _ |- _ => apply IHm in H
    | H : items _ _ _ = Ok _ |- _ => apply IHi in H
    end;
  repeat match goal with
    | H : context [len (skip_ws ?x)] |- _ =>
        lazymatch goal with
        | _ : len (skip_ws x) <= len x |- _ => fail
        | _ => pose proof (skip_ws_length x)
        end
    | |- context [len (skip_ws ?x)] =>
        lazymatch goal with
        | _ : len (skip_ws x) <= len x |- _ => fail
        | _ => pose proof (skip_ws_length x)
        end
    end.

(** A scan leaves less text than it was given. *)
Lemma scan_length fuel :
  (forall s v r, scan_once fuel s = Ok (v, r) -> len r < len s)
  /\ (forall acc s v r, members fuel acc s = Ok (v, r) -> len r < len s)
  /\ (forall acc s v r, items fuel acc s = Ok (v, r) -> len r < len s).
Proof.
  induction fuel as [|fuel (IHs & IHm & IHi)]; [by repeat split|].
  repeat split.
  - intros s v r H. cbn [scan_once] in H.
    repeat case_match; simplify_eq; length_facts IHs IHm IHi;
      simpl in *; lia.
  - intros acc s v r H. cbn [members] in H.
    repeat case_match; simplify_eq; length_facts IHs IHm IHi;
      simpl in *; lia.
  - intros acc s v r H. cbn [items] in H.
    repeat case_match; simplify_eq; length_facts IHs IHm IHi;
      simpl in *; lia.
Qed.

(** Twice the length of the text is enough fuel. *)
Lemma scan_fuel fuel :
  (forall s, 2 * len s + 1 <= fuel -> scan_once fuel s <> OutOfFuel)
  /\ (forall acc s, 2 * len s + 2 <= fuel -> members fuel acc s <> OutOfFuel)
  /\ (forall acc s, 2 * len s + 2 <= fuel -> items fuel acc s <> OutOfFuel).
Proof.
  induction fuel as [|fuel (IHs & IHm & IHi)];
    [repeat split; intros; lia|].
  destruct (scan_length fuel) as (Ls & Lm & Li).
  repeat split.
  - intros s Hf. cbn [scan_once].
    repeat case_match; simplify_eq; try done.
    + apply IHm. length_facts Ls Lm Li. simpl in *. lia.
    + apply IHi. length_facts Ls Lm Li. simpl in *. lia.
  - intros acc s Hf. cbn [members].
    repeat case_match; simplify_eq; try done.
    + apply IHm. length_facts Ls Lm Li. simpl in *. lia.
    + match goal with H : scan_once _ ?x = OutOfFuel |- _ =>
        apply (IHs x) in H; [done|] end.
      length_facts Ls Lm Li. simpl in *. lia.
  - intros acc s Hf. cbn [items].
    repeat case_match; simplify_eq; try done.
    + apply IHi. length_facts Ls Lm Li. simpl in *. lia.
    + match goal with H : scan_once _ ?x = OutOfFuel |- _ =>
        apply (IHs x) in H; [done|] end.
      lia.
Qed.

(** [loads] never runs out of fuel: [None] is a decoding error. *)
Lemma loads_fuel s : decode (2 * len s + 1) s <> OutOfFuel.
Proof.
  unfold decode.
  destruct (scan_once (2 * len s + 1) (skip_ws s)) as [[v r]| |] eqn:E;
    [by repeat case_match | done |].
  apply (proj1 (scan_fuel _)) in E; [done|].
  pose proof (skip_ws_length s). lia.
Qed.

(** With more fuel a scan that ended gives the same outcome. *)
Lemma scan_mono f :
  forall f', f <= f' ->
  (forall s, scan_once f s <> OutOfFuel -> scan_once f' s = scan_once f s)
  /\ (forall acc s, members f acc s <> OutOfFuel ->
                    members f' acc s = members f acc s)
  /\ (forall acc s, items f acc s <> OutOfFuel ->
                    items f' acc s = items f acc s).
Proof.
  induction f as [|f IH]; intros f' Hle; [by repeat split|].
  destruct f' as [|f']; [lia|].
  destruct (IH f' ltac:(lia)) as (IHs & IHm & IHi).
  repeat split.
  - intros s H. cbn [scan_once] in *.
    repeat case_match; simplify_eq; try done; auto.
  - intros acc s H. cbn [members] in *.
    destruct (scanstring s) as [[key r1]|]; [|done].
    destruct (skip_ws r1) as [|c2 r2]; [done|].
    destruct (Ascii.eqb c2 ":"); [|done].
    destruct (scan_once f (skip_ws r2)) as [[v r3]| |] eqn:E; [| |done].
    + rewrite IHs, E by (by rewrite E).
      repeat case_match; simplify_eq; try done; auto.
    + rewrite IHs, E by (by rewrite E). done.
  - intros acc s H. cbn [items] in *.
    destruct (scan_once f s) as [[v r1]| |] eqn:E; [| |done].
    + rewrite IHs, E by (by rewrite E).
      repeat case_match; simplify_eq; try done; auto.
    + rewrite IHs, E by (by rewrite E). done.
Qed.

(** A value scanned with some fuel is what [loads] returns. *)
Lemma loads_scan f s v :
  scan_once f s = Ok (v, EmptyString) -> skip_ws s = s -> loads s = Some v.
Proof.
  intros Hscan Hws. unfold loads, decode. rewrite Hws.
  set (F := 2 * String.length s + 1).
  assert (scan_once F s = Ok (v, EmptyString)) as ->; [|done].
  destruct (Nat.le_ge_cases f F) as [Hle|Hge].
  - rewrite (proj1 (scan_mono f F Hle)); [done|]. by rewrite Hscan.
  - rewrite <- Hscan. symmetry. apply (proj1 (scan_mono F f Hge)).
    apply (proj1 (scan_fuel F)). unfold F. lia.
Qed.

Lemma loads_None s : loads s = None <-> decode (2 * len s + 1) s = Fail.
Proof.
  unfold loads. pose proof (loads_fuel s).
  destruct (decode (2 * len s + 1) s); split; done.
Qed.
End JsonFacts.

(* ===================================================================== *)
(** * The text normalizer *)
(* ===================================================================== *)

Section NormalizerFacts.
Import PyStr Normalizer NormalizerSpec.

(** Replacing a one-character pattern by nothing drops the character. *)
Lemma replace_char_nothing c s :
  replace s (String c EmptyString) EmptyString = strip_char c s.
Proof.
  induction s as [|x s IH]; [reflexivity|].
  rewrite replace_eq. cbn [strip_prefix strip_char].
  destruct (Ascii.eqb c x); [exact IH | rewrite IH; reflexivity].
Qed.

(** Replacing a one-character pattern by one character is a
    substitution character by character. *)
Lemma replace_char_char c d s :
  replace s (String c EmptyString) (String d EmptyString) = subst_char c d s.
Proof.
  induction s as [|x s IH]; [reflexivity|].
  rewrite replace_eq. cbn [strip_prefix subst_char].
  destruct (Ascii.eqb c x); rewrite IH; reflexivity.
Qed.

(** The source's chain of [replace] calls is the specification's four
    steps. *)
Lemma remove_double_quotes_normalize (raw : string) :
  remove_double_quotes raw = normalize raw.
Proof.
  unfold remove_double_quotes, normalize.
  rewrite (replace_char_char backslash "#").
  rewrite <- (replace_char_nothing dquote).
  unfold replace_each, placeholders, restorations.
  cbn [fold_left fst snd].
  reflexivity.
Qed.

(** C3. [__remove_double_quotes] performs the four steps of the
    specification in order: the five sequences become the five
    placeholder tokens, every remaining double quote is dropped, the
    tokens become the sequences again (the spaced key/value separator
    with two spaces on each side), and every backslash becomes [#]. *)
Theorem remove_double_quotes_steps (raw : string) :
  remove_double_quotes raw
  = subst_char backslash "#"
      (replace_each restorations
         (strip_char dquote (replace_each placeholders raw))).
Proof. rewrite remove_double_quotes_normalize. unfold normalize. reflexivity. Qed.

End NormalizerFacts.

(* ===================================================================== *)
(** * The marker difference *)
(* ===================================================================== *)

Section SetdiffFacts.
Import Numpy.

Lemma in_list_elem_of x l : in_list x l = true <-> x ∈ l.
Proof.
  unfold in_list. rewrite existsb_exists. split.
  - intros (y & Hy & E). apply String.eqb_eq in E. subst y.
    by apply list_elem_of_In.
  - intros H. exists x. split; [by apply list_elem_of_In | apply String.eqb_refl].
Qed.







End SetdiffFacts.

(* ===================================================================== *)
(** * Instances of [Device] *)
(* ===================================================================== *)

Section DeviceFacts.
Import PyStr Numpy Classes.

Lemma get_str_lookup (self : instance) name s :
  self !! name = Some (VStr s) -> get_str self name = Return s.
Proof. intros H. unfold get_str, getattr. rewrite H. reflexivity. Qed.

Lemma Device_init_Return tables device_type self :
  Device_init tables device_type = Return self ->
  exists product_type p e, self = device_attrs device_type product_type p e.
Proof.
  unfold Device_init, Product_init, device_entry, subscript.
  destruct (device_types tables !! device_type) as [pt|]; [|discriminate].
  cbn [mbind result_bind].
  destruct (device_dict tables !! pt) as [p|] eqn:Ep; [|discriminate].
  cbn [mbind result_bind mret result_ret].
  unfold get_product_type.
  rewrite (get_str_lookup _ _ pt) by reflexivity.
  cbn [mbind result_bind]. rewrite Ep. cbn [mbind result_bind].
  destruct (devices p !! device_type) as [e|] eqn:Ee; [|discriminate].
  cbn [mbind result_bind].
  do 3 (rewrite (get_str_lookup _ _ pt) by reflexivity;
        cbn [mbind result_bind]; rewrite Ep; cbn [mbind result_bind];
        rewrite Ee; cbn [mbind result_bind]).
  intros [= <-]. exists pt, p, e. reflexivity.
Qed.

Lemma Device_init_lookup tables device_type product_type p e :
  device_types tables !! device_type = Some product_type ->
  device_dict tables !! product_type = Some p ->
  devices p !! device_type = Some e ->
  Device_init tables device_type
  = Return (device_attrs device_type product_type p e).
Proof.
  intros Et Ep Ee.
  unfold Device_init, Product_init, device_entry, subscript.
  rewrite Et. cbn [mbind result_bind]. rewrite Ep.
  cbn [mbind result_bind mret result_ret].
  unfold get_product_type.
  do 4 (rewrite (get_str_lookup _ _ product_type) by reflexivity;
        cbn [mbind result_bind]; rewrite Ep; cbn [mbind result_bind];
        rewrite Ee; cbn [mbind result_bind]).
  reflexivity.
Qed.

Lemma device_attrs_type dt pt p e :
  get_device_type (device_attrs dt pt p e) = Return dt.
Proof. reflexivity. Qed.

Lemma device_attrs_logpath dt pt p e :
  get_logpath (device_attrs dt pt p e) = Return (logpath e).
Proof. reflexivity. Qed.

(** No instance has an attribute [get_static_error_df], and neither
    class defines one. *)
Lemma device_attrs_static_error_df dt pt p e :
  getattr (device_attrs dt pt p e) "get_static_error_df"
  = Raise (AttributeError "get_static_error_df").
Proof. reflexivity. Qed.

(** [__init__] stores the query under [__splunk_query_daily_percents];
    the getter reads [__splunk_query_daily_percent]. *)
Lemma device_attrs_daily_percents_query dt pt p e :
  get_splunk_daily_percents_query (device_attrs dt pt p e)
  = Raise (AttributeError "_Device__splunk_query_daily_percent").
Proof. reflexivity. Qed.

(** ** The search for a device that is online *)

Lemma pop_nil {A} : pop (@nil A) = Raise IndexError.
Proof. reflexivity. Qed.

Lemma pop_snoc {A} (l : list A) x : pop (l ++ [x]) = Return (x, l).
Proof.
  unfold pop. rewrite reverse_snoc, reverse_involutive. reflexivity.
Qed.

Lemma pop_Return {A} (l l' : list A) x :
  pop l = Return (x, l') -> l = l' ++ [x].
Proof.
  destruct l as [|a l _] using rev_ind; [discriminate|].
  rewrite pop_snoc. congruence.
Qed.

Section Finder.
Variable router_is_online : string -> bool.
Variable ip_from_mac : string -> string -> string.

(** The loop ends before the fuel does. *)
Lemma find_loop_fuel device_type macs fuel :
  length macs < fuel ->
  find_loop router_is_online ip_from_mac fuel device_type macs <> None.
Proof.
  revert macs; induction fuel as [|fuel IH]; intros macs Hlen; [lia|].
  cbn [find_loop].
  destruct macs as [|mac macs _] using rev_ind; [rewrite pop_nil; done|].
  rewrite pop_snoc.
  destruct (router_is_online mac).
  - repeat case_match; done.
  - apply IH. rewrite length_app in Hlen. simpl in Hlen. lia.
Qed.

(** With no candidate online the loop pops an empty list. *)
Lemma find_loop_all_offline device_type macs fuel :
  length macs < fuel ->
  Forall (fun mac => router_is_online mac = false) macs ->
  find_loop router_is_online ip_from_mac fuel device_type macs
  = Some (Raise IndexError).
Proof.
  revert macs; induction fuel as [|fuel IH]; intros macs Hlen Hoff; [lia|].
  cbn [find_loop].
  destruct macs as [|mac macs _] using rev_ind; [rewrite pop_nil; done|].
  rewrite pop_snoc.
  apply Forall_app in Hoff as [Hoff Hmac].
  apply (proj1 (Forall_singleton _ _)) in Hmac. cbv beta in Hmac. rewrite Hmac.
  apply IH; [|done]. rewrite length_app in Hlen. simpl in Hlen. lia.
Qed.

(** What the loop returns comes from a candidate that is online. *)
Lemma find_loop_Return device_type macs fuel r :
  find_loop router_is_online ip_from_mac fuel device_type macs
  = Some (Return (Some r)) ->
  exists mac, mac ∈ macs /\ router_is_online mac = true /\
    ((device_type = "XI5" /\ r = mac) \/
     (device_type ∈ ["XB3"; "XB6"; "XF3"; "XG"] /\
      r = ip_from_mac mac device_type)).
Proof.
  revert macs; induction fuel as [|fuel IH]; intros macs H; [discriminate|].
  cbn [find_loop] in H.
  destruct (pop macs) as [[mac macs']|e] eqn:Epop; [|discriminate].
  apply pop_Return in Epop. subst macs.
  destruct (router_is_online mac) eqn:Eon.
  - exists mac. split; [set_solver|]. split; [done|].
    destruct (String.eqb_spec device_type "XI5") as [->|Hne].
    + left. split; [done|]. congruence.
    + destruct (in_list device_type ["XB3"; "XB6"; "XF3"; "XG"]) eqn:Ein;
        [|discriminate].
      right. split; [by apply in_list_elem_of | congruence].
  - destruct (IH _ H) as (m & Hm & Hrest). exists m. split; [set_solver|done].
Qed.
End Finder.

End DeviceFacts.

(* ===================================================================== *)
(** * [find_online_device] and [get_daily_errors] *)
(* ===================================================================== *)

Import PyStr Numpy Classes.

Lemma sample_xb3 : Device_init Sample.tables "XB3" = Return Sample.xb3.
Proof. by apply Device_init_lookup. Qed.

Lemma sample_xi5 : Device_init Sample.tables "XI5" = Return Sample.xi5.
Proof. by apply Device_init_lookup. Qed.

(** [find_online_device] always comes to an end. *)
Lemma find_online_device_fuel online ip self shuffled :
  find_online_device online ip self shuffled <> None.
Proof.
  unfold find_online_device. destruct (get_device_type self); [|done].
  apply find_loop_fuel. lia.
Qed.

(** C2. The finder does not give [None] when the candidates are
    exhausted: with no candidate online, and so also with no candidate
    at all, [macs.pop()] is reached on an empty list and raises
    [IndexError]. *)
Theorem find_online_device_exhausted
    tables device_type self online ip (shuffled : list string) :
  Device_init tables device_type = Return self ->
  Forall (fun mac => online mac = false) shuffled ->
  find_online_device online ip self shuffled = Some (Raise IndexError).
Proof.
  intros Hinit Hoff. apply Device_init_Return in Hinit as (pt & p & e & ->).
  unfold find_online_device. rewrite device_attrs_type.
  apply find_loop_all_offline; [lia | done].
Qed.

Lemma find_online_device_exhausted_witness :
  find_online_device Sample.only_macB Sample.ip_of Sample.xb3 []
  = Some (Raise IndexError).
Proof.
  apply (find_online_device_exhausted Sample.tables "XB3").
  - exact sample_xb3.
  - constructor.
Defined.

(** C5. Whatever order the shuffle leaves the candidates in, a result
    of the finder comes from a candidate of the list whose liveness
    check succeeded: the MAC itself for [XI5], the IP address resolved
    from it for [XB3], [XB6], [XF3] and [XG]. *)
Theorem find_online_device_live_candidate
    tables device_type self online ip (macs shuffled : list string) r :
  Device_init tables device_type = Return self ->
  macs ≡ₚ shuffled ->
  find_online_device online ip self shuffled = Some (Return (Some r)) ->
  exists mac, mac ∈ macs /\ online mac = true /\
    ((device_type = "XI5" /\ r = mac) \/
     (device_type ∈ ["XB3"; "XB6"; "XF3"; "XG"] /\ r = ip mac device_type)).
Proof.
  intros Hinit Hperm H. apply Device_init_Return in Hinit as (pt & p & e & ->).
  unfold find_online_device in H. rewrite device_attrs_type in H.
  apply find_loop_Return in H as (mac & Hmac & Hrest).
  exists mac. split; [|done]. by rewrite Hperm.
Qed.

Lemma find_online_device_live_candidate_witness :
  exists mac, mac ∈ ["macA"; "macB"] /\ Sample.only_macB mac = true /\
    (("XI5" = "XI5" /\ "macB" = mac) \/
     ("XI5" ∈ ["XB3"; "XB6"; "XF3"; "XG"] /\ "macB" = Sample.ip_of mac "XI5")).
Proof.
  apply (find_online_device_live_candidate
           Sample.tables "XI5" Sample.xi5 Sample.only_macB Sample.ip_of
           ["macA"; "macB"] ["macB"; "macA"]).
  - exact sample_xi5.
  - apply perm_swap.
  - reflexivity.
Defined.

(** C9. [get_daily_errors] never reaches the query: the getter of the
    query text reads an attribute that [__init__] did not set, so the
    call raises [AttributeError] whatever the backend would answer, an
    empty list of records included. *)
Theorem get_daily_errors_raises tables device_type self oneshot :
  Device_init tables device_type = Return self ->
  get_daily_errors oneshot self
  = Raise (AttributeError "_Device__splunk_query_daily_percent").
Proof.
  intros Hinit. apply Device_init_Return in Hinit as (pt & p & e & ->).
  unfold get_daily_errors. rewrite device_attrs_daily_percents_query.
  reflexivity.
Qed.

Lemma get_daily_errors_raises_witness :
  get_daily_errors Sample.no_records Sample.xb3
  = Raise (AttributeError "_Device__splunk_query_daily_percent").
Proof.
  apply (get_daily_errors_raises Sample.tables "XB3").
  exact sample_xb3.
Defined.


(* ===================================================================== *)
(** * [parse_configs] and [get_configs_difference] *)
(* ===================================================================== *)

Import Normalizer.

(** Lines without the sentinel are passed over. *)
Lemma parse_configs_skip device_type pre content :
  Forall no_sentinel pre ->
  parse_configs device_type (pre ++ content) = parse_configs device_type content.
Proof.
  induction 1 as [|line pre Hline _ IH]; [reflexivity|].
  simpl. rewrite Hline. exact IH.
Qed.

(** Where no payload decodes, every sentinel line is logged and nothing
    is returned. *)
Lemma parse_configs_all_fail device_type content :
  Forall (fun line =>
            contains sentinel line = false \/
            exists payload, payload_of line = Return payload /\
              Json.loads (parse_data_of device_type payload) = None) content ->
  parse_configs device_type content
  = (logged_failures device_type content, Return None).
Proof.
  induction 1 as [|line content Hline _ IH]; [reflexivity|].
  cbn [parse_configs logged_failures flat_map].
  fold (logged_failures device_type content).
  destruct Hline as [Hno | (payload & Hp & Hfail)].
  - rewrite Hno. exact IH.
  - destruct (contains sentinel line); [|exact IH].
    rewrite Hp, Hfail, IH. reflexivity.
Qed.

(** C7, as the claim states it, fails: after a payload that does not
    decode the extractor goes on with the next lines, so it can still
    return a result, or raise when a later line holds the sentinel
    without the key marker. *)
Lemma parse_configs_goes_on_after_failure :
  Json.loads (parse_data_of "XB3" Sample.header_fragment) = None
  /\ parse_configs "XB3"
       [Sample.profile_line Sample.header_fragment;
        Sample.profile_line Sample.one_marker]
     = ([LoggedException Sample.header_fragment_cid],
        Return (Some (Json.JArr
                        [Json.JObj
                           [("header", Json.JStr "SYS_ERROR_KernelPanic_reboot")]])))
  /\ parse_configs "XB3"
       [Sample.profile_line Sample.header_fragment; Sample.bare_line]
     = ([LoggedException Sample.header_fragment_cid], Raise IndexError).
Proof. repeat split; vm_compute; reflexivity. Qed.

(** C7, amended. The extractor returns no result, and raises nothing,
    when every line either lacks the sentinel or carries a payload whose
    decoding fails: each failure is logged and the scan goes on with the
    next line.  In particular a file without the sentinel gives no result
    and an empty log. *)
Theorem parse_configs_no_result device_type content :
  Forall (fun line =>
            contains sentinel line = false \/
            exists payload, payload_of line = Return payload /\
              Json.loads (parse_data_of device_type payload) = None) content ->
  parse_configs device_type content
  = (logged_failures device_type content, Return None)
  /\ (Forall no_sentinel content -> logged_failures device_type content = []).
Proof.
  intros H. split; [by apply parse_configs_all_fail|].
  clear H. induction 1 as [|line content Hline _ IH]; [reflexivity|].
  cbn [logged_failures flat_map]. rewrite Hline. exact IH.
Qed.

Lemma parse_configs_no_result_witness :
  parse_configs "XB3"
    ["# comment"; Sample.profile_line Sample.header_fragment; "# end"]
  = (logged_failures "XB3"
       ["# comment"; Sample.profile_line Sample.header_fragment; "# end"],
     Return None)
  /\ (Forall no_sentinel
        ["# comment"; Sample.profile_line Sample.header_fragment; "# end"] ->
      logged_failures "XB3"
        ["# comment"; Sample.profile_line Sample.header_fragment; "# end"] = []).
Proof.
  apply (parse_configs_no_result "XB3").
  constructor; [left; reflexivity|].
  constructor;
    [right; exists Sample.header_fragment; split; vm_compute; reflexivity|].
  constructor; [left; reflexivity|]. constructor.
Defined.

Section DifferenceFacts.
Variable frame_column : Json.value -> string -> result (list string).
Variable call_markers : attr -> result (list string).

Lemma get_configs_difference_eq dt pt p e content :
  get_configs_difference frame_column call_markers
    (device_attrs dt pt p e) content
  = ((parse_configs dt content).1,
     data ← (parse_configs dt content).2;
     errors_configs ← header_column frame_column data;
     Raise (AttributeError "get_static_error_df")).
Proof.
  unfold get_configs_difference.
  rewrite device_attrs_type, device_attrs_logpath.
  destruct (parse_configs dt content) as [log data].
  rewrite device_attrs_static_error_df. reflexivity.
Qed.
End DifferenceFacts.

(** C8. When no payload decodes, [parse_configs] returns [None] and
    [get_configs_difference] then raises [KeyError] on the [header]
    column of the empty frame: the failure reaches the caller. *)
Theorem get_configs_difference_unparseable
    tables device_type self frame_column call_markers content :
  Device_init tables device_type = Return self ->
  (parse_configs device_type content).2 = Return None ->
  (get_configs_difference frame_column call_markers self content).2
  = Raise (KeyError "header").
Proof.
  intros Hinit Hnone. apply Device_init_Return in Hinit as (pt & p & e & ->).
  rewrite get_configs_difference_eq. cbn [snd]. rewrite Hnone. reflexivity.
Qed.

Lemma get_configs_difference_unparseable_witness :
  (get_configs_difference Sample.no_rows Sample.no_markers Sample.xb3
     [Sample.profile_line Sample.header_fragment]).2
  = Raise (KeyError "header").
Proof.
  apply (get_configs_difference_unparseable Sample.tables "XB3").
  - exact sample_xb3.
  - vm_compute. reflexivity.
Defined.

(** C10, as the claim states it, fails: on a file without the sentinel
    the exception is the [KeyError] of the [header] column, raised
    before [get_static_error_df] is looked up. *)
Lemma get_configs_difference_key_error_first :
  Device_init Sample.tables "XB3" = Return Sample.xb3
  /\ (get_configs_difference Sample.no_rows Sample.no_markers Sample.xb3 []).2
     = Raise (KeyError "header")
  /\ ~ (exists name,
          (get_configs_difference Sample.no_rows Sample.no_markers
             Sample.xb3 []).2 = Raise (AttributeError name)).
Proof.
  split; [exact sample_xb3|].
  assert ((get_configs_difference Sample.no_rows Sample.no_markers
             Sample.xb3 []).2 = Raise (KeyError "header")) as E.
  { unfold Sample.xb3. rewrite get_configs_difference_eq. reflexivity. }
  split; [exact E|]. intros [name H]. rewrite E in H. discriminate.
Qed.

(** C10, amended. [get_configs_difference] never returns a difference:
    every call raises.  When the extraction and the [header] column
    succeed, the exception is the [AttributeError] of the lookup of
    [get_static_error_df], which neither class defines. *)
Theorem get_configs_difference_never_returns
    tables device_type self frame_column call_markers content :
  Device_init tables device_type = Return self ->
  (exists e,
     (get_configs_difference frame_column call_markers self content).2
     = Raise e)
  /\ (forall data errors_configs,
        (parse_configs device_type content).2 = Return data ->
        header_column frame_column data = Return errors_configs ->
        (get_configs_difference frame_column call_markers self content).2
        = Raise (AttributeError "get_static_error_df")).
Proof.
  intros Hinit. apply Device_init_Return in Hinit as (pt & p & e & ->).
  rewrite get_configs_difference_eq. cbn [snd]. split.
  - destruct (parse_configs device_type content).2 as [data|e0];
      [|by eexists].
    cbn [mbind result_bind].
    destruct (header_column frame_column data); by eexists.
  - intros data hs -> Hh. cbn [mbind result_bind]. rewrite Hh. reflexivity.
Qed.

Lemma get_configs_difference_never_returns_witness :
  (exists e,
     (get_configs_difference Sample.no_rows Sample.no_markers Sample.xb3
        [Sample.profile_line Sample.one_marker]).2 = Raise e)
  /\ (forall data errors_configs,
        (parse_configs "XB3" [Sample.profile_line Sample.one_marker]).2
        = Return data ->
        header_column Sample.no_rows data = Return errors_configs ->
        (get_configs_difference Sample.no_rows Sample.no_markers Sample.xb3
           [Sample.profile_line Sample.one_marker]).2
        = Raise (AttributeError "get_static_error_df")).
Proof.
  apply (get_configs_difference_never_returns Sample.tables "XB3").
  exact sample_xb3.
Defined.




(* ===================================================================== *)
(** * The normalizer on well-formed payloads *)
(* ===================================================================== *)

Section PayloadFacts.
Import PyStr Normalizer NormalizerSpec Payload.

Lemma strip_prefix_cons a p c s :
  strip_prefix (String a p) (String c s)
  = if Ascii.eqb a c then strip_prefix p s else None.
Proof. reflexivity. Qed.

Lemma clash a b R : compat a b = false -> strip_prefix a (b +:+ R) = None.
Proof.
  revert b; induction a as [|x a IH]; intros b H; [done|].
  destruct b as [|y b]; [done|].
  rewrite append_cons, strip_prefix_cons. simpl in H.
  destruct (Ascii.eqb x y); [apply IH; exact H | reflexivity].
Qed.

(** Text in which the pattern starts nowhere is copied. *)
Lemma replace_skip a pat new u R :
  Forall (fun u' => strip_prefix (String a pat) (u' +:+ R) = None) (suffixes u) ->
  replace (u +:+ R) (String a pat) new = u +:+ replace R (String a pat) new.
Proof.
  induction u as [|c u IH]; intros H; [reflexivity|].
  cbn [suffixes] in H. apply Forall_cons in H as [Hc Hu].
  rewrite replace_eq, Hc, !append_cons. f_equal. auto.
Qed.

Lemma replace_match a pat new R :
  replace (String a pat +:+ R) (String a pat) new
  = new +:+ replace R (String a pat) new.
Proof. rewrite replace_eq, strip_prefix_app. reflexivity. Qed.

Lemma render_ext img img' items :
  (forall j, img j = img' j) -> render img items = render img' items.
Proof.
  intros H. induction items as [|[c|j] items IH]; simpl; [done|..];
    by rewrite ?H, IH.
Qed.

Lemma plain_char_spec c :
  plain_char c = true ->
  c <> dquote /\ c <> backslash /\ c <> "{"%char /\ c <> "}"%char
  /\ c <> ":"%char.
Proof.
  unfold plain_char. rewrite negb_true_iff, !orb_false_iff.
  intros ((((H1 & H2) & H3) & H4) & H5).
  repeat split; intros ->; by rewrite Ascii.eqb_refl in *.
Qed.

Lemma well_formed_cons it rest :
  well_formed (it :: rest) = true -> item_ok it rest = true /\ well_formed rest = true.
Proof. simpl. apply andb_true_iff. Qed.


Lemma punct_eqb_spec j k : reflect (j = k) (punct_eqb j k).
Proof. destruct j, k; constructor; congruence. Qed.

Lemma upd_same img k new : upd img k new k = new.
Proof. unfold upd. by destruct (punct_eqb_spec k k). Qed.

Lemma upd_other img k new j : j <> k -> upd img k new j = img j.
Proof. unfold upd. by destruct (punct_eqb_spec j k). Qed.

Lemma in_all_puncts j : In j all_puncts.
Proof. destruct j; simpl; tauto. Qed.

(** Replacing a sequence of the payload by its token, when the
    sequence starts nowhere but at its items. *)
Lemma encode_safe img k new items :
  img k <> EmptyString -> safe img k items ->
  replace (render img items) (img k) new = render (upd img k new) items.
Proof.
  intros Hne. destruct (img k) as [|h t] eqn:Ek; [done|].
  induction items as [|[c|j] items IH]; intros Hs; [reflexivity|..];
    cbn [safe] in Hs; destruct Hs as [Hhere Hs]; cbn [render].
  - rewrite Ek in Hhere. rewrite replace_eq, Hhere. by rewrite IH.
  - destruct Hhere as [->|Hhere].
    + rewrite Ek, replace_match, upd_same, IH; done.
    + destruct (punct_eqb_spec j k) as [->|Hjk].
      * rewrite Ek, replace_match, upd_same, IH; done.
      * rewrite upd_other by done. rewrite Ek in Hhere.
        rewrite replace_skip, IH; done.
Qed.

Lemma ready_cons it rest :
  ready (it :: rest) = true ->
  match it with
  | Lit c => lit_ok c = true /\ spells_none (it :: rest) = true
  | Punct _ => True
  end
  /\ brace_ok (it :: rest) = true /\ comma_ok (it :: rest) = true
  /\ colon_ok (it :: rest) = true /\ ready rest = true.
Proof.
  cbn [ready]. rewrite !andb_true_iff. intros [[[[H1 H2] H3] H4] H5].
  repeat split; try done. destruct it; [|done].
  by apply andb_true_iff in H1.
Qed.

Lemma lit_ok_spec c : lit_ok c = true -> c <> dquote /\ c <> backslash.
Proof.
  unfold lit_ok. rewrite negb_true_iff, orb_false_iff.
  intros [H1 H2]. split; intros ->; by rewrite Ascii.eqb_refl in *.
Qed.

(** The rendering of a ready list does not start with a double quote,
    unless the list starts with a sequence. *)
Lemma ready_head_lit img c rest :
  ready (Lit c :: rest) = true ->
  strip_prefix Q (render img (Lit c :: rest)) = None.
Proof.
  intros H. apply ready_cons in H as ([Hc _] & _).
  apply lit_ok_spec in Hc as [Hq _]. cbn [render]. unfold Q.
  rewrite strip_prefix_cons.
  by rewrite (proj2 (Ascii.eqb_neq dquote c)) by done.
Qed.

Ltac clash_all :=
  repeat constructor; try (apply clash; vm_compute; reflexivity).

Lemma safe_open items : ready items = true -> safe source_text POpen items.
Proof.
  induction items as [|[c|j] items IH]; intros H; [done|..];
    pose proof (ready_cons _ _ H) as (Hit & Hb & Hcm & Hcl & Hr);
    cbn [safe]; (split; [|by apply IH]).
  - change (source_text POpen) with (String "{" Q).
    rewrite strip_prefix_cons.
    destruct (Ascii.eqb_spec "{" c) as [<-|]; [|done].
    destruct items as [|[c'|j] items]; [done|by apply ready_head_lit|].
    cbn [brace_ok] in Hb. rewrite Ascii.eqb_refl in Hb. cbn in Hb.
    destruct j; try done.
  - destruct j; [by left|right..]; clash_all.
Qed.

Lemma safe_lit_quote img k t c items :
  img k = String dquote t -> ready (Lit c :: items) = true ->
  strip_prefix (img k) (String c (render img items)) = None.
Proof.
  intros -> H. apply ready_cons in H as ([Hc _] & _).
  apply lit_ok_spec in Hc as [Hq _]. rewrite strip_prefix_cons.
  by rewrite (proj2 (Ascii.eqb_neq dquote c)) by done.
Qed.

Lemma safe_item items : ready items = true -> safe enc1 PItem items.
Proof.
  induction items as [|[c|j] items IH]; intros H; [done|..];
    pose proof (ready_cons _ _ H) as (Hit & Hb & Hcm & Hcl & Hr);
    cbn [safe]; (split; [|by apply IH]).
  - by eapply safe_lit_quote.
  - destruct j; [right|by left|right..]; clash_all.
    + (* after the spaced separator *)
      change (strip_prefix (String "," Q) (render enc1 items) = None).
      destruct items as [|[c|j] items]; [done|..].
      * cbn [render]. rewrite strip_prefix_cons.
        destruct (Ascii.eqb_spec "," c) as [<-|]; [|done].
        destruct items as [|[c'|j] items]; [done|by apply (ready_head_lit enc1)|].
        cbn [comma_ok] in Hcm. by destruct j.
      * by destruct j.
    + change (strip_prefix (String "," Q) (render enc1 items) = None).
      destruct items as [|[c|j] items]; [done|..].
      * cbn [render]. rewrite strip_prefix_cons.
        destruct (Ascii.eqb_spec "," c) as [<-|]; [|done].
        destruct items as [|[c'|j] items]; [done|by apply (ready_head_lit enc1)|].
        cbn [comma_ok] in Hcm. by destruct j.
      * by destruct j.
Qed.

Lemma safe_spaced items : ready items = true -> safe enc2 PSpaced items.
Proof.
  induction items as [|[c|j] items IH]; intros H; [done|..];
    pose proof (ready_cons _ _ H) as (Hit & Hb & Hcm & Hcl & Hr);
    cbn [safe]; (split; [|by apply IH]).
  - by eapply safe_lit_quote.
  - destruct j; [right|right|by left|right..]; clash_all.
    change (strip_prefix (String " " (String ":" (String " " Q)))
              (render enc2 items) = None).
    destruct items as [|[a|j] items]; [done| |by destruct j].
    cbn [render]. rewrite strip_prefix_cons.
    destruct (Ascii.eqb_spec " " a) as [<-|]; [|done].
    destruct items as [|[b|j] items]; [done| |by destruct j].
    cbn [render]. rewrite strip_prefix_cons.
    destruct (Ascii.eqb_spec ":" b) as [<-|]; [|done].
    destruct items as [|[c|j] items]; [done| |by destruct j].
    cbn [render]. rewrite strip_prefix_cons.
    destruct (Ascii.eqb_spec " " c) as [<-|]; [|done].
    destruct items as [|[d|j] items]; [done| |].
    + apply (ready_head_lit enc2).
      by repeat (apply ready_cons in Hr as (_ & _ & _ & _ & Hr)).
    + cbn [colon_ok] in Hcl. by destruct j.
Qed.

Lemma safe_kv items : ready items = true -> safe enc3 PKv items.
Proof.
  induction items as [|[c|j] items IH]; intros H; [done|..];
    pose proof (ready_cons _ _ H) as (Hit & Hb & Hcm & Hcl & Hr);
    cbn [safe]; (split; [|by apply IH]).
  - by eapply safe_lit_quote.
  - destruct j; [right|right|right|by left|right]; clash_all.
Qed.

Lemma safe_close items : ready items = true -> safe enc4 PClose items.
Proof.
  induction items as [|[c|j] items IH]; intros H; [done|..];
    pose proof (ready_cons _ _ H) as (Hit & Hb & Hcm & Hcl & Hr);
    cbn [safe]; (split; [|by apply IH]).
  - by eapply safe_lit_quote.
  - destruct j; [right|right|right|right|by left]; clash_all.
Qed.

(** Plain characters that do not spell [t] do not spell it either when
    the texts of the sequences that follow are taken into account, as
    long as every suffix of [t] clashes with each of these texts. *)
Lemma not_spelled img t items :
  forallb (fun u => forallb (fun j => negb (compat u (img j))) all_puncts)
          (suffixes t) = true ->
  strip_prefix t (lit_run items) = None ->
  strip_prefix t (render img items) = None.
Proof.
  revert items; induction t as [|a t IH]; intros items Hc Hl; [done|].
  cbn [suffixes forallb] in Hc. apply andb_true_iff in Hc as [Hhere Hc].
  destruct items as [|[c|j] items]; [done|..]; cbn [render lit_run] in *.
  - rewrite strip_prefix_cons in *. destruct (Ascii.eqb a c); [auto|done].
  - apply clash. rewrite forallb_forall in Hhere.
    apply negb_true_iff, Hhere, in_all_puncts.
Qed.

(** Replacing a placeholder token by a sequence. *)
Lemma decode_ready_step img k new items :
  decode_ready img k = true -> ready items = true ->
  replace (render img items) (img k) new = render (upd img k new) items.
Proof.
  unfold decode_ready. rewrite !andb_true_iff, forallb_forall.
  intros [[Ek Hsuf] Himg]. apply String.eqb_eq in Ek.
  destruct (token k) as [|h t] eqn:Et; [done|]. rewrite Ek in *.
  induction items as [|[c|j] items IH]; intros Hwf; [reflexivity|..];
    pose proof (ready_cons _ _ Hwf) as (Hit & _ & _ & _ & Hr); cbn [render].
  - rewrite replace_eq, IH by done.
    enough (strip_prefix (String h t) (String c (render img items)) = None)
      as -> by done.
    destruct Hit as [_ Htok]. unfold spells_none in Htok.
    rewrite forallb_forall in Htok. specialize (Htok k (in_all_puncts k)).
    unfold is_prefix in Htok. rewrite Et in Htok. cbn [lit_run] in Htok.
    rewrite strip_prefix_cons in *.
    destruct (Ascii.eqb h c); [|done].
    apply not_spelled; [done|].
    by destruct (strip_prefix t (lit_run items)).
  - destruct (punct_eqb_spec j k) as [->|Hjk].
    + rewrite Ek, replace_match, upd_same, IH; done.
    + rewrite upd_other by done. rewrite replace_skip, IH; [done..|].
      specialize (Himg j (in_all_puncts j)).
      destruct (punct_eqb_spec j k); [done|]. cbn [orb] in Himg.
      rewrite forallb_forall in Himg. apply Forall_forall. intros u Hu.
      apply list_elem_of_In, Himg in Hu.
      apply clash. by apply negb_true_iff.
Qed.

Lemma strip_char_absent c s : has_char c s = false -> strip_char c s = s.
Proof.
  induction s as [|x s IH]; [done|]. cbn [has_char strip_char].
  intros [-> H]%orb_false_iff. by rewrite IH.
Qed.

Lemma subst_char_absent c d s : has_char c s = false -> subst_char c d s = s.
Proof.
  induction s as [|x s IH]; [done|]. cbn [has_char subst_char].
  intros [-> H]%orb_false_iff. by rewrite IH.
Qed.

Lemma has_char_app c s t : has_char c (s +:+ t) = has_char c s || has_char c t.
Proof.
  induction s as [|x s IH]; [done|].
  rewrite append_cons. cbn [has_char]. by rewrite IH, orb_assoc.
Qed.

(** A double quote or a backslash that is in no text of a sequence is
    not in the rendering. *)
Lemma has_char_ready c img items :
  lit_ok c = false ->
  forallb (fun j => negb (has_char c (img j))) all_puncts = true ->
  ready items = true ->
  has_char c (render img items) = false.
Proof.
  intros Hc Himg. rewrite forallb_forall in Himg.
  induction items as [|[x|j] items IH]; intros Hwf; [done|..];
    pose proof (ready_cons _ _ Hwf) as (Hit & _ & _ & _ & Hr); cbn [render].
  - cbn [has_char]. rewrite IH by done. destruct Hit as [Hx _].
    destruct (Ascii.eqb_spec c x) as [->|]; [congruence|done].
  - rewrite has_char_app, IH by done.
    specialize (Himg j (in_all_puncts j)). apply negb_true_iff in Himg.
    by rewrite Himg.
Qed.

Lemma dec5_restored j : dec5 j = restored_text j.
Proof. by destruct j. Qed.

(** On a ready list the normalizer gives the text back, with the spaced
    separator widened. *)
Lemma normalize_ready items :
  ready items = true ->
  normalize (render source_text items) = render restored_text items.
Proof.
  intros Hwf. unfold normalize, replace_each, placeholders, restorations.
  cbn [fold_left fst snd].
  pose proof (encode_safe source_text POpen "vikr" items
                ltac:(done) (safe_open items Hwf)) as E1.
  pose proof (encode_safe enc1 PItem "sandep" items
                ltac:(done) (safe_item items Hwf)) as E2.
  pose proof (encode_safe enc2 PSpaced "arun" items
                ltac:(done) (safe_spaced items Hwf)) as E3.
  pose proof (encode_safe enc3 PKv "bindhu" items
                ltac:(done) (safe_kv items Hwf)) as E4.
  pose proof (encode_safe enc4 PClose "gauth" items
                ltac:(done) (safe_close items Hwf)) as E5.
  pose proof (decode_ready_step enc5 POpen open_obj items eq_refl Hwf) as D1.
  pose proof (decode_ready_step dec1 PItem item_sep items eq_refl Hwf) as D2.
  pose proof (decode_ready_step dec2 PSpaced kv_wide items eq_refl Hwf) as D3.
  pose proof (decode_ready_step dec3 PKv kv_sep items eq_refl Hwf) as D4.
  pose proof (decode_ready_step dec4 PClose close_obj items eq_refl Hwf) as D5.
  change (replace (render source_text items) open_obj "vikr"
          = render enc1 items) in E1.
  change (replace (render enc1 items) item_sep "sandep" = render enc2 items) in E2.
  change (replace (render enc2 items) kv_spaced "arun" = render enc3 items) in E3.
  change (replace (render enc3 items) kv_sep "bindhu" = render enc4 items) in E4.
  change (replace (render enc4 items) close_obj "gauth" = render enc5 items) in E5.
  change (replace (render enc5 items) "vikr" open_obj = render dec1 items) in D1.
  change (replace (render dec1 items) "sandep" item_sep = render dec2 items) in D2.
  change (replace (render dec2 items) "arun" kv_wide = render dec3 items) in D3.
  change (replace (render dec3 items) "bindhu" kv_sep = render dec4 items) in D4.
  change (replace (render dec4 items) "gauth" close_obj = render dec5 items) in D5.
  rewrite E1, E2, E3, E4, E5.
  rewrite strip_char_absent by (by apply has_char_ready).
  rewrite D1, D2, D3, D4, D5.
  rewrite subst_char_absent by (by apply has_char_ready).
  apply render_ext, dec5_restored.
Qed.

(** The payloads of plain characters are ready. *)
Lemma well_formed_ready items : well_formed items = true -> ready items = true.
Proof.
  induction items as [|it items IH]; [done|].
  intros [Hit Hwf]%well_formed_cons. specialize (IH Hwf).
  cbn [ready]. rewrite IH, andb_true_r.
  destruct it as [c|k].
  - cbn [item_ok] in Hit. rewrite !andb_true_iff in Hit.
    destruct Hit as [[Hp Hcomma] Htok].
    pose proof (plain_char_spec c Hp) as (Hq & Hb & Hob & _).
    assert (lit_ok c = true) as ->.
    { unfold lit_ok. by rewrite (proj2 (Ascii.eqb_neq c dquote)),
        (proj2 (Ascii.eqb_neq c backslash)). }
    unfold spells_none. rewrite Htok. cbn [andb].
    assert (brace_ok (Lit c :: items) = true) as ->; [|done].
    destruct items as [|[?|?] ?]; try done.
    cbn [brace_ok]. by rewrite (proj2 (Ascii.eqb_neq c "{")).
  - cbn [andb brace_ok].
    assert (comma_ok (Punct k :: items) = true) as ->.
    { destruct items as [|[c|?] [|[?|j] ?]]; try done.
      apply well_formed_cons in Hwf as [Hc _]. cbn [item_ok] in Hc.
      rewrite !andb_true_iff in Hc. destruct Hc as [[_ Hc] _].
      cbn [comma_ok]. revert Hc.
      destruct (Ascii.eqb c ","); [|by rewrite andb_false_r].
      destruct j; cbn; intros; try done; by rewrite orb_true_r. }
    destruct items as [|[a|?] [|[b|?] [|[c|?] [|[?|j] ?]]]]; try done.
    apply well_formed_cons in Hwf as [_ Hwf].
    apply well_formed_cons in Hwf as [Hb _]. cbn [item_ok] in Hb.
    rewrite !andb_true_iff in Hb. destruct Hb as [[Hb _] _].
    apply plain_char_spec in Hb as (_ & _ & _ & _ & Hcol).
    cbn [colon_ok]. rewrite (proj2 (Ascii.eqb_neq b ":")) by done.
    by rewrite andb_false_r.
Qed.

(** On a well-formed payload the normalizer gives the payload back, with
    the spaced separator widened. *)
Lemma normalize_render items :
  well_formed items = true ->
  normalize (render source_text items) = render restored_text items.
Proof. intros H. by apply normalize_ready, well_formed_ready. Qed.
End PayloadFacts.

(* ===================================================================== *)
(** * The normalizer on documents *)
(* ===================================================================== *)

Section DocumentFacts.
Import PyStr Json Normalizer NormalizerSpec Payload Document.

Lemma render_app img a b : render img (a ++ b) = render img a +:+ render img b.
Proof.
  induction a as [|[c|j] a IH]; [done|..]; cbn [render app].
  - by rewrite IH.
  - by rewrite IH, append_assoc.
Qed.

Lemma render_lits img w : render img (lits w) = w.
Proof.
  induction w as [|c w IH]; [done|].
  change (lits (String c w)) with (Lit c :: lits w). cbn [render].
  by rewrite IH.
Qed.

Lemma word_char_spec c :
  word_char c = true ->
  plain_char c = true /\ c <> ","%char /\ 32 <= nat_of_ascii c.
Proof.
  unfold word_char. rewrite !andb_true_iff, negb_true_iff.
  intros [[Hp Hc] Hn]. split; [done|]. split.
  - by intros ->.
  - by apply Nat.leb_le.
Qed.

Lemma text_char_spec c :
  text_char c = true -> c <> dquote /\ c <> backslash /\ 32 <= nat_of_ascii c.
Proof.
  unfold text_char. rewrite andb_true_iff. intros [Hl Hn].
  apply lit_ok_spec in Hl as [? ?]. repeat split; try done.
  by apply Nat.leb_le.
Qed.

Lemma word_char_text c : word_char c = true -> text_char c = true.
Proof.
  intros (Hp & _ & Hn)%word_char_spec.
  apply plain_char_spec in Hp as (Hq & Hb & _).
  unfold text_char, lit_ok.
  rewrite (proj2 (Ascii.eqb_neq c dquote)), (proj2 (Ascii.eqb_neq c backslash))
    by done.
  by apply Nat.leb_le.
Qed.

(** The scanner reads the content of a string up to the double quote
    that follows it. *)
Lemma scanstring_text w rest :
  text_ok w = true ->
  scanstring (w +:+ String dquote rest) = Some (w, rest).
Proof.
  unfold scanstring, text_ok. induction w as [|c w IH]; intros H.
  - rewrite append_nil_l. cbn [scanstring_in]. reflexivity.
  - cbn [String.list_ascii_of_string forallb] in H.
    apply andb_true_iff in H as [Hc Hw].
    apply text_char_spec in Hc as (Hq & Hb & Hn).
    rewrite append_cons. cbn [scanstring_in].
    rewrite (proj2 (Ascii.eqb_neq c backslash) Hb).
    rewrite (proj2 (Ascii.eqb_neq c dquote) Hq).
    destruct (Nat.ltb_spec (nat_of_ascii c) 32); [lia|].
    rewrite IH by done. reflexivity.
Qed.

Lemma skip_ws_nonws c s : is_ws c = false -> skip_ws (String c s) = String c s.
Proof. intros H. cbn [skip_ws]. by rewrite H. Qed.


Lemma json_img_source : json_img source_text.
Proof. repeat split. by left. Qed.

Lemma json_img_restored : json_img restored_text.
Proof. repeat split. by right. Qed.

Lemma entry_ok_text e : entry_ok e = true -> entry_text e = true.
Proof.
  unfold entry_ok, word_ok, entry_text, text_ok.
  rewrite !andb_true_iff, !forallb_forall.
  intros [[Hk _] [Hv _]]. split; intros c Hc; apply word_char_text; auto.
Qed.

Lemma object_ok_text es :
  object_ok es = true -> es <> [] /\ forallb entry_text es = true.
Proof.
  destruct es as [|e es]; [done|]. unfold object_ok. intros H.
  split; [done|]. rewrite forallb_forall in *.
  intros x Hx. by apply entry_ok_text, H.
Qed.

(** One round of [members]: a key, its separator and its value are read
    up to the double quote that ends the value. *)
Lemma members_round img e f acc more :
  json_img img -> entry_text e = true ->
  members (S (S f)) acc
    (key e +:+ render img [separator e] +:+ val e +:+ String dquote more)
  = match skip_ws more with
    | String c4 r4 =>
        if Ascii.eqb c4 "}" then
          Ok (JObj (dict (rev ((key e, JStr (val e)) :: acc))), r4)
        else if Ascii.eqb c4 "," then
          match skip_ws r4 with
          | String c5 r5 =>
              if Ascii.eqb c5 dquote
              then members (S f) ((key e, JStr (val e)) :: acc) r5
              else Fail
          | EmptyString => Fail
          end
        else Fail
    | EmptyString => Fail
    end.
Proof.
  intros (_ & _ & Hkv & _ & Hsp) [Hk Hv]%andb_true_iff.
  assert (exists w1 w2,
             render img [separator e]
             = String dquote (w1 +:+ String ":" (w2 +:+ String dquote EmptyString))
             /\ (forall x, skip_ws (w1 +:+ String ":" x) = String ":" x)
             /\ (forall x, skip_ws (w2 +:+ String dquote x) = String dquote x))
    as (w1 & w2 & -> & Hw1 & Hw2).
  { unfold separator. cbn [render]. rewrite append_nil_r.
    destruct (spaced e); [destruct Hsp as [-> | ->]|rewrite Hkv].
    - by exists " ", " ".
    - by exists "  ", "  ".
    - by exists EmptyString, EmptyString. }
  rewrite !append_cons, !append_assoc, !append_cons, !append_assoc.
  rewrite !append_cons, append_nil_l.
  cbn [members]. rewrite scanstring_text by done.
  rewrite Hw1. rewrite Ascii.eqb_refl. rewrite Hw2.
  cbn [scan_once]. rewrite Ascii.eqb_refl. rewrite scanstring_text by done.
  reflexivity.
Qed.


Lemma render_entry img e :
  render img (entry_items e)
  = key e +:+ render img [separator e] +:+ val e.
Proof.
  unfold entry_items.
  change (separator e :: lits (val e)) with ([separator e] ++ lits (val e)).
  by rewrite !render_app, !render_lits.
Qed.

(** [members] reads the entries of an object. *)
Lemma members_entries img es :
  json_img img -> es <> [] -> forallb entry_text es = true ->
  forall acc f R,
    length es <= f ->
    members (S f) acc (render img (entries_items es) +:+ close_obj +:+ R)
    = Ok (JObj (dict (rev acc ++ map pair_of es)), R).
Proof.
  intros Himg Hne Hok.
  induction es as [|e es IH]; [done|]. clear Hne.
  cbn [forallb] in Hok. apply andb_true_iff in Hok as [He Hes].
  intros acc f R Hf. cbn [length] in Hf.
  destruct f as [|f]; [lia|].
  cbn [entries_items]. rewrite render_app, render_entry.
  destruct es as [|e' es].
  - change (render img []) with EmptyString. rewrite append_nil_r.
    unfold close_obj, Q.
    rewrite !append_assoc, append_cons, append_nil_l.
    rewrite (members_round img e f acc _ Himg He).
    rewrite append_cons, append_nil_l.
    rewrite skip_ws_nonws by done. rewrite Ascii.eqb_refl.
    cbn [rev map]. rewrite <- ?app_assoc. reflexivity.
  - change (Punct PItem :: entries_items (e' :: es))
      with ([Punct PItem] ++ entries_items (e' :: es)).
    rewrite render_app.
    change (render img [Punct PItem]) with (img PItem +:+ EmptyString).
    destruct Himg as (Ho & Hi & Hk & Hc & Hs). rewrite Hi, append_nil_r.
    unfold item_sep, Q at 1.
    rewrite !append_assoc, !append_cons, !append_nil_l.
    rewrite (members_round img e f acc _ (conj Ho (conj Hi (conj Hk (conj Hc Hs)))) He).
    rewrite skip_ws_nonws by done.
    replace (Ascii.eqb "," "}") with false by done.
    rewrite Ascii.eqb_refl. unfold Q. rewrite append_cons, append_nil_l.
    rewrite skip_ws_nonws by done. rewrite Ascii.eqb_refl.
    rewrite IH; [|done|done|simpl in *; lia].
    cbn [rev map]. rewrite <- ?app_assoc. reflexivity.
Qed.

Lemma scan_object img es R f :
  json_img img -> es <> [] -> forallb entry_text es = true -> length es < f ->
  scan_once (S f) (render img (object_items es) +:+ R) = Ok (object_value es, R).
Proof.
  intros Himg Hne Hok Hf. unfold object_items. cbn [render].
  rewrite render_app. cbn [render].
  pose proof Himg as (-> & _ & _ & -> & _).
  unfold open_obj, Q at 1. rewrite append_nil_r.
  rewrite !append_assoc, !append_cons, !append_nil_l.
  cbn [scan_once].
  replace (Ascii.eqb "{" dquote) with false by done. rewrite Ascii.eqb_refl.
  rewrite skip_ws_nonws by done.
  replace (Ascii.eqb dquote "}") with false by done. rewrite Ascii.eqb_refl.
  destruct f as [|f]; [lia|].
  rewrite (members_entries img es Himg); [done|done|done|lia].
Qed.

Lemma render_object_head img es R :
  json_img img ->
  exists r1, render img (object_items es) +:+ R = String "{" r1.
Proof.
  intros (Ho & _). unfold object_items. cbn [render]. rewrite Ho.
  unfold open_obj. rewrite !append_assoc, append_cons. by eexists.
Qed.

(** [items] reads the objects of an array. *)
Lemma items_objects img os :
  json_img img -> os <> [] -> forallb object_ok os = true ->
  forall acc f R,
    length (concat os) + length os + 1 <= f ->
    items (S f) acc (render img (objects_items os) +:+ String "]" R)
    = Ok (JArr (rev acc ++ map object_value os), R).
Proof.
  intros Himg Hne Hok.
  induction os as [|o os IH]; [done|]. clear Hne.
  cbn [forallb] in Hok. apply andb_true_iff in Hok as [Ho Hos].
  intros acc f R Hf. cbn [concat length] in Hf. rewrite length_app in Hf.
  cbn [objects_items]. rewrite render_app, append_assoc.
  cbn [items]. destruct f as [|f]; [lia|].
  apply object_ok_text in Ho as [Hne' Ho].
  rewrite scan_object; [|done|done|done|lia].
  destruct os as [|o' os].
  - cbn [render]. rewrite append_nil_l.
    rewrite skip_ws_nonws by done. rewrite Ascii.eqb_refl.
    cbn [rev map]. rewrite <- ?app_assoc. reflexivity.
  - cbn [render]. rewrite append_cons.
    rewrite skip_ws_nonws by done.
    replace (Ascii.eqb "," "]") with false by done. rewrite Ascii.eqb_refl.
    destruct (render_object_head img o'
                (render img match os with
                            | [] => []
                            | _ :: _ => Lit "," :: objects_items os
                            end +:+ String "]" R) Himg) as [r1 Hr1].
    assert (render img (objects_items (o' :: os)) +:+ String "]" R
            = String "{" r1) as Hhead.
    { cbn [objects_items]. by rewrite render_app, append_assoc. }
    rewrite Hhead, skip_ws_nonws by done. rewrite <- Hhead.
    rewrite IH; [|done|done|simpl in *; lia].
    cbn [rev map]. rewrite <- ?app_assoc. reflexivity.
Qed.

(** A document is scanned to its value, with nothing left. *)
Lemma scan_document img os :
  json_img img -> document_ok os = true ->
  exists f,
    scan_once f (render img (document_items os)) = Ok (document_value os, EmptyString).
Proof.
  intros Himg Hok. exists (S (S (length (concat os) + length os + 1))).
  unfold document_items. cbn [render]. rewrite render_app. cbn [render].
  cbn [scan_once].
  replace (Ascii.eqb "[" dquote) with false by done.
  replace (Ascii.eqb "[" "{") with false by done. rewrite Ascii.eqb_refl.
  destruct os as [|o os].
  - cbn [objects_items render]. rewrite append_nil_l.
    rewrite skip_ws_nonws by done. by rewrite Ascii.eqb_refl.
  - destruct (render_object_head img o
                (render img match os with
                            | [] => []
                            | _ :: _ => Lit "," :: objects_items os
                            end +:+ "]") Himg) as [r1 Hr1].
    assert (render img (objects_items (o :: os)) +:+ "]" = String "{" r1)
      as Hhead.
    { cbn [objects_items]. by rewrite render_app, append_assoc. }
    rewrite Hhead, skip_ws_nonws by done.
    replace (Ascii.eqb "{" "]") with false by done.
    rewrite <- Hhead.
    rewrite (items_objects img (o :: os) Himg); [done|done|done|lia].
Qed.

Lemma loads_document img os :
  json_img img -> document_ok os = true ->
  loads (render img (document_items os)) = Some (document_value os).
Proof.
  intros Himg Hok. destruct (scan_document img os Himg Hok) as [f Hf].
  apply (loads_scan f); [done|]. by apply skip_ws_nonws.
Qed.

(** ** Printed documents are well formed *)


Lemma lit_run_lits w items :
  starts_punct items -> lit_run (lits w ++ items) = w.
Proof.
  intros (j & rest & ->). induction w as [|c w IH]; [done|].
  change (lits (String c w)) with (Lit c :: lits w). cbn [app lit_run].
  by rewrite IH.
Qed.

Lemma contains_false_prefix sub s :
  contains sub s = false -> strip_prefix sub s = None.
Proof.
  destruct s as [|c s]; cbn [contains];
    by destruct (strip_prefix sub _).
Qed.

Lemma word_ok_tail c w : word_ok (String c w) = true -> word_ok w = true.
Proof.
  unfold word_ok. rewrite !andb_true_iff, !forallb_forall.
  intros [Hc Ht]. split.
  - intros x Hx. apply Hc. by right.
  - intros k Hk. specialize (Ht k Hk). rewrite negb_true_iff in *.
    by apply contains_false_cons in Ht.
Qed.

Lemma well_formed_word w items :
  word_ok w = true -> starts_punct items -> well_formed items = true ->
  well_formed (lits w ++ items) = true.
Proof.
  intros Hw Hp Hwf. induction w as [|c w IH]; [done|].
  change (lits (String c w)) with (Lit c :: lits w).
  cbn [app well_formed]. rewrite IH by (by apply word_ok_tail in Hw).
  rewrite andb_true_r. cbn [item_ok lit_run]. rewrite lit_run_lits by done.
  pose proof Hw as [Hc Ht]%andb_true_iff.
  cbn [String.list_ascii_of_string forallb] in Hc.
  apply andb_true_iff in Hc as [Hc _].
  apply word_char_spec in Hc as (Hpc & Hcomma & _).
  rewrite Hpc, (proj2 (Ascii.eqb_neq c ",") Hcomma). cbn [andb].
  rewrite forallb_forall in *. intros k Hk. specialize (Ht k Hk).
  rewrite negb_true_iff in *. unfold is_prefix.
  by rewrite contains_false_prefix.
Qed.

Lemma well_formed_entry e items :
  entry_ok e = true -> starts_punct items -> well_formed items = true ->
  well_formed (entry_items e ++ items) = true.
Proof.
  intros [Hk Hv]%andb_true_iff Hp Hwf. unfold entry_items.
  rewrite <- app_assoc. cbn [app].
  apply well_formed_word; [done|by eexists _, _|].
  cbn [well_formed separator item_ok andb].
  by apply well_formed_word.
Qed.

Lemma well_formed_entries es items :
  forallb entry_ok es = true -> starts_punct items -> well_formed items = true ->
  well_formed (entries_items es ++ items) = true.
Proof.
  intros Hok Hp Hwf. induction es as [|e es IH]; [done|].
  cbn [forallb] in Hok. apply andb_true_iff in Hok as [He Hes].
  cbn [entries_items]. rewrite <- app_assoc.
  destruct es as [|e' es].
  - by apply well_formed_entry.
  - apply well_formed_entry; [done|by eexists _, _|].
    cbn [app well_formed item_ok andb]. by apply IH.
Qed.

Lemma well_formed_object es items :
  object_ok es = true -> well_formed items = true ->
  well_formed (object_items es ++ items) = true.
Proof.
  intros Hok Hwf. unfold object_items.
  cbn [app well_formed item_ok andb]. rewrite <- app_assoc.
  destruct es as [|e es]; [done|].
  apply well_formed_entries; [done|by eexists _, _|].
  cbn [app well_formed item_ok andb]. done.
Qed.

Lemma well_formed_objects os :
  forallb object_ok os = true ->
  well_formed (objects_items os ++ [Lit "]"]) = true.
Proof.
  intros Hok. induction os as [|o os IH]; [done|].
  cbn [forallb] in Hok. apply andb_true_iff in Hok as [Ho Hos].
  cbn [objects_items]. rewrite <- app_assoc.
  apply well_formed_object; [done|].
  destruct os as [|o' os]; [done|].
  cbn [app well_formed]. rewrite IH by done.
  cbn [objects_items object_items app]. done.
Qed.

Lemma well_formed_document os :
  document_ok os = true -> well_formed (document_items os) = true.
Proof.
  intros Hok. unfold document_items. cbn [well_formed].
  rewrite well_formed_objects by done.
  destruct os as [|o os]; [done|].
  cbn [objects_items object_items app]. done.
Qed.

(** On a document the source's function widens the spaced separators
    and changes nothing else. *)
Lemma remove_double_quotes_document os :
  document_ok os = true -> remove_double_quotes (print os) = print_wide os.
Proof.
  intros Hok. rewrite remove_double_quotes_normalize.
  by apply normalize_render, well_formed_document.
Qed.
End DocumentFacts.

Import Json Payload Document.

(** C6, as the claim states it, fails: a valid JSON object whose value
    is a number, without backslash or placeholder token, is turned into
    a text that does not decode (the quote before the colon is dropped). *)
Lemma normalizer_breaks_number_value :
  loads Sample.number_object = Some (JObj [("a", JInt 1)])
  /\ has_char backslash Sample.number_object = false
  /\ forallb (fun k => negb (contains (token k) Sample.number_object))
             all_puncts = true
  /\ remove_double_quotes Sample.number_object = "{" +:+ Q +:+ "a:1}"
  /\ loads (remove_double_quotes Sample.number_object) = None.
Proof. repeat split; vm_compute; reflexivity. Qed.

Import PyStr Numpy Classes TextIO Fleet.

(* ===================================================================== *)
(** * Construction of a [Device] and its getters *)
(* ===================================================================== *)


(** X2. After [__init__] each getter returns what the tables hold for the
    device type, and the two constants of [Product]; the instance is the
    one [Device.__init__] returns. *)
Theorem device_getters tables device_type product_type p e :
  device_types tables !! device_type = Some product_type ->
  device_dict tables !! product_type = Some p ->
  devices p !! device_type = Some e ->
  exists self,
    Device_init tables device_type = Return self
    /\ get_device_type self = Return device_type
    /\ get_product_type self = Return product_type
    /\ get_email_sender self = Return (Field (VStr "MarkerAlert@comcast.com"))
    /\ get_email_subject self
       = Return (Field (VStr ("Missing Mandatory Markers on " +:+ product_type)))
    /\ get_recipient_list self = Return (Field (VProduct p))
    /\ get_splunk_macs_query self = Return (splunk_query_macs e)
    /\ get_logpath self = Return (logpath e)
    /\ get_command self = Return (command e).
Proof.
  intros Et Ep Ee. exists (device_attrs device_type product_type p e).
  split; [by apply Device_init_lookup|]. repeat split.
Qed.

Lemma device_getters_witness :
  exists self,
    Device_init Sample.tables "XG" = Return self
    /\ get_device_type self = Return "XG"
    /\ get_product_type self = Return "RDK-V"
    /\ get_email_sender self = Return (Field (VStr "MarkerAlert@comcast.com"))
    /\ get_email_subject self
       = Return (Field (VStr ("Missing Mandatory Markers on " +:+ "RDK-V")))
    /\ get_recipient_list self = Return (Field (VProduct Sample.rdk_v))
    /\ get_splunk_macs_query self
       = Return (splunk_query_macs (Sample.conf "XG"))
    /\ get_logpath self = Return (logpath (Sample.conf "XG"))
    /\ get_command self = Return (command (Sample.conf "XG")).
Proof.
  apply (device_getters Sample.tables "XG" "RDK-V" Sample.rdk_v
           (Sample.conf "XG")); reflexivity.
Defined.

(* ===================================================================== *)
(** * Which candidate the finder returns *)
(* ===================================================================== *)

Import KernelPanic.

Lemma find_loop_last_online online ip device_type before mac after fuel :
  length (before ++ mac :: after) < fuel ->
  online mac = true ->
  Forall (fun m => online m = false) after ->
  find_loop online ip fuel device_type (before ++ mac :: after)
  = Some (Return (found_value ip device_type mac)).
Proof.
  revert fuel. induction after as [|x after IH] using rev_ind;
    intros fuel Hlen Hon Hoff.
  - destruct fuel as [|fuel]; [lia|]. cbn [find_loop].
    rewrite pop_snoc, Hon. unfold found_value.
    by repeat case_match.
  - apply Forall_app in Hoff as [Hoff Hx].
    apply (proj1 (Forall_singleton _ _)) in Hx. cbv beta in Hx.
    destruct fuel as [|fuel]; [lia|]. cbn [find_loop].
    replace (before ++ mac :: after ++ [x])
      with ((before ++ mac :: after) ++ [x]) by (by rewrite <- app_assoc).
    rewrite pop_snoc, Hx. apply IH; [|done|done].
    rewrite !length_app in *. simpl in *. rewrite length_app in Hlen.
    simpl in Hlen. lia.
Qed.

(** X3. The finder returns the online candidate nearest the end of the
    shuffled list: its MAC for [XI5], its IP address for the four other
    supported types. *)
Theorem find_online_device_last_online
    tables device_type self online ip (before after : list string) mac :
  Device_init tables device_type = Return self ->
  device_type ∈ ["XB3"; "XB6"; "XF3"; "XI5"; "XG"] ->
  online mac = true ->
  Forall (fun m => online m = false) after ->
  find_online_device online ip self (before ++ mac :: after)
  = Some (Return (Some (if String.eqb device_type "XI5" then mac
                        else ip mac device_type))).
Proof.
  intros Hinit Hdt Hon Hoff.
  apply Device_init_Return in Hinit as (pt & p & e & ->).
  unfold find_online_device. rewrite device_attrs_type.
  rewrite find_loop_last_online by (done || lia).
  unfold found_value.
  repeat (apply elem_of_cons in Hdt as [->|Hdt]); [done..|].
  by apply elem_of_nil in Hdt.
Qed.

Lemma find_online_device_last_online_witness :
  find_online_device Sample.only_macB Sample.ip_of Sample.xb3
    (["macA"; "macB"] ++ "macB" :: ["macC"])
  = Some (Return (Some (if String.eqb "XB3" "XI5" then "macB"
                        else Sample.ip_of "macB" "XB3"))).
Proof.
  apply (find_online_device_last_online Sample.tables "XB3").
  - exact sample_xb3.
  - set_solver.
  - reflexivity.
  - repeat constructor.
Defined.

(** X4. For a device type outside the five, a candidate that is online ends
    the loop and nothing is returned. *)
Theorem find_online_device_unsupported_type
    tables device_type self online ip (before after : list string) mac :
  Device_init tables device_type = Return self ->
  device_type ∉ ["XB3"; "XB6"; "XF3"; "XI5"; "XG"] ->
  online mac = true ->
  Forall (fun m => online m = false) after ->
  find_online_device online ip self (before ++ mac :: after)
  = Some (Return None).
Proof.
  intros Hinit Hdt Hon Hoff.
  apply Device_init_Return in Hinit as (pt & p & e & ->).
  unfold find_online_device. rewrite device_attrs_type.
  rewrite find_loop_last_online by (done || lia).
  unfold found_value.
  destruct (String.eqb_spec device_type "XI5") as [->|_]; [set_solver|].
  destruct (in_list device_type ["XB3"; "XB6"; "XF3"; "XG"]) eqn:E; [|done].
  apply in_list_elem_of in E. set_solver.
Qed.

Lemma find_online_device_unsupported_type_witness :
  find_online_device Sample.only_macB Sample.ip_of Sample2.xb7
    (["macA"] ++ "macB" :: ["macC"])
  = Some (Return None).
Proof.
  apply (find_online_device_unsupported_type Sample2.tables_xb7 "XB7").
  - by apply Device_init_lookup.
  - set_solver.
  - reflexivity.
  - repeat constructor.
Defined.

(* ===================================================================== *)
(** * Lines of a text file *)
(* ===================================================================== *)

Lemma line_break_length s r :
  line_break s = Some r -> String.length r < String.length s.
Proof.
  unfold line_break. intros H.
  repeat case_match; simplify_eq; simpl; lia.
Qed.

Lemma splitlines_from_fuel f1 f2 s :
  String.length s < f1 -> String.length s < f2 ->
  splitlines_from f1 s = splitlines_from f2 s.
Proof.
  revert f2 s; induction f1 as [|f1 IH]; intros f2 s H1 H2; [lia|].
  destruct f2 as [|f2]; [lia|].
  cbn [splitlines_from].
  destruct (line_break s) as [rest|] eqn:E.
  - apply line_break_length in E. f_equal. apply IH; lia.
  - destruct s as [|c s]; [reflexivity|]. simpl in H1, H2.
    rewrite (IH f2 s) by lia. reflexivity.
Qed.

Lemma splitlines_eq s :
  splitlines s =
  match line_break s with
  | Some rest => EmptyString :: splitlines rest
  | None =>
      match s with
      | EmptyString => []
      | String c s' =>
          match splitlines s' with
          | line :: lines => String c line :: lines
          | [] => [String c EmptyString]
          end
      end
  end.
Proof.
  unfold splitlines.
  change (splitlines_from (S (String.length s)) s)
    with (match line_break s with
          | Some rest => EmptyString :: splitlines_from (String.length s) rest
          | None =>
              match s with
              | EmptyString => []
              | String c s' =>
                  match splitlines_from (String.length s) s' with
                  | line :: lines => String c line :: lines
                  | [] => [String c EmptyString]
                  end
              end
          end).
  destruct (line_break s) as [rest|] eqn:E.
  - apply line_break_length in E. f_equal. apply splitlines_from_fuel; lia.
  - destruct s as [|c s]; reflexivity.
Qed.

Lemma unbroken_cons c w :
  unbroken (String c w) = true ->
  line_break (String c w) = None /\ unbroken w = true.
Proof.
  cbn [unbroken]. destruct (line_break (String c w)); [done|]. by split.
Qed.

(** A line feed after a text does not make a boundary start inside
    the text. *)
Lemma line_break_before_LF c w R :
  line_break (String c w) = None ->
  line_break (String c w +:+ String LF R) = None.
Proof.
  rewrite append_cons. unfold line_break.
  destruct (Ascii.eqb c CR); [by destruct w as [|d w]; [|destruct (Ascii.eqb d LF)]|].
  destruct (_ || _); [done|].
  destruct (Ascii.eqb c "194").
  { destruct w as [|d w]; [done|]. rewrite append_cons.
    by destruct (Ascii.eqb d "133"). }
  destruct (Ascii.eqb c "226"); [|done].
  destruct w as [|d [|e w]]; rewrite ?append_cons, ?append_nil_l.
  - by destruct R.
  - destruct (Ascii.eqb d "128"); done.
  - by destruct (_ && _).
Qed.

Lemma line_break_not_CR c w :
  line_break (String c w) = None -> Ascii.eqb c CR = false.
Proof.
  unfold line_break. destruct (Ascii.eqb c CR); [|done].
  by destruct w as [|d w]; [|destruct (Ascii.eqb d LF)].
Qed.

Lemma splitlines_line w R :
  unbroken w = true ->
  splitlines (w +:+ String LF R) = w :: splitlines R.
Proof.
  induction w as [|c w IH]; intros Hw.
  - rewrite append_nil_l, splitlines_eq. reflexivity.
  - apply unbroken_cons in Hw as [Hc Hw].
    rewrite splitlines_eq, line_break_before_LF by done.
    rewrite append_cons. by rewrite IH.
Qed.

Lemma splitlines_last w :
  unbroken w = true -> w <> EmptyString -> splitlines w = [w].
Proof.
  induction w as [|c w IH]; intros Hw Hne; [done|].
  apply unbroken_cons in Hw as [Hc Hw].
  rewrite splitlines_eq, Hc.
  destruct w as [|d w]; [reflexivity|]. by rewrite IH.
Qed.

Lemma universal_newlines_line w R :
  unbroken w = true ->
  universal_newlines (w +:+ R) = w +:+ universal_newlines R.
Proof.
  induction w as [|c w IH]; intros Hw; [reflexivity|].
  apply unbroken_cons in Hw as [Hc Hw].
  rewrite !append_cons. cbn [universal_newlines].
  rewrite (line_break_not_CR _ _ Hc). by rewrite IH.
Qed.

Lemma universal_newlines_join l :
  Forall (fun w => unbroken w = true) l ->
  universal_newlines (join (String LF EmptyString) l)
  = join (String LF EmptyString) l.
Proof.
  induction 1 as [|w l Hw _ IH]; [reflexivity|].
  destruct l as [|w' l].
  - cbn [join]. rewrite <- (append_nil_r w) at 1.
    rewrite universal_newlines_line by done. by rewrite append_nil_r.
  - cbn [join] in *. rewrite universal_newlines_line by done.
    rewrite append_cons, append_nil_l. cbn [universal_newlines].
    replace (Ascii.eqb LF CR) with false by done. by rewrite IH.
Qed.

(** Reading what [join] wrote gives the lines back, except an empty
    last line. *)
Lemma read_join l :
  Forall (fun w => unbroken w = true) l ->
  splitlines (universal_newlines (join (String LF EmptyString) l))
  = lines_kept l.
Proof.
  intros Hl. rewrite universal_newlines_join by done.
  induction Hl as [|w l Hw _ IH]; [reflexivity|].
  destruct l as [|w' l].
  - cbn [join]. unfold lines_kept. cbn [last removelast].
    destruct w as [|c w]; [reflexivity|]. by apply splitlines_last.
  - cbn [join] in *. rewrite append_cons, append_nil_l.
    rewrite splitlines_line by done. rewrite IH.
    unfold lines_kept. change (last (w :: w' :: l)) with (last (w' :: l)).
    destruct (last (w' :: l)) as [[|]|]; reflexivity.
Qed.

Lemma lines_kept_same l : last l <> Some EmptyString -> lines_kept l = l.
Proof. unfold lines_kept. by destruct (last l) as [[|]|]. Qed.

Lemma lines_kept_subseteq l : lines_kept l ⊆ l.
Proof.
  unfold lines_kept. destruct (last l) as [[|]|]; try done.
  intros x Hx. destruct l as [|y l _] using rev_ind; [done|].
  rewrite removelast_last in Hx. set_solver.
Qed.

(* ===================================================================== *)
(** * The file of addresses *)
(* ===================================================================== *)

Lemma mapM_id_Some {A} (l : list A) : mapM id (Some <$> l) = Some l.
Proof. apply mapM_Some. induction l; constructor; done. Qed.

Lemma mapM_id_None {A} (l : list (option A)) : None ∈ l -> mapM id l = None.
Proof.
  intros H. apply mapM_None. apply Exists_exists. by exists None.
Qed.

Lemma device_attrs_macs_query dt pt p e :
  get_splunk_macs_query (device_attrs dt pt p e) = Return (splunk_query_macs e).
Proof. reflexivity. Qed.

Lemma device_attrs_local_macs_path dt pt p e :
  local_macs_path (device_attrs dt pt p e)
  = Return ("/home/mhealy066/scripts/TelemetryProject/static/device_addresses/"
            +:+ dt +:+ ".txt").
Proof. reflexivity. Qed.

Lemma records_column_all (events : list (gmap string string)) column cells :
  events <> [] ->
  Forall2 (fun ev cell => ev !! column = Some cell) events cells ->
  records_column events column = Return (Some <$> cells).
Proof.
  intros Hne H. unfold records_column.
  assert (map (fun ev => ev !! column) events = Some <$> cells) as ->.
  { clear Hne. induction H as [|ev cell events cells Hev _ IH]; [done|].
    change (map (fun ev0 => ev0 !! column) (ev :: events))
      with ((ev !! column) :: map (fun ev0 => ev0 !! column) events).
    rewrite Hev, IH. reflexivity. }
  destruct H as [|ev cell events cells Hev _]; [done|].
  cbn [existsb]. rewrite Hev. by rewrite bool_decide_eq_true_2.
Qed.

(** X5. [get_macs] sends the query of the tables and returns the [mac]
    column in the order of the records; with no record at all it raises
    [KeyError] on the column. *)
Theorem get_macs_column
    tables device_type product_type p e oneshot self :
  device_types tables !! device_type = Some product_type ->
  device_dict tables !! product_type = Some p ->
  devices p !! device_type = Some e ->
  Device_init tables device_type = Return self ->
  (oneshot (splunk_query_macs e) = [] ->
   get_macs oneshot self = Raise (KeyError "mac"))
  /\ (forall macs,
        oneshot (splunk_query_macs e) <> [] ->
        Forall2 (fun ev mac => ev !! "mac" = Some mac)
                (oneshot (splunk_query_macs e)) macs ->
        get_macs oneshot self = Return (Some <$> macs)).
Proof.
  intros Et Ep Ee Hinit.
  rewrite (Device_init_lookup _ _ _ _ _ Et Ep Ee) in Hinit.
  injection Hinit as <-.
  unfold get_macs. rewrite device_attrs_macs_query. cbn [mbind result_bind].
  split.
  - by intros ->.
  - intros macs Hne H. by apply records_column_all.
Qed.

Lemma get_macs_column_witness :
  (Sample2.two_records (splunk_query_macs (Sample.conf "XB3")) = [] ->
   get_macs Sample2.two_records Sample.xb3 = Raise (KeyError "mac"))
  /\ (forall macs,
        Sample2.two_records (splunk_query_macs (Sample.conf "XB3")) <> [] ->
        Forall2 (fun ev mac => ev !! "mac" = Some mac)
                (Sample2.two_records (splunk_query_macs (Sample.conf "XB3")))
                macs ->
        get_macs Sample2.two_records Sample.xb3 = Return (Some <$> macs)).
Proof.
  apply (get_macs_column Sample.tables "XB3" "RDK-B" Sample.rdk_b
           (Sample.conf "XB3")); reflexivity.
Defined.

Section MacsFile.
Variable oneshot : string -> list (gmap string string).
Variable ecm_to_estb : option string -> option string.

Lemma write_macs_eq dt pt p e fs :
  write_macs_to_local_file oneshot ecm_to_estb fs (device_attrs dt pt p e)
  = (cells ← lift (get_macs oneshot (device_attrs dt pt p e));
     macs_string ← join_checked (String LF EmptyString) (map ecm_to_estb cells);
     Done (<["/home/mhealy066/scripts/TelemetryProject/static/device_addresses/"
             +:+ dt +:+ ".txt" := macs_string]> fs)).
Proof.
  unfold write_macs_to_local_file.
  destruct (lift (get_macs oneshot (device_attrs dt pt p e))) as [cells|];
    [|done].
  cbn [mbind io_bind].
  destruct (join_checked _ _); [|done].
  cbn [mbind io_bind]. by rewrite device_attrs_local_macs_path.
Qed.
End MacsFile.

(** X6. [write_macs_to_local_file] raises [TypeError], and writes nothing,
    as soon as one conversion gives [False]. *)
Theorem write_macs_failed_conversion
    tables device_type self oneshot ecm_to_estb fs cells cell :
  Device_init tables device_type = Return self ->
  get_macs oneshot self = Return cells ->
  cell ∈ cells -> ecm_to_estb cell = None ->
  write_macs_to_local_file oneshot ecm_to_estb fs self = Failed TypeError.
Proof.
  intros Hinit Hmacs Hin Hnone.
  apply Device_init_Return in Hinit as (pt & p & e & ->).
  rewrite write_macs_eq, Hmacs. cbn [lift mbind io_bind].
  unfold join_checked. rewrite mapM_id_None; [done|].
  rewrite <- Hnone. by apply (list_elem_of_fmap_2 ecm_to_estb).
Qed.

(** X7. When every conversion succeeds the file of the device type
    holds the converted addresses joined by line feeds and the other
    files are untouched.  The read at the start of [find_online_device]
    then gives the addresses back, in order, provided they hold no line
    boundary and the last one is not empty. *)
Theorem write_then_read_macs
    tables device_type self oneshot ecm_to_estb fs cells lines :
  Device_init tables device_type = Return self ->
  get_macs oneshot self = Return cells ->
  map ecm_to_estb cells = Some <$> lines ->
  exists path,
    local_macs_path self = Return path
    /\ write_macs_to_local_file oneshot ecm_to_estb fs self
       = Done (<[path := join (String LF EmptyString) lines]> fs)
    /\ (forall other, other <> path ->
          (<[path := join (String LF EmptyString) lines]> fs) !! other
          = fs !! other)
    /\ (Forall (fun w => unbroken w = true) lines ->
        last lines <> Some EmptyString ->
        read_macs (<[path := join (String LF EmptyString) lines]> fs) self
        = Done lines).
Proof.
  intros Hinit Hmacs Hconv.
  apply Device_init_Return in Hinit as (pt & p & e & ->).
  eexists. split; [apply device_attrs_local_macs_path|].
  rewrite write_macs_eq, Hmacs. cbn [lift mbind io_bind].
  unfold join_checked. rewrite Hconv, mapM_id_Some. cbn [mbind io_bind].
  split; [reflexivity|]. split.
  - intros other Hother. by apply lookup_insert_ne.
  - intros Hplain Hlast.
    unfold read_macs. rewrite device_attrs_local_macs_path.
    cbn [lift mbind io_bind]. rewrite lookup_insert_eq.
    by rewrite read_join, lines_kept_same.
Qed.

Lemma write_macs_failed_conversion_witness :
  write_macs_to_local_file Sample2.one_incomplete Sample2.to_estb ∅ Sample.xb3
  = Failed TypeError.
Proof.
  apply (write_macs_failed_conversion Sample.tables "XB3" Sample.xb3
           Sample2.one_incomplete Sample2.to_estb ∅
           [Some "14:CF:E2:00:00:0A"; None] None).
  - exact sample_xb3.
  - vm_compute. reflexivity.
  - set_solver.
  - reflexivity.
Defined.

Lemma write_then_read_macs_witness :
  exists path,
    local_macs_path Sample.xb3 = Return path
    /\ write_macs_to_local_file Sample2.two_records Sample2.to_estb ∅ Sample.xb3
       = Done (<[path := join (String LF EmptyString)
                          ["14:CF:E2:00:00:0C"; "14:CF:E2:00:00:1C"]]> ∅)
    /\ (forall other, other <> path ->
          (<[path := join (String LF EmptyString)
                       ["14:CF:E2:00:00:0C"; "14:CF:E2:00:00:1C"]]>
             (∅ : files)) !! other
          = (∅ : files) !! other)
    /\ (Forall (fun w => unbroken w = true)
               ["14:CF:E2:00:00:0C"; "14:CF:E2:00:00:1C"] ->
        last ["14:CF:E2:00:00:0C"; "14:CF:E2:00:00:1C"] <> Some EmptyString ->
        read_macs
          (<[path := join (String LF EmptyString)
                       ["14:CF:E2:00:00:0C"; "14:CF:E2:00:00:1C"]]> ∅)
          Sample.xb3
        = Done ["14:CF:E2:00:00:0C"; "14:CF:E2:00:00:1C"]).
Proof.
  apply (write_then_read_macs Sample.tables "XB3" Sample.xb3
           Sample2.two_records Sample2.to_estb ∅
           [Some "14:CF:E2:00:00:0A"; Some "14:CF:E2:00:00:1B"]).
  - exact sample_xb3.
  - vm_compute. reflexivity.
  - reflexivity.
Defined.

(** X8. When no converted address holds a line boundary, whatever the
    finder returns after the file was written comes from an address of
    [get_macs] whose conversion is online. *)
Theorem find_online_device_after_write
    tables device_type self oneshot ecm_to_estb fs fs' cells lines
    online ip shuffled r :
  Device_init tables device_type = Return self ->
  get_macs oneshot self = Return cells ->
  write_macs_to_local_file oneshot ecm_to_estb fs self = Done fs' ->
  Forall (fun cell => forall w, ecm_to_estb cell = Some w ->
                                unbroken w = true) cells ->
  read_macs fs' self = Done lines ->
  lines ≡ₚ shuffled ->
  find_online_device online ip self shuffled = Some (Return (Some r)) ->
  exists cell mac,
    cell ∈ cells /\ ecm_to_estb cell = Some mac /\ online mac = true /\
    ((device_type = "XI5" /\ r = mac) \/
     (device_type ∈ ["XB3"; "XB6"; "XF3"; "XG"] /\ r = ip mac device_type)).
Proof.
  intros Hinit Hmacs Hwrite Hplain Hread Hperm Hfind.
  assert (exists ws, map ecm_to_estb cells = Some <$> ws) as [ws Hws].
  { pose proof Hinit as Hi.
    apply Device_init_Return in Hi as (pt & p & e & ->).
    rewrite write_macs_eq, Hmacs in Hwrite. cbn [lift mbind io_bind] in Hwrite.
    unfold join_checked in Hwrite.
    destruct (mapM id (map ecm_to_estb cells)) as [ws|] eqn:E; [|done].
    exists ws. apply mapM_Some in E. clear -E.
    induction E as [|x w l ws Hx _ IH]; [done|]. cbn in Hx.
    change (Some <$> w :: ws) with (Some w :: (Some <$> ws)).
    by rewrite Hx, IH. }
  assert (Forall (fun w => unbroken w = true) ws) as Hws_plain.
  { clear -Hws Hplain. revert ws Hws.
    induction Hplain as [|cell cells Hc _ IH]; intros [|w ws] Hws;
      try done.
    injection Hws as Hw Hws. constructor; [by apply Hc|by apply IH]. }
  apply Device_init_Return in Hinit as (pt & p & e & ->).
  rewrite write_macs_eq, Hmacs in Hwrite. cbn [lift mbind io_bind] in Hwrite.
  unfold join_checked in Hwrite. rewrite Hws, mapM_id_Some in Hwrite.
  cbn [mbind io_bind] in Hwrite. injection Hwrite as <-.
  unfold read_macs in Hread. rewrite device_attrs_local_macs_path in Hread.
  cbn [lift mbind io_bind] in Hread. rewrite lookup_insert_eq in Hread.
  rewrite read_join in Hread by done. injection Hread as <-.
  unfold find_online_device in Hfind. rewrite device_attrs_type in Hfind.
  apply find_loop_Return in Hfind as (mac & Hmac & Hon & Hr).
  rewrite <- Hperm in Hmac. apply lines_kept_subseteq in Hmac.
  assert (Some mac ∈ map ecm_to_estb cells) as Hin.
  { rewrite Hws. by apply (list_elem_of_fmap_2 Some). }
  apply list_elem_of_fmap in Hin as (cell & Hcell & Hin).
  by exists cell, mac.
Qed.

Lemma find_online_device_after_write_witness :
  exists cell mac,
    cell ∈ [Some "14:CF:E2:00:00:0A"; Some "14:CF:E2:00:00:1B"]
    /\ Sample2.to_estb cell = Some mac
    /\ String.eqb "14:CF:E2:00:00:1C" mac = true /\
    (("XB3" = "XI5" /\ Sample.ip_of "14:CF:E2:00:00:1C" "XB3" = mac) \/
     ("XB3" ∈ ["XB3"; "XB6"; "XF3"; "XG"]
      /\ Sample.ip_of "14:CF:E2:00:00:1C" "XB3" = Sample.ip_of mac "XB3")).
Proof.
  apply (find_online_device_after_write Sample.tables "XB3" Sample.xb3
           Sample2.two_records Sample2.to_estb ∅
           (<["/home/mhealy066/scripts/TelemetryProject/static/device_addresses/XB3.txt"
              := join (String LF EmptyString)
                   ["14:CF:E2:00:00:0C"; "14:CF:E2:00:00:1C"]]> ∅)
           [Some "14:CF:E2:00:00:0A"; Some "14:CF:E2:00:00:1B"]
           ["14:CF:E2:00:00:0C"; "14:CF:E2:00:00:1C"]
           (String.eqb "14:CF:E2:00:00:1C") Sample.ip_of
           ["14:CF:E2:00:00:1C"; "14:CF:E2:00:00:0C"]).
  - exact sample_xb3.
  - vm_compute. reflexivity.
  - vm_compute. reflexivity.
  - constructor; [intros w [= <-]; reflexivity|].
    constructor; [intros w [= <-]; reflexivity|]. constructor.
  - vm_compute. reflexivity.
  - apply perm_swap.
  - vm_compute. reflexivity.
Defined.

(* ===================================================================== *)
(** * The kernel panic report *)
(* ===================================================================== *)

Lemma insert_sorted_perm x l : insert_sorted x l ≡ₚ x :: l.
Proof.
  induction l as [|y l IH]; [done|]. cbn [insert_sorted].
  destruct (String.compare x y); [done|done|].
  rewrite IH. apply perm_swap.
Qed.

Lemma sorted_perm l : sorted l ≡ₚ l.
Proof.
  induction l as [|x l IH]; [done|]. cbn [sorted foldr].
  fold (sorted l). by rewrite insert_sorted_perm, IH.
Qed.

Lemma compare_Gt_le x y : String.compare x y = Gt -> str_le y x.
Proof.
  intros H. unfold str_le. rewrite String.compare_antisym, H. discriminate.
Qed.

Lemma insert_sorted_Sorted x l :
  Sorted str_le l -> Sorted str_le (insert_sorted x l).
Proof.
  induction 1 as [|y l Hl IH Hhd]; [repeat constructor|].
  cbn [insert_sorted].
  destruct (String.compare x y) eqn:E.
  - repeat constructor; [done|done|unfold str_le; by rewrite E].
  - repeat constructor; [done|done|unfold str_le; by rewrite E].
  - constructor; [done|].
    destruct l as [|z l]; cbn [insert_sorted].
    + constructor. by apply compare_Gt_le.
    + destruct (String.compare x z); constructor;
        try (by apply compare_Gt_le); by inversion Hhd.
Qed.

Lemma sorted_Sorted l : Sorted str_le (sorted l).
Proof.
  induction l as [|x l IH]; [constructor|].
  cbn [sorted foldr]. by apply insert_sorted_Sorted.
Qed.

Lemma omap_id_map {A B} (f : A -> option B) l : omap id (map f l) = omap f l.
Proof. induction l as [|x l IH]; [done|]. cbn. by rewrite IH. Qed.

Lemma mac_fields_all (dict_list : list (gmap string string)) macs :
  Forall2 (fun elem mac => elem !! "mac" = Some mac) dict_list macs ->
  mac_fields dict_list = Return macs.
Proof.
  induction 1 as [|elem mac dict_list macs Hm _ IH]; [done|].
  cbn [mac_fields]. unfold subscript. rewrite Hm. cbn [mbind result_bind].
  by rewrite IH.
Qed.

Lemma mac_fields_missing (dict_list : list (gmap string string)) elem :
  elem ∈ dict_list -> elem !! "mac" = None ->
  mac_fields dict_list = Raise (KeyError "mac").
Proof.
  intros Hin Hnone. induction dict_list as [|x l IH]; [by apply elem_of_nil in Hin|].
  cbn [mac_fields]. unfold subscript.
  apply elem_of_cons in Hin as [<-|Hin].
  - by rewrite Hnone.
  - destruct (x !! "mac"); [|done]. cbn [mbind result_bind].
    by rewrite IH.
Qed.

(** X9. [write_to_file] writes, joined by line feeds, the conversions
    that did not fail, in sorted order: the lines it joins are sorted and
    are a permutation of these conversions. *)
Theorem write_to_file_sorted_lines
    ecm_to_estb (dict_list : list (gmap string string)) macs :
  Forall2 (fun elem mac => elem !! "mac" = Some mac) dict_list macs ->
  exists lines,
    write_to_file ecm_to_estb dict_list
    = Return (join (String LF EmptyString) lines)
    /\ Sorted str_le lines
    /\ lines ≡ₚ omap ecm_to_estb macs.
Proof.
  intros Hmacs. exists (estb_lines ecm_to_estb macs).
  unfold write_to_file. rewrite (mac_fields_all _ _ Hmacs).
  split; [reflexivity|]. unfold estb_lines. rewrite omap_id_map.
  split; [apply sorted_Sorted|apply sorted_perm].
Qed.

Lemma write_to_file_sorted_lines_witness :
  exists lines,
    write_to_file Sample2.to_estb_str
      [Sample2.record "14:CF:E2:00:00:2A"; Sample2.record "14:CF:E2:00:00:1B";
       Sample2.record "14:CF:E2:00:00:0A"]
    = Return (join (String LF EmptyString) lines)
    /\ Sorted str_le lines
    /\ lines ≡ₚ omap Sample2.to_estb_str
                  ["14:CF:E2:00:00:2A"; "14:CF:E2:00:00:1B"; "14:CF:E2:00:00:0A"].
Proof.
  apply (write_to_file_sorted_lines Sample2.to_estb_str).
  repeat constructor.
Defined.

(** X10. A record without the [mac] field makes [write_to_file] raise
    [KeyError] before anything is written. *)
Theorem write_to_file_missing_mac
    ecm_to_estb (dict_list : list (gmap string string)) elem :
  elem ∈ dict_list -> elem !! "mac" = None ->
  write_to_file ecm_to_estb dict_list = Raise (KeyError "mac").
Proof.
  intros Hin Hnone. unfold write_to_file.
  by rewrite (mac_fields_missing _ _ Hin Hnone).
Qed.

Lemma write_to_file_missing_mac_witness :
  write_to_file Sample2.to_estb_str
    [Sample2.record "14:CF:E2:00:00:2A"; {[ "count" := "1" ]}]
  = Raise (KeyError "mac").
Proof.
  apply (write_to_file_missing_mac Sample2.to_estb_str _ {[ "count" := "1" ]}).
  - set_solver.
  - reflexivity.
Defined.

(* ===================================================================== *)
(** * The pieces of [split] and the payload of a line *)
(* ===================================================================== *)

Lemma strip_prefix_app_Some p u x r :
  strip_prefix p u = Some r -> strip_prefix p (u +:+ x) = Some (r +:+ x).
Proof.
  revert u; induction p as [|a p IH]; intros u H; simpl in H.
  - by injection H as ->.
  - destruct u as [|c u]; [done|]. rewrite append_cons, strip_prefix_cons.
    destruct (Ascii.eqb a c); [by apply IH|done].
Qed.

Lemma strip_prefix_app_None p u x :
  strip_prefix p (u +:+ x) = None -> strip_prefix p u = None.
Proof.
  intros H. destruct (strip_prefix p u) as [r|] eqn:E; [|done].
  by rewrite (strip_prefix_app_Some _ _ x _ E) in H.
Qed.

Lemma contains_app_l sub u x :
  contains sub (u +:+ x) = false -> contains sub u = false.
Proof.
  induction u as [|c u IH]; intros H.
  - rewrite append_nil_l in H. cbn [contains].
    destruct (strip_prefix sub EmptyString) as [r|] eqn:E; [|done].
    destruct sub; [|done]. by destruct x.
  - rewrite append_cons in H. cbn [contains] in *.
    destruct (strip_prefix sub (String c (u +:+ x))) eqn:E; [done|].
    rewrite <- append_cons in E. apply strip_prefix_app_None in E.
    rewrite E. by apply IH.
Qed.

Section SplitFacts.
Variable a : ascii.
Variable sep' : string.
Let sep := String a sep'.

(** The pieces of [split]: there is at least one, none holds the
    separator, and joined by the separator they give the text back. *)
Lemma split_from_pieces f s :
  String.length s < f ->
  split_from f sep s <> []
  /\ join sep (split_from f sep s) = s
  /\ Forall (fun piece => contains sep piece = false) (split_from f sep s).
Proof.
  revert s; induction f as [|f IH]; intros s Hf; [lia|].
  cbn [split_from].
  destruct (strip_prefix sep s) as [rest|] eqn:E.
  - pose proof (strip_prefix_length _ _ _ E) as Hlen.
    apply strip_prefix_Some in E. subst s.
    destruct (IH rest) as (Hne & Hj & Hc);
      [rewrite Hlen in Hf; unfold sep in Hf; simpl in Hf; lia|].
    split; [done|]. split.
    + destruct (split_from f sep rest) as [|x l]; [done|].
      cbn [join] in *. by rewrite append_nil_l, Hj.
    + by constructor.
  - destruct s as [|c s]; [by repeat constructor|].
    destruct (IH s) as (Hne & Hj & Hc); [simpl in Hf; lia|].
    destruct (split_from f sep s) as [|piece pieces]; [done|].
    split; [done|].
    assert (join sep (String c piece :: pieces) = String c s) as Hj'.
    { destruct pieces as [|p2 ps]; cbn [join] in *; by rewrite ?append_cons, Hj. }
    split; [done|].
    apply Forall_cons in Hc as [Hp Hps]. constructor; [|done].
    cbn [contains]. rewrite Hp.
    assert (strip_prefix sep (String c piece) = None) as ->; [|done].
    destruct pieces as [|p2 ps]; cbn [join] in Hj'.
    + by rewrite Hj'.
    + rewrite <- Hj' in E. by apply strip_prefix_app_None in E.
Qed.

Lemma split_from_absent f s :
  String.length s < f -> contains sep s = false -> split_from f sep s = [s].
Proof.
  revert s; induction f as [|f IH]; intros s Hf Hc; [lia|].
  cbn [split_from]. destruct s as [|c s]; [done|].
  cbn [contains] in Hc.
  destruct (strip_prefix sep (String c s)); [done|].
  rewrite IH; [done|simpl in Hf; lia|done].
Qed.
End SplitFacts.

(** Where the two splits cut the line. *)
Lemma payload_of_position line payload :
  payload_of line = Return payload ->
  exists before after,
    line = before +:+ key_marker +:+ payload +:+ after
    /\ contains key_marker before = false
    /\ contains key_marker payload = false
    /\ contains trailing_marker payload = false
    /\ (after = EmptyString
        \/ (exists x, after = trailing_marker +:+ x)
        \/ (exists x, after = key_marker +:+ x)).
Proof.
  unfold payload_of, split, index.
  change key_marker with (String "t" (String.substring 1 100 key_marker)).
  change trailing_marker with (String "," (String.substring 1 100 trailing_marker)).
  cbn [mbind result_bind].
  destruct (split_from_pieces "t" (String.substring 1 100 key_marker)
              (S (String.length line)) line) as (_ & Hj & Hc); [lia|].
  destruct (split_from _ _ line) as [|before [|piece pieces]]; [done|done|].
  cbn [lookup list_lookup mbind result_bind].
  destruct (split_from_pieces "," (String.substring 1 100 trailing_marker)
              (S (String.length piece)) piece) as (_ & Hj2 & Hc2); [lia|].
  destruct (split_from _ _ piece) as [|p parts]; [done|].
  cbn [lookup list_lookup]. intros [= ->].
  apply Forall_cons in Hc as [Hb Hc]. apply Forall_cons in Hc as [Hp _].
  apply Forall_cons in Hc2 as [Hp2 _].
  assert (exists x, piece = payload +:+ x /\
            (x = EmptyString \/
             exists y, x = String "," (String.substring 1 100 trailing_marker) +:+ y))
    as (x & Hx & Hxcase).
  { destruct parts as [|q qs]; cbn [join] in Hj2.
    - exists EmptyString. rewrite append_nil_r. split; [done|by left].
    - eexists. split; [symmetry; exact Hj2|]. right. by eexists. }
  exists before.
  destruct pieces as [|q qs]; cbn [join] in Hj.
  - exists x. rewrite <- Hj, Hx. split; [done|]. split; [done|].
    split; [rewrite Hx in Hp; by apply contains_app_l in Hp|].
    split; [done|]. destruct Hxcase as [->|[y ->]]; [by left|right; left; by eexists].
  - eexists (x +:+ _). split.
    { rewrite <- Hj, Hx, append_assoc. reflexivity. }
    split; [done|].
    split; [rewrite Hx in Hp; by apply contains_app_l in Hp|].
    split; [done|].
    destruct Hxcase as [->|[y ->]].
    + right. right. rewrite append_nil_l. by eexists.
    + right. left. rewrite append_assoc. by eexists.
Qed.

Lemma payload_of_absent line :
  contains key_marker line = false -> payload_of line = Raise IndexError.
Proof.
  unfold payload_of, split, index.
  change key_marker with (String "t" (String.substring 1 100 key_marker)).
  cbn [mbind result_bind].
  intros H. rewrite split_from_absent by (done || lia). reflexivity.
Qed.

Lemma payload_of_present line :
  contains key_marker line = true ->
  exists payload, payload_of line = Return payload.
Proof.
  unfold payload_of, split, index.
  change key_marker with (String "t" (String.substring 1 100 key_marker)).
  change trailing_marker with (String "," (String.substring 1 100 trailing_marker)).
  cbn [mbind result_bind]. intros H.
  destruct (split_from_pieces "t" (String.substring 1 100 key_marker)
              (S (String.length line)) line) as (Hne & Hj & Hc); [lia|].
  destruct (split_from _ _ line) as [|before [|piece pieces]]; [done|..].
  - cbn [join] in Hj. subst before.
    apply Forall_cons in Hc as [Hc _]. congruence.
  - cbn [lookup list_lookup mbind result_bind].
    destruct (split_from_pieces "," (String.substring 1 100 trailing_marker)
                (S (String.length piece)) piece) as (Hne2 & _); [lia|].
    destruct (split_from _ _ piece) as [|p parts]; [done|].
    by exists p.
Qed.

(** X11. The payload, when there is one, stands in the line right after an
    occurrence of the key marker, holds neither marker, and is followed
    by the end of the line or by one of the two markers. *)
Theorem payload_of_Return line payload :
  payload_of line = Return payload ->
  exists before after,
    line = before +:+ key_marker +:+ payload +:+ after
    /\ contains key_marker before = false
    /\ contains key_marker payload = false
    /\ contains trailing_marker payload = false
    /\ (after = EmptyString
        \/ (exists x, after = trailing_marker +:+ x)
        \/ (exists x, after = key_marker +:+ x)).
Proof. apply payload_of_position. Qed.

(** C4, as the claim states it, fails: the first line that holds the
    sentinel need not hold the key marker.  The first split then gives
    one piece, nothing is isolated or decoded, and the extractor raises
    [IndexError] although a later line carries a payload that decodes. *)
Lemma parse_configs_sentinel_without_key_marker :
  contains sentinel Sample.bare_line = true
  /\ split Sample.bare_line key_marker = Return [Sample.bare_line]
  /\ parse_configs "XB3"
       [Sample.bare_line; Sample.profile_line Sample.one_marker]
     = ([], Raise IndexError)
  /\ parse_configs "XG"
       [Sample.bare_line; Sample.profile_line Sample.one_marker]
     = ([], Raise IndexError)
  /\ exists jsn_data,
       parse_configs "XB3" [Sample.profile_line Sample.one_marker]
       = ([], Return (Some jsn_data)).
Proof.
  split; [reflexivity|]. split; [vm_compute; reflexivity|].
  split; [vm_compute; reflexivity|]. split; [vm_compute; reflexivity|].
  eexists. vm_compute. reflexivity.
Qed.

(** C4, amended. When the first line that holds the sentinel also holds
    the key marker, the two splits isolate its payload: the text between
    the first key marker of the line and the next marker (or the end of
    the line).  For [XB3], [XB6] and [XF3] the text handed to the JSON
    decoder is the payload with the quoted [cid] pair replaced by [cid:0],
    for [XG] and [XI5] it is what the text normalizer makes of the
    payload.  The extractor returns what this text decodes to; when it
    does not decode, the text is logged and the scan goes on.  On the
    fragment of the specification's example the text for [XB3] is the
    fragment with [cid:0]. *)
Theorem parse_configs_first_sentinel_line device_type pre line post :
  Forall no_sentinel pre ->
  contains sentinel line = true ->
  contains key_marker line = true ->
  exists before payload after,
    payload_of line = Return payload
    /\ line = before +:+ key_marker +:+ payload +:+ after
    /\ contains key_marker before = false
    /\ contains key_marker payload = false
    /\ contains trailing_marker payload = false
    /\ (after = EmptyString
        \/ (exists x, after = trailing_marker +:+ x)
        \/ (exists x, after = key_marker +:+ x))
    /\ (forall parse_data,
          (device_type ∈ ["XB3"; "XB6"; "XF3"]
           /\ parse_data = replace payload cid_quoted "cid:0")
          \/ (device_type ∈ ["XG"; "XI5"]
              /\ parse_data = remove_double_quotes payload) ->
          parse_configs device_type (pre ++ line :: post) =
          match Json.loads parse_data with
          | Some jsn_data => ([], Return (Some jsn_data))
          | None =>
              (LoggedException parse_data :: (parse_configs device_type post).1,
               (parse_configs device_type post).2)
          end)
    /\ parse_configs "XB3" [Sample.profile_line Sample.header_fragment]
       = ([LoggedException Sample.header_fragment_cid], Return None).
Proof.
  intros Hpre Hline Hkey.
  destruct (payload_of_present line Hkey) as [payload Hp].
  destruct (payload_of_position line payload Hp)
    as (before & after & Hcut & Hb & Hk & Ht & Hafter).
  exists before, payload, after.
  do 6 (split; [done|]). split; [|vm_compute; reflexivity].
  intros parse_data Hpd.
  assert (parse_data_of device_type payload = parse_data) as Hof.
  { unfold parse_data_of. destruct Hpd as [[Hdt ->]|[Hdt ->]].
    - apply in_list_elem_of in Hdt. by rewrite Hdt.
    - repeat (apply elem_of_cons in Hdt as [->|Hdt]); [reflexivity..|].
      by apply elem_of_nil in Hdt. }
  rewrite (parse_configs_skip _ _ _ Hpre). cbn [parse_configs].
  rewrite Hline, Hp, Hof.
  destruct (Json.loads parse_data); [reflexivity|].
  destruct (parse_configs device_type post). reflexivity.
Qed.

Lemma parse_configs_first_sentinel_line_witness :
  exists before payload after,
    payload_of (Sample.profile_line Sample.header_fragment) = Return payload
    /\ Sample.profile_line Sample.header_fragment
       = before +:+ key_marker +:+ payload +:+ after
    /\ contains key_marker before = false
    /\ contains key_marker payload = false
    /\ contains trailing_marker payload = false
    /\ (after = EmptyString
        \/ (exists x, after = trailing_marker +:+ x)
        \/ (exists x, after = key_marker +:+ x))
    /\ (forall parse_data,
          ("XB3" ∈ ["XB3"; "XB6"; "XF3"]
           /\ parse_data = replace payload cid_quoted "cid:0")
          \/ ("XB3" ∈ ["XG"; "XI5"]
              /\ parse_data = remove_double_quotes payload) ->
          parse_configs "XB3"
            (["first line"] ++ Sample.profile_line Sample.header_fragment
               :: [Sample.profile_line Sample.one_marker]) =
          match Json.loads parse_data with
          | Some jsn_data => ([], Return (Some jsn_data))
          | None =>
              (LoggedException parse_data
                 :: (parse_configs "XB3"
                       [Sample.profile_line Sample.one_marker]).1,
               (parse_configs "XB3" [Sample.profile_line Sample.one_marker]).2)
          end)
    /\ parse_configs "XB3" [Sample.profile_line Sample.header_fragment]
       = ([LoggedException Sample.header_fragment_cid], Return None).
Proof.
  apply (parse_configs_first_sentinel_line "XB3" ["first line"]
           (Sample.profile_line Sample.header_fragment)
           [Sample.profile_line Sample.one_marker]).
  - repeat constructor.
  - reflexivity.
  - reflexivity.
Defined.

(** X12. [payload_of] raises [IndexError] on a line without the key
    marker, and returns a payload on every other line. *)
Theorem payload_of_IndexError line :
  (contains key_marker line = false -> payload_of line = Raise IndexError)
  /\ (contains key_marker line = true ->
      exists payload, payload_of line = Return payload).
Proof. split; [apply payload_of_absent | apply payload_of_present]. Qed.

(** Lines that are passed over, or whose payload does not decode, only
    add to the log. *)
Lemma parse_configs_after_skipped device_type pre content :
  Forall (skipped device_type) pre ->
  parse_configs device_type (pre ++ content)
  = (logged_failures device_type pre ++ (parse_configs device_type content).1,
     (parse_configs device_type content).2).
Proof.
  induction 1 as [|line pre Hline _ IH].
  - cbn [app logged_failures flat_map]. by destruct (parse_configs _ _).
  - cbn [app parse_configs logged_failures flat_map].
    fold (logged_failures device_type pre).
    destruct Hline as [Hno | (payload & Hp & Hfail)].
    + rewrite Hno. exact IH.
    + destruct (contains sentinel line); [|exact IH].
      rewrite Hp, Hfail, IH. reflexivity.
Qed.

(** X13. The first line that holds the sentinel without the key marker makes
    [parse_configs] raise [IndexError], unless an earlier line gave a
    result. *)
Theorem parse_configs_missing_key_marker device_type pre line post :
  Forall (skipped device_type) pre ->
  contains sentinel line = true ->
  contains key_marker line = false ->
  parse_configs device_type (pre ++ line :: post)
  = (logged_failures device_type pre, Raise IndexError).
Proof.
  intros Hpre Hs Hk. rewrite parse_configs_after_skipped by done.
  cbn [parse_configs]. rewrite Hs.
  rewrite (payload_of_absent line Hk). cbn [fst snd].
  by rewrite app_nil_r.
Qed.

Lemma parse_configs_missing_key_marker_witness :
  parse_configs "XB3"
    (["# comment"; Sample.profile_line Sample.header_fragment]
       ++ Sample.bare_line :: [Sample.profile_line Sample.one_marker])
  = (logged_failures "XB3"
       ["# comment"; Sample.profile_line Sample.header_fragment],
     Raise IndexError).
Proof.
  apply (parse_configs_missing_key_marker "XB3").
  - constructor; [left; reflexivity|].
    constructor;
      [right; exists Sample.header_fragment; split; vm_compute; reflexivity|].
    constructor.
  - reflexivity.
  - reflexivity.
Defined.

(** X14. For a device type outside the five the text handed to the decoder
    is empty, so no line gives a result: every line with the sentinel and
    the key marker is logged and [None] is returned. *)
Theorem parse_configs_unsupported_type device_type content :
  device_type ∉ ["XB3"; "XB6"; "XF3"; "XG"; "XI5"] ->
  Forall (fun line => contains sentinel line = true ->
                      contains key_marker line = true) content ->
  parse_configs device_type content
  = (logged_failures device_type content, Return None)
  /\ Forall (fun ev => ev = LoggedException EmptyString)
            (logged_failures device_type content).
Proof.
  intros Hdt Hkey.
  assert (forall payload, parse_data_of device_type payload = EmptyString) as Hpd.
  { intros payload. unfold parse_data_of.
    destruct (in_list device_type ["XB3"; "XB6"; "XF3"]) eqn:E1.
    { apply in_list_elem_of in E1. set_solver. }
    destruct (String.eqb_spec device_type "XG") as [->|_]; [set_solver|].
    destruct (String.eqb_spec device_type "XI5") as [->|_]; [set_solver|].
    reflexivity. }
  split.
  - apply parse_configs_all_fail.
    eapply Forall_impl; [exact Hkey|]. intros line Hline. cbv beta in Hline.
    destruct (contains sentinel line) eqn:Es; [|by left]. right.
    destruct (payload_of_present line (Hline eq_refl)) as [p Hp].
    exists p. split; [done|]. by rewrite Hpd.
  - clear Hkey. induction content as [|line content IH]; [constructor|].
    cbn [logged_failures flat_map]. fold (logged_failures device_type content).
    apply Forall_app. split; [|exact IH].
    destruct (contains sentinel line); [|constructor].
    destruct (payload_of line); [|constructor].
    constructor; [by rewrite Hpd|constructor].
Qed.

Lemma parse_configs_unsupported_type_witness :
  parse_configs "XB7" ["# comment"; Sample.profile_line Sample.one_marker]
  = (logged_failures "XB7"
       ["# comment"; Sample.profile_line Sample.one_marker], Return None)
  /\ Forall (fun ev => ev = LoggedException EmptyString)
            (logged_failures "XB7"
               ["# comment"; Sample.profile_line Sample.one_marker]).
Proof.
  apply (parse_configs_unsupported_type "XB7").
  - set_solver.
  - constructor; [discriminate|]. constructor; [reflexivity|]. constructor.
Defined.

(** A pattern that does not occur is not replaced. *)
Lemma replace_absent s a old new :
  contains (String a old) s = false -> replace s (String a old) new = s.
Proof.
  induction s as [|c s IH]; intros H; [reflexivity|].
  rewrite replace_eq. cbn [contains] in H.
  destruct (strip_prefix (String a old) (String c s)); [done|].
  by rewrite IH.
Qed.

(** X15. For [XB3], [XB6] and [XF3] a payload without the quoted [cid] pair
    reaches the decoder unchanged: the first line with the sentinel gives
    the value its payload decodes to. *)
Theorem parse_configs_payload_unchanged
    device_type pre line post payload v :
  device_type ∈ ["XB3"; "XB6"; "XF3"] ->
  Forall no_sentinel pre ->
  contains sentinel line = true ->
  payload_of line = Return payload ->
  contains cid_quoted payload = false ->
  Json.loads payload = Some v ->
  parse_data_of device_type payload = payload
  /\ parse_configs device_type (pre ++ line :: post) = ([], Return (Some v)).
Proof.
  intros Hdt Hpre Hs Hp Hcid Hv.
  assert (parse_data_of device_type payload = payload) as Hpd.
  { unfold parse_data_of. apply in_list_elem_of in Hdt. rewrite Hdt.
    change cid_quoted with (String dquote (String.substring 1 100 cid_quoted)) in *.
    by apply replace_absent. }
  split; [done|].
  rewrite (parse_configs_skip _ _ _ Hpre). cbn [parse_configs].
  by rewrite Hs, Hp, Hpd, Hv.
Qed.

Lemma parse_configs_payload_unchanged_witness :
  parse_data_of "XB6" Sample.one_marker = Sample.one_marker
  /\ parse_configs "XB6"
       (["# comment"] ++ Sample.profile_line Sample.one_marker :: ["# end"])
     = ([], Return (Some (Json.JArr
                            [Json.JObj
                               [("header",
                                 Json.JStr "SYS_ERROR_KernelPanic_reboot")]]))).
Proof.
  apply (parse_configs_payload_unchanged "XB6" ["# comment"]
           (Sample.profile_line Sample.one_marker) ["# end"]).
  - set_solver.
  - repeat constructor.
  - reflexivity.
  - vm_compute. reflexivity.
  - reflexivity.
  - vm_compute. reflexivity.
Defined.

Lemma payload_of_Return_witness :
  exists before after,
    Sample.profile_line Sample.header_fragment
    = before +:+ key_marker +:+ Sample.header_fragment +:+ after
    /\ contains key_marker before = false
    /\ contains key_marker Sample.header_fragment = false
    /\ contains trailing_marker Sample.header_fragment = false
    /\ (after = EmptyString
        \/ (exists x, after = trailing_marker +:+ x)
        \/ (exists x, after = key_marker +:+ x)).
Proof.
  apply (payload_of_Return (Sample.profile_line Sample.header_fragment)).
  vm_compute. reflexivity.
Defined.

(* ===================================================================== *)
(** * More on the text normalizer *)
(* ===================================================================== *)

Import Normalizer NormalizerSpec Payload Document.

Lemma has_char_subst_char c d s :
  c <> d -> has_char c (subst_char c d s) = false.
Proof.
  intros Hne. induction s as [|x s IH]; [done|].
  cbn [subst_char has_char]. rewrite IH, orb_false_r.
  destruct (Ascii.eqb_spec c x) as [->|Hx]; by apply Ascii.eqb_neq.
Qed.

(** X16. The result of [__remove_double_quotes] holds no backslash. *)
Theorem remove_double_quotes_no_backslash (raw : string) :
  has_char backslash (remove_double_quotes raw) = false.
Proof.
  rewrite remove_double_quotes_normalize. unfold normalize.
  by apply has_char_subst_char.
Qed.

Lemma strip_prefix_has_char c pat s r :
  strip_prefix pat s = Some r -> has_char c pat = true -> has_char c s = true.
Proof.
  revert s; induction pat as [|a pat IH]; intros s H Hc; [done|].
  destruct s as [|x s]; [done|]. rewrite strip_prefix_cons in H.
  destruct (Ascii.eqb_spec a x) as [->|]; [|done].
  cbn [has_char] in *. apply orb_true_iff in Hc as [->|Hc]; [done|].
  rewrite (IH _ H Hc). apply orb_true_r.
Qed.

Lemma replace_char_absent c s a old new :
  has_char c (String a old) = true -> has_char c s = false ->
  replace s (String a old) new = s.
Proof.
  intros Hp Hs. apply replace_absent.
  induction s as [|x s IH]; cbn [contains].
  - destruct (strip_prefix (String a old) EmptyString) eqn:E; [|done].
    by rewrite (strip_prefix_has_char c _ _ _ E Hp) in Hs.
  - destruct (strip_prefix (String a old) (String x s)) eqn:E.
    + by rewrite (strip_prefix_has_char c _ _ _ E Hp) in Hs.
    + apply IH. cbn [has_char] in Hs. by apply orb_false_iff in Hs as [_ ?].
Qed.

(** X17. On a text without double quote the function only puts the five
    sequences in the place of the token words, and [#] in the place of
    the backslashes. *)
Theorem remove_double_quotes_unquoted (raw : string) :
  has_char dquote raw = false ->
  remove_double_quotes raw
  = subst_char backslash "#" (replace_each restorations raw).
Proof.
  intros Hq. rewrite remove_double_quotes_normalize.
  unfold normalize, replace_each at 2, placeholders.
  cbn [fold_left fst snd].
  assert (forall pat new, has_char dquote pat = true -> replace raw pat new = raw)
    as Hsame.
  { intros [|a pat] new Hp; [done|]. by apply (replace_char_absent dquote). }
  rewrite !Hsame by done.
  by rewrite strip_char_absent.
Qed.

Lemma remove_double_quotes_unquoted_witness :
  remove_double_quotes "karun\gauth"
  = subst_char backslash "#" (replace_each restorations "karun\gauth").
Proof. apply (remove_double_quotes_unquoted "karun\gauth"). reflexivity. Defined.

(** ** Documents without spaced separator *)

Lemma render_no_spaced img img' items :
  (forall j, j <> PSpaced -> img j = img' j) ->
  Forall (fun it => it <> Punct PSpaced) items ->
  render img items = render img' items.
Proof.
  intros Himg. induction 1 as [|[c|j] items Hit _ IH]; [done|..];
    cbn [render]; rewrite IH; [done|].
  rewrite Himg; [done|]. by intros ->.
Qed.

Lemma lits_no_spaced w : Forall (fun it => it <> Punct PSpaced) (lits w).
Proof. unfold lits. apply Forall_fmap, Forall_true. done. Qed.

Lemma entries_no_spaced es :
  Forall (fun e => spaced e = false) es ->
  Forall (fun it => it <> Punct PSpaced) (entries_items es).
Proof.
  induction 1 as [|e es He _ IH]; [constructor|].
  cbn [entries_items]. apply Forall_app. split.
  - unfold entry_items. apply Forall_app. split; [apply lits_no_spaced|].
    constructor; [|apply lits_no_spaced].
    unfold separator. by rewrite He.
  - destruct es; [constructor|]. by constructor.
Qed.

Lemma objects_no_spaced os :
  Forall (Forall (fun e => spaced e = false)) os ->
  Forall (fun it => it <> Punct PSpaced) (objects_items os).
Proof.
  induction 1 as [|o os Ho _ IH]; [constructor|].
  cbn [objects_items]. apply Forall_app. split.
  - unfold object_items. constructor; [done|].
    apply Forall_app. split; [by apply entries_no_spaced|by repeat constructor].
  - destruct os; [constructor|]. by constructor.
Qed.

(** X18. A document written without the spaced separator is returned as it
    is, so normalizing it twice is normalizing it once. *)
Theorem remove_double_quotes_compact (os : list (list entry)) :
  document_ok os = true ->
  Forall (Forall (fun e => spaced e = false)) os ->
  remove_double_quotes (print os) = print os
  /\ remove_double_quotes (remove_double_quotes (print os))
     = remove_double_quotes (print os).
Proof.
  intros Hok Hsp.
  assert (remove_double_quotes (print os) = print os) as E.
  { rewrite remove_double_quotes_document by done.
    unfold print_wide, print. apply render_no_spaced.
    - by intros [].
    - unfold document_items. constructor; [done|].
      apply Forall_app. split; [by apply objects_no_spaced|by repeat constructor]. }
  by rewrite !E.
Qed.

Lemma remove_double_quotes_compact_witness :
  remove_double_quotes (print Sample2.compact_markers)
  = print Sample2.compact_markers
  /\ remove_double_quotes (remove_double_quotes (print Sample2.compact_markers))
     = remove_double_quotes (print Sample2.compact_markers).
Proof.
  apply (remove_double_quotes_compact Sample2.compact_markers).
  - vm_compute. reflexivity.
  - repeat constructor.
Defined.

(* ===================================================================== *)
(** * The first line that gives a result *)
(* ===================================================================== *)

(** X19. [parse_configs] returns the value of the first line whose payload
    decodes; the lines before it are logged when they hold the sentinel,
    and the lines after it are not looked at. *)
Theorem parse_configs_first_decodable
    device_type pre line post payload v :
  Forall (skipped device_type) pre ->
  contains sentinel line = true ->
  payload_of line = Return payload ->
  Json.loads (parse_data_of device_type payload) = Some v ->
  parse_configs device_type (pre ++ line :: post)
  = (logged_failures device_type pre, Return (Some v)).
Proof.
  intros Hpre Hs Hp Hv. rewrite parse_configs_after_skipped by done.
  cbn [parse_configs]. rewrite Hs, Hp, Hv. cbn [fst snd].
  by rewrite app_nil_r.
Qed.

Lemma parse_configs_first_decodable_witness :
  parse_configs "XB3"
    (["# comment"; Sample.profile_line Sample.header_fragment]
       ++ Sample.profile_line Sample.one_marker :: [Sample.bare_line])
  = (logged_failures "XB3"
       ["# comment"; Sample.profile_line Sample.header_fragment],
     Return (Some (Json.JArr
                     [Json.JObj
                        [("header", Json.JStr "SYS_ERROR_KernelPanic_reboot")]]))).
Proof.
  apply (parse_configs_first_decodable "XB3" _ _ _ Sample.one_marker).
  - constructor; [left; reflexivity|].
    constructor;
      [right; exists Sample.header_fragment; split; vm_compute; reflexivity|].
    constructor.
  - reflexivity.
  - vm_compute. reflexivity.
  - vm_compute. reflexivity.
Defined.

(** X20. For [XG] and [XI5], a line whose payload is a document gives the
    value of the document: the normalizer only widens the spaced
    separators, which the decoder reads as it reads the others. *)
Theorem parse_configs_document device_type pre line post os :
  device_type ∈ ["XG"; "XI5"] ->
  Forall (skipped device_type) pre ->
  contains sentinel line = true ->
  payload_of line = Return (print os) ->
  document_ok os = true ->
  parse_configs device_type (pre ++ line :: post)
  = (logged_failures device_type pre, Return (Some (document_value os))).
Proof.
  intros Hdt Hpre Hs Hp Hok. rewrite parse_configs_after_skipped by done.
  cbn [parse_configs]. rewrite Hs, Hp.
  assert (parse_data_of device_type (print os) = print_wide os) as ->.
  { unfold parse_data_of.
    repeat (apply elem_of_cons in Hdt as [->|Hdt]);
      [by apply remove_double_quotes_document..|by apply elem_of_nil in Hdt]. }
  unfold print_wide. rewrite loads_document; [|apply json_img_restored|done].
  cbn [fst snd]. by rewrite app_nil_r.
Qed.

Lemma parse_configs_document_witness :
  parse_configs "XG"
    (["# comment"] ++ Sample.profile_line (print Sample.two_markers) :: [])
  = (logged_failures "XG" ["# comment"],
     Return (Some (document_value Sample.two_markers))).
Proof.
  apply (parse_configs_document "XG").
  - set_solver.
  - constructor; [left; reflexivity|constructor].
  - reflexivity.
  - vm_compute. reflexivity.
  - vm_compute. reflexivity.
Defined.

(* ===================================================================== *)
(** * The normalizer on JSON texts whose strings stand in flat objects *)
(* ===================================================================== *)

Import Tree.

Scheme tree_forest_ind := Induction for tree Sort Prop
  with forest_tree_ind := Induction for forest Sort Prop.
Combined Scheme tree_forest_mutind from tree_forest_ind, forest_tree_ind.

(** ** Numbers and literal names before what follows a value *)

Lemma delimited_not_digit c rest :
  delimited (String c rest) = true ->
  is_digit c = false /\ c <> "-"%char /\ c <> "+"%char /\ c <> "."%char
  /\ c <> "e"%char /\ c <> "E"%char /\ is_letter c = false.
Proof.
  cbn [delimited]. unfold is_ws. rewrite !orb_true_iff.
  intros [[[[[H|H]|H]|H]|H]|H]; apply Ascii.eqb_eq in H; subst c; done.
Qed.

Lemma take_digits_app a rest d r :
  delimited rest = true -> take_digits a = (d, r) ->
  take_digits (a +:+ rest) = (d, r +:+ rest).
Proof.
  intros Hd. revert d r; induction a as [|c a IH]; intros d r H.
  - cbn in H. injection H as <- <-. rewrite !append_nil_l.
    destruct rest as [|c rest]; [done|].
    apply delimited_not_digit in Hd as (Hdig & _). cbn [take_digits].
    by rewrite Hdig.
  - rewrite append_cons. cbn [take_digits] in *.
    destruct (is_digit c); [|by injection H as <- <-].
    destruct (take_digits a) as [d' r']. injection H as <- <-.
    by rewrite (IH d' r').
Qed.

Lemma match_digits1_app a rest :
  delimited rest = true ->
  match_digits1 (a +:+ rest) = extend rest (match_digits1 a).
Proof.
  intros Hd. unfold match_digits1.
  destruct (take_digits a) as [d r] eqn:E.
  rewrite (take_digits_app a rest d r Hd E). by destruct d.
Qed.

Lemma match_unsigned_app a rest :
  delimited rest = true ->
  match_unsigned (a +:+ rest) = extend rest (match_unsigned a).
Proof.
  intros Hd. destruct a as [|c a].
  - rewrite append_nil_l. destruct rest as [|c rest]; [done|].
    apply delimited_not_digit in Hd as (Hdig & _). cbn [match_unsigned extend].
    destruct (Ascii.eqb_spec c "0") as [->|]; [done|]. by rewrite Hdig.
  - rewrite append_cons. cbn [match_unsigned].
    destruct (Ascii.eqb c "0"); [done|].
    destruct (is_digit c); [|done].
    destruct (take_digits a) as [d r] eqn:E.
    by rewrite (take_digits_app a rest d r Hd E).
Qed.

Lemma match_integer_app a rest :
  delimited rest = true ->
  match_integer (a +:+ rest) = extend rest (match_integer a).
Proof.
  intros Hd. destruct a as [|c a].
  - rewrite append_nil_l. destruct rest as [|c rest]; [done|].
    pose proof (delimited_not_digit _ _ Hd) as (Hdig & Hm & _).
    cbn [match_integer extend].
    rewrite (proj2 (Ascii.eqb_neq c "-")) by done.
    change (String c rest) with (EmptyString +:+ String c rest).
    by rewrite match_unsigned_app.
  - rewrite append_cons. cbn [match_integer].
    destruct (Ascii.eqb c "-").
    + rewrite match_unsigned_app by done.
      by destruct (match_unsigned a) as [[d r]|].
    + rewrite <- append_cons. by rewrite match_unsigned_app.
Qed.

Lemma match_frac_app a rest f r :
  delimited rest = true -> match_frac a = (f, r) ->
  match_frac (a +:+ rest) = (f, r +:+ rest).
Proof.
  intros Hd H. destruct a as [|c a].
  - cbn in H. injection H as <- <-. rewrite !append_nil_l.
    destruct rest as [|c rest]; [done|].
    pose proof (delimited_not_digit _ _ Hd) as (_ & _ & _ & Hdot & _).
    cbn [match_frac]. by rewrite (proj2 (Ascii.eqb_neq c ".")) by done.
  - rewrite append_cons. cbn [match_frac] in *.
    destruct (Ascii.eqb c "."); [|by injection H as <- <-].
    rewrite match_digits1_app by done.
    destruct (match_digits1 a) as [[d r']|]; cbn [extend];
      by injection H as <- <-.
Qed.

Lemma match_exp_app a rest e r :
  delimited rest = true -> match_exp a = (e, r) ->
  match_exp (a +:+ rest) = (e, r +:+ rest).
Proof.
  intros Hd H. destruct a as [|c a].
  - cbn in H. injection H as <- <-. rewrite !append_nil_l.
    destruct rest as [|c rest]; [done|].
    pose proof (delimited_not_digit _ _ Hd) as (_ & _ & _ & _ & He & HE & _).
    cbn [match_exp].
    rewrite (proj2 (Ascii.eqb_neq c "e")), (proj2 (Ascii.eqb_neq c "E")) by done.
    done.
  - rewrite append_cons. cbn [match_exp] in *.
    destruct (Ascii.eqb c "e" || Ascii.eqb c "E"); [|by injection H as <- <-].
    destruct a as [|s a].
    + rewrite append_nil_l.
      change rest with (EmptyString +:+ rest) at 2.
      assert (match_digits1 rest = None) as Hn.
      { change rest with (EmptyString +:+ rest).
        by rewrite match_digits1_app. }
      cbn in H. injection H as <- <-.
      destruct rest as [|x rest]; [done|].
      pose proof (delimited_not_digit _ _ Hd) as (_ & Hm & Hp & _).
      rewrite (proj2 (Ascii.eqb_neq x "-")), (proj2 (Ascii.eqb_neq x "+")) by done.
      cbn [orb]. by rewrite Hn.
    + rewrite append_cons.
      destruct (Ascii.eqb s "-" || Ascii.eqb s "+").
      * rewrite match_digits1_app by done.
        destruct (match_digits1 a) as [[d r']|]; cbn [extend];
          by injection H as <- <-.
      * rewrite <- append_cons. rewrite match_digits1_app by done.
        destruct (match_digits1 (String s a)) as [[d r']|]; cbn [extend];
          by injection H as <- <-.
Qed.

Lemma match_number_app a rest :
  delimited rest = true ->
  match_number (a +:+ rest) = extend_value rest (match_number a).
Proof.
  intros Hd. unfold match_number. rewrite match_integer_app by done.
  destruct (match_integer a) as [[i r]|]; [|done]. cbn [extend].
  destruct (match_frac r) as [f r1] eqn:Ef.
  rewrite (match_frac_app r rest f r1 Hd Ef).
  destruct (match_exp r1) as [e r2] eqn:Ee.
  rewrite (match_exp_app r1 rest e r2 Hd Ee).
  by destruct f, e.
Qed.

(** A name made of letters and signs is not completed by what follows
    a value. *)
Lemma strip_prefix_delimited kw a rest :
  forallb atom_char (String.list_ascii_of_string kw) = true ->
  delimited rest = true ->
  strip_prefix kw (a +:+ rest)
  = match strip_prefix kw a with
    | Some r => Some (r +:+ rest)
    | None => None
    end.
Proof.
  intros Hkw Hd.
  revert a; induction kw as [|k kw IH]; intros a; [done|].
  cbn [String.list_ascii_of_string forallb] in Hkw.
  apply andb_true_iff in Hkw as [Hk Hkw].
  destruct a as [|c a].
  - rewrite append_nil_l. destruct rest as [|c rest]; [done|].
    rewrite strip_prefix_cons. cbn [strip_prefix].
    destruct (Ascii.eqb_spec k c) as [->|]; [|done].
    pose proof (delimited_not_digit _ _ Hd) as (H1 & H2 & H3 & H4 & _ & _ & H5).
    unfold atom_char in Hk. rewrite H1, H5 in Hk.
    rewrite (proj2 (Ascii.eqb_neq c "-")), (proj2 (Ascii.eqb_neq c "+")),
      (proj2 (Ascii.eqb_neq c ".")) in Hk by done. done.
  - rewrite append_cons, !strip_prefix_cons.
    destruct (Ascii.eqb k c); [by apply IH|done].
Qed.

Lemma keyword_app kw v a rest :
  forallb atom_char (String.list_ascii_of_string kw) = true ->
  delimited rest = true ->
  keyword kw v (a +:+ rest) = extend_value rest (keyword kw v a).
Proof.
  intros Hkw Hd. unfold keyword. rewrite strip_prefix_delimited by done.
  by destruct (strip_prefix kw a).
Qed.

Lemma scan_atom_app a rest :
  delimited rest = true ->
  scan_atom (a +:+ rest) = extend_value rest (scan_atom a).
Proof.
  intros Hd. unfold scan_atom.
  rewrite !keyword_app, match_number_app by done.
  repeat (match goal with
          | |- context [keyword ?kw ?v a] =>
              destruct (keyword kw v a) as [[? ?]|]; [done|]
          | |- context [match_number a] =>
              destruct (match_number a) as [[? ?]|]; [done|]
          end; cbn [extend_value]).
  done.
Qed.

Lemma atom_value_scan a v rest :
  atom_value a = Some v -> delimited rest = true ->
  scan_atom (a +:+ rest) = Some (v, rest).
Proof.
  unfold atom_value. intros H Hd. rewrite scan_atom_app by done.
  destruct (scan_atom a) as [[v' [|]]|]; try done.
  by injection H as ->.
Qed.
(** ** The characters of a number or of a literal name *)

Lemma all_chars_app P s t :
  all_chars P (s +:+ t) = all_chars P s && all_chars P t.
Proof.
  unfold all_chars. induction s as [|c s IH]; [done|].
  rewrite append_cons. cbn [String.list_ascii_of_string forallb].
  by rewrite IH, andb_assoc.
Qed.

Lemma all_chars_cons P c s :
  all_chars P (String c s) = P c && all_chars P s.
Proof. reflexivity. Qed.

Lemma is_digit_num c : is_digit c = true -> num_char c = true.
Proof. unfold num_char. by intros ->. Qed.

Lemma take_digits_shape s d r :
  take_digits s = (d, r) -> s = d +:+ r /\ all_chars num_char d = true.
Proof.
  revert d r; induction s as [|c s IH]; intros d r H; cbn [take_digits] in H.
  - by injection H as <- <-.
  - destruct (is_digit c) eqn:Ec; [|by injection H as <- <-].
    destruct (take_digits s) as [d' r']. injection H as <- <-.
    destruct (IH d' r' eq_refl) as [-> Hd]. split; [done|].
    by rewrite all_chars_cons, is_digit_num.
Qed.

Lemma match_digits1_shape s d r :
  match_digits1 s = Some (d, r) -> s = d +:+ r /\ all_chars num_char d = true.
Proof.
  unfold match_digits1. destruct (take_digits s) as [[|x d'] r'] eqn:E; [done|].
  intros [= <- <-]. by apply take_digits_shape.
Qed.

Lemma match_unsigned_shape s d r :
  match_unsigned s = Some (d, r) ->
  s = d +:+ r /\ all_chars num_char d = true /\ d <> EmptyString.
Proof.
  destruct s as [|c s]; [done|]. cbn [match_unsigned].
  destruct (Ascii.eqb_spec c "0") as [->|_]; [by intros [= <- <-]|].
  destruct (is_digit c) eqn:Ec; [|done].
  destruct (take_digits s) as [d' r'] eqn:E. intros [= <- <-].
  apply take_digits_shape in E as [-> Hd]. split; [done|]. split; [|done].
  by rewrite all_chars_cons, is_digit_num.
Qed.

Lemma match_integer_shape s d r :
  match_integer s = Some (d, r) ->
  s = d +:+ r /\ all_chars num_char d = true /\ d <> EmptyString.
Proof.
  destruct s as [|c s]; [done|]. cbn [match_integer].
  destruct (Ascii.eqb_spec c "-") as [->|_].
  - destruct (match_unsigned s) as [[d' r']|] eqn:E; [|done].
    intros [= <- <-]. apply match_unsigned_shape in E as (-> & Hd & _).
    split; [done|]. split; [|done]. by rewrite all_chars_cons, Hd.
  - apply match_unsigned_shape.
Qed.

Lemma match_frac_shape s f r :
  match_frac s = (f, r) -> s = f +:+ r /\ all_chars num_char f = true.
Proof.
  destruct s as [|c s]; [by intros [= <- <-]|]. cbn [match_frac].
  destruct (Ascii.eqb_spec c ".") as [->|_]; [|by intros [= <- <-]].
  destruct (match_digits1 s) as [[d r']|] eqn:E; [|by intros [= <- <-]].
  intros [= <- <-]. apply match_digits1_shape in E as [-> Hd].
  split; [done|]. by rewrite all_chars_cons, Hd.
Qed.

Lemma match_exp_shape s e r :
  match_exp s = (e, r) -> s = e +:+ r /\ all_chars num_char e = true.
Proof.
  destruct s as [|c s]; [by intros [= <- <-]|]. cbn [match_exp].
  destruct (Ascii.eqb c "e" || Ascii.eqb c "E") eqn:Ec;
    [|by intros [= <- <-]].
  assert (num_char c = true) as Hc.
  { unfold num_char. apply orb_true_iff in Ec as [->| ->];
      by rewrite ?orb_true_r. }
  destruct s as [|x s].
  - by intros [= <- <-].
  - destruct (Ascii.eqb x "-" || Ascii.eqb x "+") eqn:Ex.
    + destruct (match_digits1 s) as [[d r']|] eqn:E; [|by intros [= <- <-]].
      intros [= <- <-]. apply match_digits1_shape in E as [-> Hd].
      split; [done|]. rewrite all_chars_cons, Hc. rewrite append_cons, append_nil_l.
      rewrite all_chars_cons, Hd, andb_true_r.
      unfold num_char. apply orb_true_iff in Ex as [->| ->];
        by rewrite ?orb_true_r.
    + destruct (match_digits1 (String x s)) as [[d r']|] eqn:E;
        [|by intros [= <- <-]].
      intros [= <- <-]. apply match_digits1_shape in E as [E Hd].
      rewrite append_nil_l. split; [by rewrite append_cons, E|].
      by rewrite all_chars_cons, Hc.
Qed.

Lemma match_number_shape s v r :
  match_number s = Some (v, r) ->
  exists lex, s = lex +:+ r /\ all_chars num_char lex = true
              /\ lex <> EmptyString.
Proof.
  unfold match_number.
  destruct (match_integer s) as [[i r0]|] eqn:Ei; [|done].
  destruct (match_frac r0) as [f r1] eqn:Ef.
  destruct (match_exp r1) as [e r2] eqn:Ee.
  apply match_integer_shape in Ei as (-> & Hi & Hne).
  apply match_frac_shape in Ef as (-> & Hf).
  apply match_exp_shape in Ee as (-> & He).
  intros H. assert (r = r2) as -> by (by destruct f, e; injection H).
  exists (i +:+ f +:+ e). rewrite !append_assoc. split; [done|].
  rewrite !all_chars_app, Hi, Hf, He. split; [done|].
  destruct i; [done|]. by rewrite append_cons.
Qed.

Lemma contains_no_head h t s :
  all_chars (fun c => negb (Ascii.eqb h c)) s = true ->
  contains (String h t) s = false.
Proof.
  induction s as [|c s IH]; [done|]. rewrite all_chars_cons.
  intros [Hc Hs]%andb_true_iff. cbn [contains]. rewrite strip_prefix_cons.
  apply negb_true_iff in Hc. rewrite Hc. by apply IH.
Qed.

Lemma all_chars_impl (P P' : ascii -> bool) s :
  (forall c, P c = true -> P' c = true) ->
  all_chars P s = true -> all_chars P' s = true.
Proof.
  intros H. unfold all_chars. rewrite !forallb_forall. auto.
Qed.

Lemma num_char_cases c :
  num_char c = true ->
  (48 <= nat_of_ascii c <= 57) \/ c = "-"%char \/ c = "+"%char
  \/ c = "."%char \/ c = "e"%char \/ c = "E"%char.
Proof.
  unfold num_char, is_digit.
  rewrite !orb_true_iff, andb_true_iff, !Nat.leb_le.
  intros [[[[[H|H]|H]|H]|H]|H]; try (apply Ascii.eqb_eq in H); tauto.
Qed.

Lemma num_char_spec c :
  num_char c = true ->
  atom_char c = true
  /\ forallb (fun k => match token k with
                       | String h _ => negb (Ascii.eqb h c)
                       | EmptyString => false
                       end) all_puncts = true.
Proof.
  intros H. apply num_char_cases in H.
  destruct H as [H|[->|[->|[->|[->| ->]]]]]; try (by vm_compute).
  split.
  - unfold atom_char, is_digit.
    destruct H as [H1%Nat.leb_le H2%Nat.leb_le]. by rewrite H1, H2, !orb_true_r.
  - cbn [forallb all_puncts token]. rewrite !andb_true_iff, !negb_true_iff.
    repeat split; try done; apply Ascii.eqb_neq; intros <-;
      vm_compute in H; lia.
Qed.

Lemma keyword_shape kw v s x r : keyword kw v s = Some (x, r) -> s = kw +:+ r.
Proof.
  unfold keyword. destruct (strip_prefix kw s) as [r'|] eqn:E; [|done].
  intros [= _ <-]. by apply strip_prefix_Some.
Qed.

Lemma scan_atom_shape s v r :
  scan_atom s = Some (v, r) ->
  exists lex, s = lex +:+ r /\ lex <> EmptyString
              /\ all_chars atom_char lex = true
              /\ spells_token lex = false.
Proof.
  unfold scan_atom.
  repeat (match goal with
          | |- context [keyword ?kw ?x s] =>
              destruct (keyword kw x s) as [[? ?]|] eqn:?;
              [intros [= <- <-];
               match goal with H : keyword _ _ _ = Some _ |- _ =>
                 apply keyword_shape in H; subst s end;
               eexists; split; [reflexivity|]; by vm_compute|]
          end).
  - destruct (match_number s) as [[? ?]|] eqn:En.
    + intros [= <- <-]. apply match_number_shape in En as (lex & -> & Hl & Hne).
      exists lex. split; [done|]. split; [done|]. split.
      * eapply all_chars_impl; [|exact Hl]. intros c Hc.
        by apply num_char_spec in Hc as [? _].
      * unfold spells_token. apply not_true_iff_false. intros Hex.
        apply existsb_exists in Hex as (k & _ & Hk).
        destruct (token k) as [|h t] eqn:Et; [by destruct k|].
        rewrite contains_no_head in Hk; [done|].
        eapply all_chars_impl; [|exact Hl]. intros c Hc. cbv beta.
        apply num_char_spec in Hc as [_ Hc]. rewrite forallb_forall in Hc.
        specialize (Hc k (in_all_puncts k)). by rewrite Et in Hc.
    + repeat (match goal with
          | |- context [keyword ?kw ?x s] =>
              destruct (keyword kw x s) as [[? ?]|] eqn:?;
              [intros [= <- <-];
               match goal with H : keyword _ _ _ = Some _ |- _ =>
                 apply keyword_shape in H; subst s end;
               eexists; split; [reflexivity|]; by vm_compute|]
          end).
      done.
Qed.

Lemma atom_ok_shape a :
  atom_ok a = true ->
  a <> EmptyString /\ all_chars atom_char a = true /\ spells_token a = false
  /\ exists v, atom_value a = Some v.
Proof.
  unfold atom_ok, atom_value.
  destruct (scan_atom a) as [[v [|]]|] eqn:E; try done. intros _.
  apply scan_atom_shape in E as (lex & -> & Hne & Hc & Ht).
  rewrite append_nil_r. repeat split; try done. by exists v.
Qed.
(** ** The decoder on a text *)

Lemma entries_ok_text es :
  entries_ok es = true -> es <> [] /\ forallb entry_text es = true.
Proof.
  induction es as [|e es IH]; [done|]. intros H. split; [done|].
  cbn [forallb].
  assert (entry_text e = true
          /\ (es <> [] -> entries_ok es = true)) as [He Hes].
  { cbn [entries_ok] in H. unfold key_ok, value_ok, string_ok, entry_text in *.
    destruct es as [|e' es]; rewrite !andb_true_iff in H;
      rewrite andb_true_iff; split; try tauto. }
  rewrite He. destruct es as [|e' es]; [done|].
  by apply IH, Hes.
Qed.

Lemma pad_skip pad s : pad_ok pad = true -> skip_ws (pad +:+ s) = skip_ws s.
Proof.
  unfold pad_ok. induction pad as [|c pad IH]; [done|].
  cbn [String.list_ascii_of_string forallb]. intros [Hc Hp]%andb_true_iff.
  rewrite append_cons. cbn [skip_ws]. rewrite Hc. by apply IH.
Qed.

Lemma pad_delimited pad c s :
  pad_ok pad = true -> (Ascii.eqb c "," || Ascii.eqb c "]") = true ->
  delimited (pad +:+ String c s) = true.
Proof.
  destruct pad as [|x pad]; intros Hp Hc.
  - rewrite append_nil_l. cbn [delimited]. by rewrite <- orb_assoc, Hc, orb_true_r.
  - unfold pad_ok in Hp. cbn [String.list_ascii_of_string forallb] in Hp.
    apply andb_true_iff in Hp as [Hx _]. rewrite append_cons.
    cbn [delimited]. by rewrite Hx.
Qed.

Lemma pad_delimited_end pad : pad_ok pad = true -> delimited pad = true.
Proof.
  destruct pad as [|x pad]; [done|]. unfold pad_ok.
  cbn [String.list_ascii_of_string forallb]. intros [Hx _]%andb_true_iff.
  cbn [delimited]. by rewrite Hx.
Qed.

Lemma scan_once_more f f' s x :
  scan_once f s = Ok x -> f <= f' -> scan_once f' s = Ok x.
Proof.
  intros H Hle. rewrite (proj1 (scan_mono f f' Hle)); [done|]. by rewrite H.
Qed.

Lemma items_more f f' acc s x :
  items f acc s = Ok x -> f <= f' -> items f' acc s = Ok x.
Proof.
  intros H Hle.
  rewrite (proj2 (proj2 (scan_mono f f' Hle))); [done|]. by rewrite H.
Qed.

Lemma atom_char_spec c :
  atom_char c = true ->
  is_ws c = false /\ lit_ok c = true /\ c <> "{"%char /\ c <> "["%char
  /\ c <> "]"%char /\ c <> ","%char /\ c <> "}"%char.
Proof.
  unfold atom_char, is_letter, is_digit.
  rewrite !orb_true_iff, !andb_true_iff, !Nat.leb_le.
  intros H.
  assert (forall x, (nat_of_ascii x < 43 \/ nat_of_ascii x = 44
                     \/ nat_of_ascii x = 47
                     \/ 58 <= nat_of_ascii x <= 64
                     \/ 91 <= nat_of_ascii x <= 96
                     \/ 123 <= nat_of_ascii x) -> c <> x) as Hx.
  { intros x Hx ->.
    destruct H as [[[[[H|H]|H]|H]|H]|H];
      try (apply Ascii.eqb_eq in H; subst x; vm_compute in Hx); lia. }
  unfold is_ws, lit_ok.
  rewrite negb_true_iff, !orb_false_iff.
  repeat split;
    try match goal with |- Ascii.eqb _ _ = false => apply Ascii.eqb_neq end;
    apply Hx; vm_compute; lia.
Qed.

Lemma atom_head a :
  atom_ok a = true ->
  exists c r, a = String c r /\ atom_char c = true.
Proof.
  intros H. apply atom_ok_shape in H as (Hne & Hc & _).
  destruct a as [|c r]; [done|]. exists c, r. split; [done|].
  rewrite all_chars_cons in Hc. by apply andb_true_iff in Hc as [? _].
Qed.

Lemma tree_head img t R :
  json_img img -> tree_ok t = true ->
  exists c r, render img (tree_items t) +:+ R = String c r
              /\ is_ws c = false /\ c <> "]"%char.
Proof.
  intros Himg Hok. destruct t as [a|es|pad|pad|elems]; cbn [tree_items tree_ok] in *.
  - destruct (atom_head a Hok) as (c & r & -> & Hc).
    apply atom_char_spec in Hc as (Hws & _ & _ & _ & Hb & _).
    rewrite render_lits, append_cons. by eexists _, _.
  - destruct (render_object_head img es R Himg) as [r1 ->]. by eexists _, _.
  - cbn [render]. rewrite append_cons. by eexists _, _.
  - cbn [render]. rewrite append_cons. by eexists _, _.
  - cbn [render]. rewrite append_cons. by eexists _, _.
Qed.

Lemma delimited_head c r :
  delimited (String c r) = true -> is_ws c = false ->
  c = ","%char \/ c = "]"%char.
Proof.
  cbn [delimited]. intros H Hws. rewrite Hws in H. cbn [orb] in H.
  apply orb_true_iff in H as [H|H]; apply Ascii.eqb_eq in H; tauto.
Qed.

Lemma scan_tree_forest img :
  json_img img ->
  (forall t, tree_ok t = true -> forall R, delimited R = true ->
     exists f, scan_once f (render img (tree_items t) +:+ R)
               = Ok (tree_value t, R))
  /\ (forall fo, forest_ok fo = true -> forall acc R,
        exists f, items f acc
                    (skip_ws (render img (forest_items fo) +:+ String "]" R))
                  = Ok (JArr (rev acc ++ forest_values fo), R)).
Proof.
  intros Himg. apply tree_forest_mutind.
  - (* atom *)
    intros a Hok R HR. cbn [tree_ok tree_items tree_value] in *.
    destruct (atom_head a Hok) as (c & r & Ea & Hc).
    apply atom_ok_shape in Hok as (_ & _ & _ & v & Hv).
    exists 1. rewrite render_lits, Hv. cbn [default].
    pose proof (atom_value_scan a v R Hv HR) as Hscan.
    rewrite Ea in *. rewrite append_cons in *. cbn [scan_once].
    apply atom_char_spec in Hc as (_ & Hl & Hob & Hoa & _).
    apply lit_ok_spec in Hl as [Hq _].
    rewrite (proj2 (Ascii.eqb_neq c dquote)), (proj2 (Ascii.eqb_neq c "{")),
      (proj2 (Ascii.eqb_neq c "[")) by done.
    by rewrite Hscan.
  - (* object *)
    intros es Hok R _. cbn [tree_ok tree_items tree_value] in *.
    apply entries_ok_text in Hok as [Hne Htext].
    exists (S (S (length es))). apply scan_object; try done. lia.
  - (* empty object *)
    intros pad Hok R _. cbn [tree_ok tree_items tree_value] in *.
    exists 1. cbn [render]. rewrite render_app, render_lits. cbn [render].
    rewrite append_cons, append_assoc, append_cons, append_nil_l.
    cbn [scan_once].
    replace (Ascii.eqb "{" dquote) with false by done. rewrite Ascii.eqb_refl.
    rewrite pad_skip by done. rewrite skip_ws_nonws by done.
    by rewrite Ascii.eqb_refl.
  - (* empty array *)
    intros pad Hok R _. cbn [tree_ok tree_items tree_value] in *.
    exists 1. cbn [render]. rewrite render_app, render_lits. cbn [render].
    rewrite append_cons, append_assoc, append_cons, append_nil_l.
    cbn [scan_once].
    replace (Ascii.eqb "[" dquote) with false by done.
    replace (Ascii.eqb "[" "{") with false by done. rewrite Ascii.eqb_refl.
    rewrite pad_skip by done. rewrite skip_ws_nonws by done.
    by rewrite Ascii.eqb_refl.
  - (* array *)
    intros elems IH Hok R _. cbn [tree_ok tree_items tree_value] in *.
    destruct (IH Hok [] R) as [f Hf]. exists (S f).
    cbn [render]. rewrite render_app. cbn [render].
    rewrite append_cons, append_assoc, append_cons, append_nil_l.
    cbn [scan_once].
    replace (Ascii.eqb "[" dquote) with false by done.
    replace (Ascii.eqb "[" "{") with false by done. rewrite Ascii.eqb_refl.
    destruct (skip_ws (render img (forest_items elems) +:+ String "]" R))
      as [|c1 r1] eqn:Es.
    { destruct f; cbn [items scan_once] in Hf; [done|]. by destruct f. }
    destruct (Ascii.eqb_spec c1 "]") as [->|_]; [|exact Hf].
    exfalso. clear Hf IH.
    destruct elems as [pre t post|pre t post rest];
      cbn [forest_items forest_ok] in *;
      rewrite ?andb_true_iff in Hok.
    + destruct Hok as [[Hpre Ht] Hpost].
      rewrite !render_app, render_lits, !append_assoc in Es.
      rewrite pad_skip in Es by done.
      destruct (tree_head img t (render img (lits post) +:+ String "]" R)
                  Himg Ht) as (c & r & E & Hws & Hb).
      rewrite E, skip_ws_nonws in Es by done. congruence.
    + destruct Hok as [[[Hpre Ht] Hpost] Hrest].
      rewrite !render_app, render_lits, !append_assoc in Es.
      rewrite pad_skip in Es by done.
      destruct (tree_head img t
                  (render img (lits post ++ Lit "," :: forest_items rest)
                   +:+ String "]" R) Himg Ht) as (c & r & E & Hws & Hb).
      rewrite render_app, append_assoc in E.
      rewrite E, skip_ws_nonws in Es by done. congruence.
  - (* one element *)
    intros pre t IH post Hok acc R. cbn [forest_ok forest_items forest_values] in *.
    rewrite !andb_true_iff in Hok. destruct Hok as [[Hpre Ht] Hpost].
    destruct (IH Ht (post +:+ String "]" R)) as [f Hf].
    { by apply pad_delimited. }
    exists (S f).
    rewrite !render_app, !render_lits, !append_assoc.
    rewrite pad_skip by done.
    destruct (tree_head img t (post +:+ String "]" R) Himg Ht)
      as (c & r & E & Hws & Hb).
    rewrite E, skip_ws_nonws by done. rewrite <- E.
    cbn [items]. rewrite Hf. rewrite pad_skip by done.
    rewrite skip_ws_nonws by done. rewrite Ascii.eqb_refl.
    cbn [rev]. reflexivity.
  - (* more elements *)
    intros pre t IHt post rest IHr Hok acc R.
    cbn [forest_ok forest_items forest_values] in *.
    rewrite !andb_true_iff in Hok. destruct Hok as [[[Hpre Ht] Hpost] Hrest].
    destruct (IHt Ht (post +:+ String ","
                        (render img (forest_items rest) +:+ String "]" R)))
      as [f1 Hf1].
    { by apply pad_delimited. }
    destruct (IHr Hrest (tree_value t :: acc) R) as [f2 Hf2].
    exists (S (Nat.max f1 f2)).
    rewrite !render_app, !render_lits. cbn [render].
    rewrite !append_assoc, !append_cons. rewrite pad_skip by done.
    destruct (tree_head img t
                (post +:+ String ","
                   (render img (forest_items rest) +:+ String "]" R))
                Himg Ht) as (c & r & E & Hws & Hb).
    rewrite E, skip_ws_nonws by done. rewrite <- E.
    cbn [items].
    rewrite (scan_once_more f1 _ _ _ Hf1) by lia.
    rewrite pad_skip by done. rewrite skip_ws_nonws by done.
    replace (Ascii.eqb "," "]") with false by done. rewrite Ascii.eqb_refl.
    rewrite (items_more f2 _ _ _ _ Hf2) by lia.
    cbn [rev]. by rewrite <- app_assoc.
Qed.

(** A text with white space around a value is decoded to that value. *)
Lemma loads_padded f pre s post v :
  pad_ok pre = true -> pad_ok post = true -> skip_ws s = s ->
  scan_once f s = Ok (v, post) -> loads (pre +:+ s) = Some v.
Proof.
  intros Hpre Hpost Hs Hscan. unfold loads, decode.
  rewrite pad_skip, Hs by done.
  set (F := 2 * String.length (pre +:+ s) + 1).
  assert (scan_once F s = Ok (v, post)) as ->.
  { destruct (Nat.le_ge_cases f F) as [Hle|Hge].
    - by apply (scan_once_more f).
    - rewrite <- Hscan. symmetry. apply (proj1 (scan_mono F f Hge)).
      apply (proj1 (scan_fuel F)). unfold F. rewrite append_length. lia. }
  rewrite <- (append_nil_r post), pad_skip by done. done.
Qed.
(** ** The items of a text are ready *)

Lemma spells_none_head c rest :
  tok_head c = false -> spells_none (Lit c :: rest) = true.
Proof.
  intros H. unfold spells_none. apply forallb_forall. intros k _.
  apply negb_true_iff. unfold is_prefix. cbn [lit_run].
  unfold tok_head in H. apply not_true_iff_false in H.
  destruct (token k) as [|h t] eqn:Et; [by destruct k|].
  rewrite strip_prefix_cons.
  destruct (Ascii.eqb h c) eqn:E; [|done].
  exfalso. apply H. apply existsb_exists. exists k.
  split; [apply in_all_puncts|]. by rewrite Et.
Qed.

Lemma ready_lit c rest :
  lit_ok c = true -> spells_none (Lit c :: rest) = true ->
  brace_ok (Lit c :: rest) = true ->
  ready rest = true -> ready (Lit c :: rest) = true.
Proof.
  intros H1 H2 H3 H4. cbn [ready]. rewrite H1, H2, H3, H4.
  by destruct rest as [|[?|?] ?].
Qed.

Lemma ready_punct k rest :
  ready (Punct k :: rest)
  = comma_ok (Punct k :: rest) && colon_ok (Punct k :: rest) && ready rest.
Proof. reflexivity. Qed.

Lemma ready_plain_punct k rest :
  k = POpen \/ k = PItem \/ k = PClose ->
  ready (Punct k :: rest) = ready rest.
Proof.
  intros Hk. cbn [ready brace_ok].
  assert (comma_ok (Punct k :: rest) = true) as ->.
  { destruct Hk as [->|[->| ->]]; by destruct rest as [|[?|?] [|[?|?] ?]]. }
  assert (colon_ok (Punct k :: rest) = true) as ->; [|done].
  destruct Hk as [->|[->| ->]];
    by destruct rest as [|[?|?] [|[?|?] [|[?|?] [|[?|?] ?]]]].
Qed.

Lemma lit_run_app_lits u rest : lit_run (lits u ++ rest) = u +:+ lit_run rest.
Proof.
  induction u as [|c u IH]; [done|].
  change (lits (String c u)) with (Lit c :: lits u). cbn [app lit_run].
  by rewrite IH.
Qed.

Lemma spells_token_tail c u :
  spells_token (String c u) = false -> spells_token u = false.
Proof.
  unfold spells_token. intros H. apply not_true_iff_false in H.
  apply not_true_iff_false. intros Hex. apply H.
  apply existsb_exists in Hex as (k & Hk & Hc). apply existsb_exists.
  exists k. split; [done|]. cbn [contains].
  by destruct (strip_prefix (token k) (String c u)).
Qed.

Lemma spells_token_prefix u k :
  spells_token u = false -> strip_prefix (token k) u = None.
Proof.
  unfold spells_token. intros H.
  apply contains_false_prefix. apply not_true_iff_false. intros Hc.
  apply not_true_iff_false in H. apply H. apply existsb_exists.
  exists k. split; [apply in_all_puncts|done].
Qed.

Lemma token_atom_chars k :
  forallb atom_char (String.list_ascii_of_string (token k)) = true.
Proof. by destruct k. Qed.

(** Characters that spell no token do not spell one either when they
    are followed by a sequence, or by what can follow a value. *)
Lemma spells_none_lits u rest :
  spells_token u = false ->
  starts_punct rest \/ delimited (lit_run rest) = true ->
  spells_none (lits u ++ rest) = true.
Proof.
  intros Hu Hrest. unfold spells_none. apply forallb_forall. intros k _.
  apply negb_true_iff. unfold is_prefix. rewrite lit_run_app_lits.
  destruct Hrest as [(j & rest' & ->)|Hd].
  - cbn [lit_run]. rewrite append_nil_r. by rewrite spells_token_prefix.
  - rewrite strip_prefix_delimited by (done || apply token_atom_chars).
    by rewrite spells_token_prefix.
Qed.

Lemma text_char_lit c : text_char c = true -> lit_ok c = true.
Proof. unfold text_char. by intros [? _]%andb_true_iff. Qed.

Lemma text_ok_cons c w :
  text_ok (String c w) = true <-> text_char c = true /\ text_ok w = true.
Proof. unfold text_ok. cbn. apply andb_true_iff. Qed.

(** A key or a value before the sequence that ends it. *)
Lemma ready_word w j rest :
  text_ok w = true -> spells_token w = false -> ends_with "{" w = false ->
  ready (Punct j :: rest) = true ->
  ready (lits w ++ Punct j :: rest) = true.
Proof.
  intros Ht Hs He Hr. induction w as [|c w IH]; [done|].
  change (lits (String c w)) with (Lit c :: lits w). cbn [app].
  apply text_ok_cons in Ht as [Hc Ht].
  apply ready_lit.
  - by apply text_char_lit.
  - change (Lit c :: lits w ++ Punct j :: rest)
      with (lits (String c w) ++ Punct j :: rest).
    apply spells_none_lits; [done|]. left. by eexists _, _.
  - destruct w as [|c' w]; [|done]. cbn [lits map app brace_ok] in *.
    cbn [String.list_ascii_of_string map app brace_ok].
    cbn [ends_with] in He. by rewrite He.
  - apply IH; [done|by apply spells_token_tail in Hs|].
    destruct w as [|c' w]; [done|]. exact He.
Qed.

Lemma comma_ok_value k val j rest :
  val <> ","%string ->
  comma_ok (Punct k :: lits val ++ Punct j :: rest) = true.
Proof.
  intros Hv. destruct val as [|c [|c' val]]; [done| |done].
  cbn [lits String.list_ascii_of_string map app comma_ok].
  destruct (Ascii.eqb_spec c ",") as [->|]; [done|].
  by rewrite andb_false_r.
Qed.

Lemma colon_ok_value k val j rest :
  (k = PKv -> val = " : "%string -> j = PItem) ->
  colon_ok (Punct k :: lits val ++ Punct j :: rest) = true.
Proof.
  intros Hv. destruct val as [|a [|b [|c [|d val]]]]; try done.
  cbn [lits String.list_ascii_of_string map app colon_ok].
  destruct (punct_eqb_spec k PKv) as [->|]; [|done].
  destruct (Ascii.eqb_spec a " ") as [->|]; [|done].
  destruct (Ascii.eqb_spec b ":") as [->|]; [|done].
  destruct (Ascii.eqb_spec c " ") as [->|]; [|done].
  rewrite (Hv eq_refl eq_refl). done.
Qed.

Lemma string_ok_spec w :
  string_ok w = true -> text_ok w = true /\ spells_token w = false.
Proof.
  unfold string_ok. rewrite andb_true_iff, negb_true_iff. tauto.
Qed.

Lemma key_ok_spec w :
  key_ok w = true ->
  text_ok w = true /\ spells_token w = false /\ ends_with "{" w = false.
Proof.
  unfold key_ok. rewrite andb_true_iff, negb_true_iff.
  intros [H1%string_ok_spec H2]. tauto.
Qed.

Lemma is_ws_spec c :
  is_ws c = true -> lit_ok c = true /\ tok_head c = false /\ c <> "{"%char.
Proof.
  unfold is_ws. rewrite !orb_true_iff.
  intros [[[H|H]|H]|H]; apply Ascii.eqb_eq in H; subst c; done.
Qed.

Lemma brace_ok_lit c rest :
  c <> "{"%char -> brace_ok (Lit c :: rest) = true.
Proof.
  intros H. destruct rest as [|[?|?] ?]; try done.
  cbn [brace_ok]. by rewrite (proj2 (Ascii.eqb_neq c "{")).
Qed.

Lemma ready_pad pad rest :
  pad_ok pad = true -> ready rest = true -> ready (lits pad ++ rest) = true.
Proof.
  unfold pad_ok. intros Hp Hr. induction pad as [|c pad IH]; [done|].
  cbn [String.list_ascii_of_string forallb] in Hp.
  apply andb_true_iff in Hp as [Hc Hp].
  apply is_ws_spec in Hc as (H1 & H2 & H3).
  change (lits (String c pad)) with (Lit c :: lits pad). cbn [app].
  apply ready_lit; [done|by apply spells_none_head|by apply brace_ok_lit|].
  by apply IH.
Qed.

Lemma ready_mark c rest :
  c = "["%char \/ c = "]"%char \/ c = ","%char \/ c = "}"%char ->
  ready rest = true -> ready (Lit c :: rest) = true.
Proof.
  intros Hc Hr.
  apply ready_lit; [| |apply brace_ok_lit|done];
    by destruct Hc as [->|[->|[->| ->]]].
Qed.

Lemma ready_atom u rest :
  all_chars atom_char u = true -> spells_token u = false ->
  delimited (lit_run rest) = true -> ready rest = true ->
  ready (lits u ++ rest) = true.
Proof.
  intros Hc Hs Hd Hr. induction u as [|c u IH]; [done|].
  rewrite all_chars_cons in Hc. apply andb_true_iff in Hc as [Hc Hu].
  pose proof (atom_char_spec c Hc) as (_ & Hl & Hb & _).
  change (lits (String c u)) with (Lit c :: lits u). cbn [app].
  apply ready_lit; [done| |by apply brace_ok_lit|].
  - change (Lit c :: lits u ++ rest) with (lits (String c u) ++ rest).
    apply spells_none_lits; [done|by right].
  - apply IH; [done|by apply spells_token_tail in Hs].
Qed.

Lemma value_ok_spec e is_last :
  value_ok e is_last = true ->
  text_ok (val e) = true /\ spells_token (val e) = false
  /\ (is_last = false -> ends_with "{" (val e) = false)
  /\ val e <> ","%string
  /\ (is_last = true -> spaced e = false -> val e <> " : "%string).
Proof.
  unfold value_ok. rewrite !andb_true_iff, !negb_true_iff.
  intros [[[H1%string_ok_spec H2] H3] H4].
  destruct H1 as [H1 H1']. repeat split; try done.
  - intros ->. by apply negb_true_iff in H2.
  - intros E. by rewrite E in H3.
  - intros -> Hs E. by rewrite Hs, E in H4.
Qed.

Lemma ready_separator k val j rest :
  val <> ","%string -> (k = PKv -> val = " : "%string -> j = PItem) ->
  ready (lits val ++ Punct j :: rest) = true ->
  ready (Punct k :: lits val ++ Punct j :: rest) = true.
Proof.
  intros H1 H2 H3. rewrite ready_punct, H3.
  by rewrite comma_ok_value, colon_ok_value.
Qed.

(** An entry before the sequence that follows its value. *)
Lemma ready_entry e rest :
  key_ok (key e) = true -> value_ok e false = true ->
  ready (Punct PItem :: rest) = true ->
  ready (entry_items e ++ Punct PItem :: rest) = true.
Proof.
  intros (Hk1 & Hk2 & Hk3)%key_ok_spec (Hv1 & Hv2 & Hv3 & Hv4 & Hv5)%value_ok_spec
    Hr.
  unfold entry_items, separator. rewrite <- app_assoc. cbn [app].
  apply ready_word; try done.
  apply ready_separator; [done|done|].
  apply ready_word; try done. by apply Hv3.
Qed.

Lemma before_brace_Some v w :
  before_brace v = Some w -> v = w +:+ "{".
Proof.
  revert w; induction v as [|c v IH]; intros w; [done|].
  cbn [before_brace]. destruct v as [|c' v].
  - destruct (Ascii.eqb_spec c "{") as [->|]; [|done]. by intros [= <-].
  - destruct (before_brace (String c' v)) as [w'|]; [|done].
    intros [= <-]. rewrite append_cons. f_equal. by apply IH.
Qed.

Lemma before_brace_None v : before_brace v = None -> ends_with "{" v = false.
Proof.
  induction v as [|c v IH]; [done|]. cbn [before_brace ends_with].
  destruct v as [|c' v]; [by destruct (Ascii.eqb c "{")|].
  destruct (before_brace (String c' v)); [done|]. auto.
Qed.

Lemma text_ok_app u v : text_ok (u +:+ v) = text_ok u && text_ok v.
Proof. apply all_chars_app. Qed.

Lemma contains_app_left sub u x :
  contains sub u = true -> contains sub (u +:+ x) = true.
Proof.
  intros H. apply not_false_iff_true. intros Hc.
  apply contains_app_l in Hc. congruence.
Qed.

Lemma spells_token_app_l u x :
  spells_token (u +:+ x) = false -> spells_token u = false.
Proof.
  unfold spells_token. intros H. apply not_true_iff_false in H.
  apply not_true_iff_false. intros Hex. apply H.
  apply existsb_exists in Hex as (k & Hk & Hc). apply existsb_exists.
  exists k. split; [done|]. by apply contains_app_left.
Qed.

(** A word before the sequence brace-quote. *)
Lemma ready_word_open w rest :
  text_ok w = true -> spells_token w = false ->
  ready (Punct POpen :: rest) = true ->
  ready (lits w ++ Punct POpen :: rest) = true.
Proof.
  intros Ht Hs Hr. induction w as [|c w IH]; [done|].
  change (lits (String c w)) with (Lit c :: lits w). cbn [app].
  apply text_ok_cons in Ht as [Hc Ht].
  apply ready_lit.
  - by apply text_char_lit.
  - change (Lit c :: lits w ++ Punct POpen :: rest)
      with (lits (String c w) ++ Punct POpen :: rest).
    apply spells_none_lits; [done|]. left. by eexists _, _.
  - destruct w as [|c' w]; [|done].
    cbn [lits String.list_ascii_of_string map app brace_ok].
    by rewrite orb_true_r.
  - apply IH; [done|by apply spells_token_tail in Hs].
Qed.

Lemma ready_last_entry e rest :
  key_ok (key e) = true -> value_ok e true = true -> ready rest = true ->
  ready (lits (key e) ++ separator e :: close_value (val e) ++ rest) = true.
Proof.
  intros (Hk1 & Hk2 & Hk3)%key_ok_spec (Hv1 & Hv2 & Hv3 & Hv4 & Hv5)%value_ok_spec
    Hr.
  unfold separator. apply ready_word; try done. unfold close_value.
  destruct (before_brace (val e)) as [w|] eqn:Eb.
  - apply before_brace_Some in Eb. rewrite <- app_assoc. cbn [app].
    rewrite Eb in Hv1, Hv2. rewrite text_ok_app in Hv1.
    apply andb_true_iff in Hv1 as [Hw _]. apply spells_token_app_l in Hv2.
    assert (ready (lits w ++ Punct POpen :: Lit "}" :: rest) = true) as Hin.
    { apply ready_word_open; [done|done|].
      rewrite ready_plain_punct by tauto. apply ready_mark; tauto. }
    rewrite ready_punct, Hin.
    assert (comma_ok (Punct (if spaced e then PSpaced else PKv)
                        :: lits w ++ Punct POpen :: Lit "}" :: rest) = true)
      as ->.
    { destruct w as [|c [|c' w]]; [done| |done].
      cbn [lits String.list_ascii_of_string map app comma_ok].
      by rewrite orb_true_r. }
    assert (colon_ok (Punct (if spaced e then PSpaced else PKv)
                        :: lits w ++ Punct POpen :: Lit "}" :: rest) = true)
      as ->; [|done].
    destruct w as [|a [|b [|c [|d w]]]]; try done.
    cbn [lits String.list_ascii_of_string map app colon_ok].
    by rewrite orb_true_r.
  - apply before_brace_None in Eb. rewrite <- app_assoc. cbn [app].
    apply ready_separator; [done| |].
    + intros Hk Hval. destruct (spaced e) eqn:Es; [done|].
      by destruct (Hv5 eq_refl eq_refl).
    + apply ready_word; try done. by rewrite ready_plain_punct by tauto.
Qed.

Lemma ready_entries es rest :
  entries_ok es = true -> ready rest = true ->
  ready (entries_settled es ++ rest) = true.
Proof.
  intros Hok Hr. induction es as [|e es IH]; [done|].
  destruct es as [|e' es].
  - cbn [entries_ok] in Hok. apply andb_true_iff in Hok as [Hk Hv].
    cbn [entries_settled]. rewrite <- app_assoc. cbn [app].
    by apply ready_last_entry.
  - change (entries_ok (e :: e' :: es))
      with (key_ok (key e) && value_ok e false && entries_ok (e' :: es)) in Hok.
    rewrite !andb_true_iff in Hok. destruct Hok as [[Hk Hv] Hes].
    change (entries_settled (e :: e' :: es))
      with (entry_items e ++ Punct PItem :: entries_settled (e' :: es)).
    rewrite <- app_assoc. cbn [app].
    apply ready_entry; try done.
    rewrite ready_plain_punct by tauto. by apply IH.
Qed.

Lemma ready_object es rest :
  entries_ok es = true -> ready rest = true ->
  ready (Punct POpen :: entries_settled es ++ rest) = true.
Proof.
  intros Hok Hr. rewrite ready_plain_punct by tauto. by apply ready_entries.
Qed.

Lemma ready_tree_forest :
  (forall t, tree_ok t = true -> forall rest,
     ready rest = true -> delimited (lit_run rest) = true ->
     ready (tree_settled t ++ rest) = true)
  /\ (forall fo, forest_ok fo = true -> forall rest,
        ready rest = true ->
        ready (forest_settled fo ++ Lit "]" :: rest) = true).
Proof.
  apply tree_forest_mutind.
  - intros a Hok rest Hr Hd. cbn [tree_ok tree_settled] in *.
    apply atom_ok_shape in Hok as (_ & Hc & Hs & _).
    by apply ready_atom.
  - intros es Hok rest Hr _. cbn [tree_ok tree_settled] in *.
    by apply ready_object.
  - intros pad Hok rest Hr _. cbn [tree_ok tree_settled] in *.
    cbn [app]. rewrite <- app_assoc. cbn [app].
    apply ready_lit; [done|by apply spells_none_head| |].
    + by destruct pad.
    + apply ready_pad; [done|]. apply ready_mark; tauto.
  - intros pad Hok rest Hr _. cbn [tree_ok tree_settled] in *.
    cbn [app]. rewrite <- app_assoc. cbn [app].
    apply ready_mark; [tauto|].
    apply ready_pad; [done|]. apply ready_mark; tauto.
  - intros elems IH Hok rest Hr _. cbn [tree_ok tree_settled] in *.
    cbn [app]. rewrite <- app_assoc. cbn [app].
    apply ready_mark; [tauto|]. by apply IH.
  - intros pre t IH post Hok rest Hr. cbn [forest_ok forest_settled] in *.
    rewrite !andb_true_iff in Hok. destruct Hok as [[Hpre Ht] Hpost].
    rewrite <- !app_assoc. apply ready_pad; [done|].
    apply IH; [done| |].
    + apply ready_pad; [done|]. apply ready_mark; tauto.
    + rewrite lit_run_app_lits. cbn [lit_run]. by apply pad_delimited.
  - intros pre t IHt post fo IHf Hok rest Hr.
    cbn [forest_ok forest_settled] in *.
    rewrite !andb_true_iff in Hok. destruct Hok as [[[Hpre Ht] Hpost] Hfo].
    rewrite <- !app_assoc. apply ready_pad; [done|].
    apply IHt; [done| |].
    + apply ready_pad; [done|]. cbn [app]. apply ready_mark; [tauto|].
      by apply IHf.
    + rewrite lit_run_app_lits. cbn [app lit_run]. by apply pad_delimited.
Qed.
(** ** The normalizer and the decoder on a text *)

Lemma render_close_value img v :
  json_img img ->
  render img (close_value v) = render img (lits v ++ [Punct PClose]).
Proof.
  intros (Ho & _ & _ & Hc & _). unfold close_value.
  destruct (before_brace v) as [w|] eqn:E; [|done].
  apply before_brace_Some in E. subst v.
  rewrite !render_app, !render_lits. cbn [render].
  rewrite Ho, Hc. unfold open_obj, close_obj.
  by rewrite !append_assoc, ?append_cons, ?append_nil_l, ?append_nil_r.
Qed.

Lemma render_entries_settled img es :
  json_img img -> es <> [] ->
  render img (entries_settled es) = render img (entries_items es ++ [Punct PClose]).
Proof.
  intros Himg Hne. induction es as [|e es IH]; [done|]. clear Hne.
  destruct es as [|e' es].
  - cbn [entries_settled entries_items]. rewrite app_nil_r.
    unfold entry_items. rewrite <- app_assoc. cbn [app].
    rewrite !render_app. f_equal.
    change (separator e :: close_value (val e))
      with ([separator e] ++ close_value (val e)).
    change (separator e :: lits (val e) ++ [Punct PClose])
      with ([separator e] ++ lits (val e) ++ [Punct PClose]).
    rewrite !(render_app img [separator e]). f_equal.
    by apply render_close_value.
  - change (entries_settled (e :: e' :: es))
      with (entry_items e ++ Punct PItem :: entries_settled (e' :: es)).
    change (entries_items (e :: e' :: es))
      with (entry_items e ++ Punct PItem :: entries_items (e' :: es)).
    rewrite <- app_assoc. cbn [app]. rewrite !render_app. f_equal.
    cbn [render]. f_equal. by apply IH.
Qed.

Lemma render_settled img :
  json_img img ->
  (forall t, tree_ok t = true ->
     render img (tree_settled t) = render img (tree_items t))
  /\ (forall fo, forest_ok fo = true ->
        render img (forest_settled fo) = render img (forest_items fo)).
Proof.
  intros Himg. apply tree_forest_mutind; try done.
  - intros es Hok. cbn [tree_ok tree_settled tree_items] in *.
    unfold object_items. cbn [render]. f_equal.
    apply render_entries_settled; [done|]. by destruct es.
  - intros elems IH Hok. cbn [tree_ok tree_settled tree_items] in *.
    cbn [render]. rewrite !render_app. by rewrite IH.
  - intros pre t IH post Hok. cbn [forest_ok forest_settled forest_items] in *.
    rewrite !andb_true_iff in Hok. destruct Hok as [[_ Ht] _].
    rewrite !render_app. by rewrite IH.
  - intros pre t IHt post fo IHf Hok.
    cbn [forest_ok forest_settled forest_items] in *.
    rewrite !andb_true_iff in Hok. destruct Hok as [[[_ Ht] _] Hfo].
    rewrite !render_app. cbn [render]. by rewrite IHt, IHf.
Qed.

Lemma written_ok_spec pre t post :
  written_ok pre t post = true ->
  pad_ok pre = true /\ tree_ok t = true /\ pad_ok post = true.
Proof. unfold written_ok. rewrite !andb_true_iff. tauto. Qed.

Lemma text_settled img pre t post :
  json_img img -> tree_ok t = true ->
  pre +:+ render img (tree_items t) +:+ post
  = render img (lits pre ++ tree_settled t ++ lits post).
Proof.
  intros Himg Ht. rewrite !render_app, !render_lits.
  by rewrite (proj1 (render_settled img Himg) t Ht).
Qed.

Lemma ready_text pre t post :
  written_ok pre t post = true ->
  ready (lits pre ++ tree_settled t ++ lits post) = true.
Proof.
  intros (Hpre & Ht & Hpost)%written_ok_spec.
  apply ready_pad; [done|].
  apply (proj1 ready_tree_forest); [done| |].
  - rewrite <- (app_nil_r (lits post)). by apply ready_pad.
  - rewrite <- (app_nil_r (lits post)), lit_run_app_lits. cbn [lit_run].
    rewrite append_nil_r. by apply pad_delimited_end.
Qed.

Lemma remove_double_quotes_text pre t post :
  written_ok pre t post = true ->
  remove_double_quotes (text pre t post) = text_wide pre t post.
Proof.
  intros Hok. pose proof (written_ok_spec _ _ _ Hok) as (_ & Ht & _).
  unfold text, text_wide.
  rewrite !text_settled by (done || apply json_img_source
                                  || apply json_img_restored).
  rewrite remove_double_quotes_normalize.
  by apply normalize_ready, ready_text.
Qed.

Lemma loads_text img pre t post :
  json_img img -> written_ok pre t post = true ->
  loads (pre +:+ render img (tree_items t) +:+ post) = Some (tree_value t).
Proof.
  intros Himg (Hpre & Ht & Hpost)%written_ok_spec.
  destruct (proj1 (scan_tree_forest img Himg) t Ht post) as [f Hf].
  { by apply pad_delimited_end. }
  apply (loads_padded f pre _ post); try done.
  destruct (tree_head img t post Himg Ht) as (c & r & -> & Hws & _).
  by apply skip_ws_nonws.
Qed.


(** Two texts of this kind: the fragment of the specification's example
    and an array whose object holds a value with punctuation. *)
Lemma written_ok_fragments :
  text EmptyString Sample.fragment_tree EmptyString = Sample.header_fragment
  /\ written_ok EmptyString Sample.fragment_tree EmptyString = true
  /\ text EmptyString Sample.punctuation_tree EmptyString
     = "[{" +:+ Sample.quoted "a" +:+ ":" +:+ Sample.quoted "x,y:z {w}" +:+ "}]"
  /\ written_ok EmptyString Sample.punctuation_tree EmptyString = true.
Proof. repeat split; vm_compute; reflexivity. Qed.

(** Texts outside these, each valid JSON without backslash or
    placeholder token, that the normalizer turns into a text that does
    not decode: white space after the opening brace, a string in an
    array, an object for value, a space after the colon, a value that is
    a lone comma, a key that ends with an opening brace, a value that ends
    with one before another entry, and a last value space-colon-space
    after the separator quote-colon-quote.  A text that holds a
    placeholder token is broken too. *)
Lemma normalizer_breaks_other_texts :
  Forall (fun j => is_Some (loads j) /\ loads (remove_double_quotes j) = None)
    [ "[{ " +:+ Sample.quoted "a" +:+ ":" +:+ Sample.quoted "b" +:+ "}]";
      "[" +:+ Sample.quoted "a" +:+ "]";
      "{" +:+ Sample.quoted "a" +:+ ":{" +:+ Sample.quoted "b" +:+ ":"
        +:+ Sample.quoted "c" +:+ "}}";
      "{" +:+ Sample.quoted "a" +:+ ": " +:+ Sample.quoted "b" +:+ "}";
      "{" +:+ Sample.quoted "a" +:+ ":" +:+ Sample.quoted "," +:+ "}";
      "{" +:+ Sample.quoted "a{" +:+ ":" +:+ Sample.quoted "b" +:+ "}";
      "{" +:+ Sample.quoted "a" +:+ ":" +:+ Sample.quoted "b{" +:+ ","
        +:+ Sample.quoted "c" +:+ ":" +:+ Sample.quoted "d" +:+ "}";
      "{" +:+ Sample.quoted "a" +:+ ":" +:+ Sample.quoted " : " +:+ "}";
      "{" +:+ Sample.quoted "a" +:+ ":" +:+ Sample.quoted "arun" +:+ "}" ].
Proof. repeat constructor; vm_compute; by eauto. Qed.

(** C6, amended.  Take a JSON text in which every string is a key or a
    value of an object written with the five sequences (brace-quote, the
    entries joined by quote-comma-quote, quote-brace, each entry a key,
    the separator quote-colon-quote or quote-space-colon-space-quote, and
    a value), the objects standing alone or in arrays of any depth, beside
    numbers, literal names, empty objects and empty arrays, with white
    space allowed around the elements of an array, inside an empty object
    or array, and around the text.
    Let no key or value hold a double quote, a backslash, a control
    character or a placeholder token, no key and no value that another
    entry follows end with an opening brace, no value be a lone comma, and
    no last value be space-colon-space after the separator
    quote-colon-quote.  Then the text holds no backslash, the normalizer
    returns it with each spaced separator widened and nothing else
    changed, and the result decodes to the value the text decodes to. *)
Theorem normalizer_preserves_documents (pre : string) (t : tree) (post : string) :
  written_ok pre t post = true ->
  has_char backslash (text pre t post) = false
  /\ remove_double_quotes (text pre t post) = text_wide pre t post
  /\ loads (text pre t post) = Some (tree_value t)
  /\ loads (remove_double_quotes (text pre t post)) = Some (tree_value t).
Proof.
  intros Hok. rewrite remove_double_quotes_text by done.
  split; [|split; [done|split]].
  - pose proof (written_ok_spec _ _ _ Hok) as (_ & Ht & _).
    unfold text. rewrite text_settled by (done || apply json_img_source).
    apply has_char_ready; [done|done|by apply ready_text].
  - by apply loads_text; [apply json_img_source|].
  - by apply loads_text; [apply json_img_restored|].
Qed.

Lemma normalizer_preserves_documents_witness :
  has_char backslash (text " " Sample.profile_tree Sample.newline) = false
  /\ remove_double_quotes (text " " Sample.profile_tree Sample.newline)
     = text_wide " " Sample.profile_tree Sample.newline
  /\ loads (text " " Sample.profile_tree Sample.newline)
     = Some (tree_value Sample.profile_tree)
  /\ loads (remove_double_quotes (text " " Sample.profile_tree Sample.newline))
     = Some (tree_value Sample.profile_tree).
Proof.
  apply (normalizer_preserves_documents " " Sample.profile_tree Sample.newline).
  vm_compute. reflexivity.
Defined.
